(** * Cold-email campaign engine

    A shallow embedding of the campaign core of the repository:

    - [utils/email_sender.py]: [validate_company_data], [send_email],
      [run_campaign], [get_campaign_summary];
    - [utils/gemini_ai.py]: [personalize_email], [_get_fallback_content],
      [get_company_info], [extract_resume_content];

    and of what surrounds it: [_convert_text_to_html] of
    [utils/email_sender.py], the authenticator of [utils/gmail_auth.py]
    ([get_credentials_from_env], [authenticate], [get_service],
    [is_authenticated], [get_user_info], [logout]), and
    [check_environment] and the download summary of [app.py].

    Python values are modelled as follows.  A [str] is a [string], one
    character per code point below 256 (the two mode labels of the user
    interface hold characters beyond and are only compared as wholes);
    an exception is a value of [exn]; a call that may raise returns an
    [outcome]; code that talks to the outside world (mail service, text
    generation, clock, progress callback) runs in the monad [M], which
    threads a [State] and keeps it when an exception is raised, as Python
    does.  The collaborators are a [World] of oracles, so every statement
    holds for whatever they answer. *)

From Stdlib Require Import String Ascii List ZArith Lia Bool Arith.
From Stdlib Require Import DecimalString.
Import ListNotations.
Local Open Scope string_scope.
Local Open Scope bool_scope.

(* ================================================================== *)
(** ** Python string primitives *)
(* ================================================================== *)

Module PyStr.

(** [s.startswith(t)] *)
Fixpoint starts_with (t s : string) : bool :=
  match t, s with
  | EmptyString, _ => true
  | String _ _, EmptyString => false
  | String a t', String b s' => Ascii.eqb a b && starts_with t' s'
  end.

(** [t in s] *)
Fixpoint contains (t s : string) : bool :=
  starts_with t s ||
  match s with
  | EmptyString => false
  | String _ s' => contains t s'
  end.

(** [s[n:]] *)
Fixpoint drop (n : nat) (s : string) : string :=
  match n, s with
  | O, _ => s
  | S _, EmptyString => EmptyString
  | S k, String _ s' => drop k s'
  end.

(** The scan of [str.replace] for a non-empty [old]: left to right, an
    occurrence of [old] is replaced by [new] and the scan resumes after
    it.  [skip] counts the characters of the current occurrence that
    are still to be passed over. *)
Fixpoint replace_scan (old new : string) (skip : nat) (s : string) : string :=
  match s with
  | EmptyString => EmptyString
  | String c s' =>
      match skip with
      | S k => replace_scan old new k s'
      | O =>
          if starts_with old s
          then new ++ replace_scan old new (String.length old - 1) s'
          else String c (replace_scan old new 0 s')
      end
  end.

(** [s.replace("", new)] puts [new] before every character and at the
    end. *)
Fixpoint interleave (new s : string) : string :=
  match s with
  | EmptyString => new
  | String c s' => new ++ String c (interleave new s')
  end.

(** [s.replace(old, new)] *)
Definition replace (s old new : string) : string :=
  match old with
  | EmptyString => interleave new s
  | String _ _ => replace_scan old new 0 s
  end.

(** Characters [str.strip()] removes (code points below 256). *)
Definition is_space (c : ascii) : bool :=
  let n := nat_of_ascii c in
  (Nat.leb 9 n && Nat.leb n 13) || (Nat.leb 28 n && Nat.leb n 32)
  || Nat.eqb n 133 || Nat.eqb n 160.

Fixpoint lstrip (s : string) : string :=
  match s with
  | EmptyString => EmptyString
  | String c s' => if is_space c then lstrip s' else s
  end.

Fixpoint rstrip (s : string) : string :=
  match s with
  | EmptyString => EmptyString
  | String c s' =>
      match rstrip s' with
      | EmptyString => if is_space c then EmptyString else String c EmptyString
      | r => String c r
      end
  end.

(** [s.strip()] *)
Definition strip (s : string) : string := rstrip (lstrip s).

(** [str(n)] for a non-negative integer *)
Definition of_nat (n : nat) : string := NilEmpty.string_of_uint (Nat.to_uint n).

(** [str(z)] *)
Definition of_Z (z : Z) : string :=
  match z with
  | Zneg p => "-" ++ of_nat (Pos.to_nat p)
  | _ => of_nat (Z.to_nat z)
  end.

End PyStr.

(* ================================================================== *)
(** ** The e-mail pattern of [validate_company_data] *)
(* ================================================================== *)

(** Regular expressions matched by derivatives; enough of [re] for the
    pattern of line 56. *)
Module Regex.

Inductive re : Type :=
| Never                      (* matches nothing *)
| Empty                      (* matches the empty string *)
| Class (p : ascii -> bool)  (* one character of a class *)
| Seq (r1 r2 : re)
| Or (r1 r2 : re)
| Star (r : re).

Fixpoint nullable (r : re) : bool :=
  match r with
  | Never => false
  | Empty => true
  | Class _ => false
  | Seq r1 r2 => nullable r1 && nullable r2
  | Or r1 r2 => nullable r1 || nullable r2
  | Star _ => true
  end.

Fixpoint deriv (c : ascii) (r : re) : re :=
  match r with
  | Never => Never
  | Empty => Never
  | Class p => if p c then Empty else Never
  | Seq r1 r2 =>
      if nullable r1
      then Or (Seq (deriv c r1) r2) (deriv c r2)
      else Seq (deriv c r1) r2
  | Or r1 r2 => Or (deriv c r1) (deriv c r2)
  | Star r1 => Seq (deriv c r1) (Star r1)
  end.

(** The whole of [s] is in the language of [r]. *)
Fixpoint accepts (r : re) (s : string) : bool :=
  match s with
  | EmptyString => nullable r
  | String c s' => accepts (deriv c r) s'
  end.

(** [r+] and [r{2,}] *)
Definition plus (r : re) : re := Seq r (Star r).
Definition two_or_more (r : re) : re := Seq r (Seq r (Star r)).

Definition between (lo hi : nat) (c : ascii) : bool :=
  Nat.leb lo (nat_of_ascii c) && Nat.leb (nat_of_ascii c) hi.

Definition lower : ascii -> bool := between 97 122.
Definition upper : ascii -> bool := between 65 90.
Definition digit : ascii -> bool := between 48 57.
Definition one_of (cs : string) (c : ascii) : bool :=
  existsb (Ascii.eqb c) (list_ascii_of_string cs).

End Regex.

(** [[a-zA-Z0-9._%+-]] *)
Definition local_char (c : ascii) : bool :=
  Regex.lower c || Regex.upper c || Regex.digit c || Regex.one_of "._%+-" c.

(** [[a-zA-Z0-9.-]] *)
Definition domain_char (c : ascii) : bool :=
  Regex.lower c || Regex.upper c || Regex.digit c || Regex.one_of ".-" c.

(** [[a-zA-Z]] *)
Definition alpha_char (c : ascii) : bool := Regex.lower c || Regex.upper c.

(** [r'^[a-zA-Z0-9._%+-]+@[a-zA-Z0-9.-]+\.[a-zA-Z]{2,}$'].  [str.match] is
    [re.match], anchored at the start; without [re.MULTILINE] the final
    [$] matches at the end of the string and also just before a newline
    that ends the string. *)
Definition email_pattern : Regex.re :=
  Regex.Seq (Regex.plus (Regex.Class local_char))
 (Regex.Seq (Regex.Class (Ascii.eqb "@"))
 (Regex.Seq (Regex.plus (Regex.Class domain_char))
 (Regex.Seq (Regex.Class (Ascii.eqb "."))
 (Regex.Seq (Regex.two_or_more (Regex.Class alpha_char))
            (Regex.Or Regex.Empty (Regex.Class (Ascii.eqb "010"))))))).

Definition email_match (s : string) : bool := Regex.accepts email_pattern s.

(* ================================================================== *)
(** ** Exceptions *)
(* ================================================================== *)

(** A Python exception: its class name and [str(e)]. *)
Record exn : Type := Exn { exn_class : string; exn_str : string }.

Inductive outcome (A : Type) : Type :=
| Ret (a : A)
| Raise (e : exn).
Arguments Ret {A} a.
Arguments Raise {A} e.

(* ================================================================== *)
(** ** Data frames *)
(* ================================================================== *)

(** A cell of the uploaded table: text, a number, or a missing value
    ([NaN] / [None]). *)
Inductive cell : Type :=
| CStr (s : string)
| CNum (z : Z)
| CMissing.

(** An index label, as [iterrows] yields it. *)
Inductive label : Type :=
| LInt (i : Z)
| LStr (s : string).

(** A [pd.DataFrame]: the column labels and, row by row, the index label
    and the cells in column order.  Column labels are taken to be
    distinct, as the readers of [app.py] ([pd.read_csv], [pd.read_excel])
    make them; a cell that a row lacks reads as missing.  The record
    holds no dtype: the dtype of a column is the one pandas infers from
    its cells (see [str_accessor_ok]). *)
Record DataFrame : Type := {
  df_columns : list string;
  df_rows : list (label * list cell)
}.

(** [len(df)] *)
Definition df_len (df : DataFrame) : nat := List.length (df_rows df).

Fixpoint position (name : string) (cols : list string) : option nat :=
  match cols with
  | [] => None
  | c :: cols' =>
      if String.eqb name c then Some 0
      else option_map S (position name cols')
  end.

(** [col in df.columns] *)
Definition has_column (df : DataFrame) (name : string) : bool :=
  match position name (df_columns df) with Some _ => true | None => false end.

(** [df[col]], the values of a column that is present *)
Definition column (df : DataFrame) (name : string) : option (list cell) :=
  match position name (df_columns df) with
  | Some j => Some (map (fun r => nth j (snd r) CMissing) (df_rows df))
  | None => None
  end.

(** [pd.isna] on one cell: the empty string is a value, not a missing
    one. *)
Definition isna (c : cell) : bool :=
  match c with CMissing => true | _ => false end.

Definition is_str (c : cell) : bool :=
  match c with CStr _ => true | _ => false end.

(** The [.str] accessor of a column exists for text columns only.  The
    dtype is the one inferred from the cells: a column with at least one
    row and no text in it is numeric ([int64] / [float64], the latter
    also when every cell is blank), and [.str] raises [AttributeError]
    on it; every other column has dtype [object], a column with no row
    among them, as in a file that holds a header and nothing else.
    Pandas can also hold a column with no row and a numeric dtype (a
    numeric column filtered down to nothing, a dtype given by hand), on
    which [.str] raises as well: such a frame has no counterpart
    here. *)
Definition str_accessor_ok (vals : list cell) : bool :=
  match vals with
  | [] => true
  | _ :: _ => existsb is_str vals
  end.

(** One element of [Series.str.match(email_pattern, na=False)]: a cell
    that is not text gives [NaN], which [na=False] turns into [False]. *)
Definition str_match_na_false (c : cell) : bool :=
  match c with
  | CStr s => email_match s
  | _ => false
  end.

(** A row as [iterrows] yields it: a [Series] indexed by the column
    labels. *)
Record Row : Type := { row_columns : list string; row_cells : list cell }.

(** [row[key]] *)
Definition row_getitem (row : Row) (key : string) : outcome cell :=
  match position key (row_columns row) with
  | Some j => Ret (nth j (row_cells row) CMissing)
  | None => Raise (Exn "KeyError" ("'" ++ key ++ "'"))
  end.

(** [row.get(key, default)] *)
Definition row_get (row : Row) (key : string) (default : cell) : cell :=
  match position key (row_columns row) with
  | Some j => nth j (row_cells row) CMissing
  | None => default
  end.

(** [df.iterrows()] *)
Definition iterrows (df : DataFrame) : list (label * Row) :=
  map (fun r => (fst r, {| row_columns := df_columns df; row_cells := snd r |}))
      (df_rows df).

(* ================================================================== *)
(** ** [EmailSender.validate_company_data] *)
(* ================================================================== *)

Definition required_columns : list string := ["Company Name"; "Recruiter"; "Email"].

Definition missing_columns_error (missing : list string) : string :=
  "Missing required columns: " ++ String.concat ", " missing.

Definition empty_values_error (col : string) : string :=
  "Column '" ++ col ++ "' contains empty values".

Definition invalid_emails_error (n : nat) : string :=
  "Invalid email addresses found: " ++ PyStr.of_nat n ++ " rows".

(** Lines 45-47 *)
Definition check_required (df : DataFrame) (errors : list string) : list string :=
  let missing_columns := filter (fun col => negb (has_column df col)) required_columns in
  match missing_columns with
  | [] => errors
  | _ :: _ => (errors ++ [missing_columns_error missing_columns])%list
  end.

(** The body of the loop of lines 50-52 *)
Definition check_empty_column (df : DataFrame) (errors : list string) (col : string)
  : list string :=
  match column df col with
  | Some vals =>
      if existsb isna vals then (errors ++ [empty_values_error col])%list else errors
  | None => errors
  end.

(** Lines 55-59 *)
Definition check_emails (df : DataFrame) (errors : list string)
  : outcome (list string) :=
  match column df "Email" with
  | Some vals =>
      if str_accessor_ok vals then
        let invalid_emails := filter (fun c => negb (str_match_na_false c)) vals in
        match invalid_emails with
        | [] => Ret errors
        | _ :: _ =>
            Ret (errors ++ [invalid_emails_error (List.length invalid_emails)])%list
        end
      else
        Raise (Exn "AttributeError" "Can only use .str accessor with string values!")
  | None => Ret errors
  end.

Definition validate_company_data (df : DataFrame) : outcome (bool * list string) :=
  let errors := check_required df [] in
  let errors := fold_left (check_empty_column df) required_columns errors in
  match check_emails df errors with
  | Ret errors => Ret (Nat.eqb (List.length errors) 0, errors)
  | Raise e => Raise e
  end.

(* ================================================================== *)
(** ** State, effects and the outside world *)
(* ================================================================== *)

(** One entry of the result log ([result] / [error_result] of
    [run_campaign]). *)
Record CampaignResult : Type := {
  company : cell;
  recruiter : cell;
  email : cell;
  subject : string;
  success : bool;
  message : string;
  timestamp : string
}.

Inductive gen_purpose : Type :=
| Research          (* the prompt of [get_company_info] *)
| Personalize.      (* the prompt of [personalize_email] *)

(** What the program does to the outside world, in order. *)
Inductive event : Type :=
| EvPacingSleep (secs : Z)   (* [time.sleep(delay_seconds)], line 293 *)
| EvGenSleep (secs : Z)      (* [time.sleep(self.DELAY_SECONDS)] of the generator *)
| EvGenerate (why : gen_purpose)   (* [self.model.generate_content(prompt)] *)
| EvExtractResume            (* [extract_resume_content] *)
| EvGetService               (* [self.gmail_auth.get_service()] *)
| EvBuildMessage (to : cell) (subj body : string)  (* [create_email_message] *)
| EvSend (raw : string)      (* [service.users().messages().send(...).execute()] *)
| EvCallback (r : CampaignResult).  (* [progress_callback(result)] *)

(** [clock] counts the calls made to the outside world so far, [trace]
    lists them (latest first), [campaign_results] is
    [self.campaign_results]. *)
Record State : Type := {
  clock : nat;
  trace : list event;
  campaign_results : list CampaignResult
}.

Definition initial_state : State :=
  {| clock := 0; trace := []; campaign_results := [] |}.

(** A computation: it ends with a value or an exception, and with the
    state it reached in either case. *)
Definition M (A : Type) : Type := State -> outcome A * State.

Definition ret {A} (a : A) : M A := fun s => (Ret a, s).

Definition raise {A} (e : exn) : M A := fun s => (Raise e, s).

Definition bind {A B} (m : M A) (k : A -> M B) : M B :=
  fun s =>
    match m s with
    | (Ret a, s') => k a s'
    | (Raise e, s') => (Raise e, s')
    end.

(** [try: m  except Exception as e: handler e] *)
Definition try_except {A} (m : M A) (handler : exn -> M A) : M A :=
  fun s =>
    match m s with
    | (Ret a, s') => (Ret a, s')
    | (Raise e, s') => handler e s'
    end.

(** A pure step that may raise. *)
Definition lift {A} (o : outcome A) : M A := fun s => (o, s).

(** A call to the outside world is logged and numbered. *)
Definition record_event (ev : event) (s : State) : State :=
  {| clock := S (clock s); trace := ev :: trace s;
     campaign_results := campaign_results s |}.

Definition call (ev : event) : M nat :=
  fun s => (Ret (clock s), record_event ev s).

(** [self.campaign_results.append(r)] *)
Definition append_result (r : CampaignResult) : M unit :=
  fun s =>
    (Ret tt,
     {| clock := clock s; trace := trace s;
        campaign_results := (campaign_results s ++ [r])%list |}).

(** [self.campaign_results = []] *)
Definition reset_results : M unit :=
  fun s => (Ret tt, {| clock := clock s; trace := trace s; campaign_results := [] |}).

Definition get_results : M (list CampaignResult) :=
  fun s => (Ret (campaign_results s), s).

Declare Scope monad_scope.
Delimit Scope monad_scope with monad.
Notation "x <- m ;; k" := (bind m (fun x => k))
  (at level 61, m at next level, right associativity) : monad_scope.
Notation "m ;; k" := (bind m (fun _ => k))
  (at level 61, right associativity) : monad_scope.
Local Open Scope monad_scope.

(** [for x in xs: body x] *)
Fixpoint for_each {A} (xs : list A) (body : A -> M unit) : M unit :=
  match xs with
  | [] => ret tt
  | x :: xs' => body x ;; for_each xs' body
  end.

(** What [generate_content] gives back. *)
Inductive gen_response : Type :=
| GenRaises (e : exn)   (* the call, or reading [response.text], raises *)
| GenNothing            (* a falsy response *)
| GenText (text : string).

(** The collaborators.  Each answer may depend on the number of the call,
    so that one collaborator can succeed for one recipient and fail for
    the next. *)
Record World : Type := {
  (** [self.model] of [GeminiAI] is set *)
  model_configured : bool;
  generate_content : nat -> gen_response;
  (** the text [extract_resume_content] returns (it catches its own
      exceptions) *)
  resume_text : nat -> string;
  (** [get_service()]: a service handle, [None], or an exception *)
  get_service : nat -> outcome bool;
  (** [create_email_message]: the encoded message, or an exception from
      the MIME assembly, which is not modelled *)
  create_email_message :
    nat -> cell -> string -> string -> option string -> option string -> outcome string;
  (** [execute()] of the send request: the id of the sent message, or
      an exception *)
  execute_send : nat -> string -> outcome string;
  (** [time.strftime('%Y-%m-%d %H:%M:%S')] *)
  strftime : nat -> string
}.

(** [st.session_state], the keys the engine reads. *)
Record SessionState : Type := {
  personalization_mode : option string;
  preview_email_content : option string;
  preview_email_subject : option string;
  resume_file : option string
}.

(** The first option of the mode selector of [app.py], which is also the
    default [run_campaign] assumes. *)
Definition AI_MODE : string := "🤖 AI-Powered Personalization".

(** The newline character. *)
Definition NL : string := String "010" EmptyString.

(** The double quote. *)
Definition DQ : string := String "034" EmptyString.

(** [str(v)] of a cell, as an f-string renders it *)
Definition cell_str (c : cell) : string :=
  match c with
  | CStr s => s
  | CNum z => PyStr.of_Z z
  | CMissing => "nan"
  end.

(** [s.replace(old, new)] where [new] comes from the table: [str.replace]
    raises [TypeError] when [new] is not a [str]. *)
Definition replace_cell (s old : string) (new : cell) : outcome string :=
  match new with
  | CStr n => Ret (PyStr.replace s old n)
  | CNum _ => Raise (Exn "TypeError" "replace() argument 2 must be str, not int")
  | CMissing => Raise (Exn "TypeError" "replace() argument 2 must be str, not float")
  end.

Definition obind {A B} (o : outcome A) (k : A -> outcome B) : outcome B :=
  match o with
  | Ret a => k a
  | Raise e => Raise e
  end.

(** The four replacements of lines 234-237, 253-256 and of
    [_get_fallback_content]. *)
Definition replace_placeholders (text : string) (company_name recruiter_name : cell)
  : outcome string :=
  obind (replace_cell text "[Company Name]" company_name) (fun t =>
  obind (replace_cell t "[Recruiter Name]" recruiter_name) (fun t =>
  obind (replace_cell t "[COMPANY]" company_name) (fun t =>
  replace_cell t "[RECRUITER]" recruiter_name))).

(** The two replacements of lines 263-264 and 267-268. *)
Definition replace_subject_placeholders (text : string)
  (company_name recruiter_name : cell) : outcome string :=
  obind (replace_cell text "[Company Name]" company_name) (fun t =>
  replace_cell t "[Recruiter Name]" recruiter_name).

Fixpoint zeros (k : nat) : string :=
  match k with
  | O => EmptyString
  | S k' => String "0" (zeros k')
  end.

(** ['%f' % (a / n)] for [n > 0]: the sign, the integer part, a point
    and six decimals.  The digits are those of the exact quotient, the
    last one rounded to even on a tie.  Python divides in floating
    point, which gives the same digits except on a tie that is no binary
    fraction, where the float decides the last digit. *)
Definition percent_f (a : Z) (n : nat) : string :=
  let d := Z.of_nat n in
  let scaled := (Z.abs a * 1000000)%Z in
  let q := (scaled / d)%Z in
  let r := (scaled mod d)%Z in
  let q := if (2 * r <? d)%Z then q
           else if (d <? 2 * r)%Z then (q + 1)%Z
           else if Z.even q then q else (q + 1)%Z in
  let decimals := PyStr.of_Z (q mod 1000000) in
  (if (a <? 0)%Z then "-" else "")
  ++ PyStr.of_Z (q / 1000000) ++ "."
  ++ zeros (6 - String.length decimals) ++ decimals.

(* ================================================================== *)
(** ** [GeminiAI] *)
(* ================================================================== *)

Section Engine.

Variable world : World.

(** [GeminiAI.DELAY_SECONDS] *)
Definition DELAY_SECONDS : Z := 4.

(** [response and response.text] *)
Definition usable_text (r : gen_response) : option string :=
  match r with
  | GenText EmptyString => None
  | GenText t => Some t
  | _ => None
  end.

(** [self.model.generate_content(prompt)] followed by the reading of
    [response.text]. *)
Definition generate (why : gen_purpose) : M gen_response :=
  n <- call (EvGenerate why) ;;
  match generate_content world n with
  | GenRaises e => raise e
  | r => ret r
  end.

(** [get_company_info]: best-effort research, every exception caught. *)
Definition get_company_info (company_name : cell) : M string :=
  try_except
    (r <- (if model_configured world then generate Research else ret GenNothing) ;;
     match usable_text r with
     | Some t => ret (PyStr.strip t)
     | None =>
         ret (cell_str company_name ++
              " is a company in the industry. They focus on providing quality services and solutions to their clients.")
     end)
    (fun _ =>
       ret (cell_str company_name ++ " is a company that values innovation and growth.")).

(** [_get_fallback_content] *)
Definition _get_fallback_content (company_name recruiter_name : cell)
  (base_template : string) : outcome string :=
  obind (replace_placeholders base_template company_name recruiter_name)
    (fun fallback_content =>
       Ret (PyStr.replace fallback_content (NL ++ NL ++ NL) (NL ++ NL))).

(** [personalize_email].  The prompt is text built from the arguments
    and from [get_company_info]; building it raises nothing, and the
    reply it gets is the collaborator's, so only the call is recorded. *)
Definition personalize_email (company_name recruiter_name : cell)
  (base_template resume_summary : string) : M string :=
  if negb (model_configured world) then
    lift (_get_fallback_content company_name recruiter_name base_template)
  else
    try_except
      (call (EvGenSleep DELAY_SECONDS) ;;
       _ <- get_company_info company_name ;;
       response <- generate Personalize ;;
       match usable_text response with
       | Some t => ret (PyStr.strip t)
       | None => lift (_get_fallback_content company_name recruiter_name base_template)
       end)
      (fun _ =>
         lift (_get_fallback_content company_name recruiter_name base_template)).

(** [extract_resume_content] *)
Definition extract_resume_content : M string :=
  n <- call EvExtractResume ;;
  ret (resume_text world n).

(* ================================================================== *)
(** ** [EmailSender.send_email] *)
(* ================================================================== *)

Definition send_email (to_email : cell) (subject body : string)
  (attachment_path attachment_name : option string) : M (bool * string) :=
  try_except
    (n <- call EvGetService ;;
     service <- lift (get_service world n) ;;
     if negb service then ret (false, "Gmail service not available")
     else
       n <- call (EvBuildMessage to_email subject body) ;;
       raw_message <- lift (create_email_message world n to_email subject body
                              attachment_path attachment_name) ;;
       n <- call (EvSend raw_message) ;;
       id <- lift (execute_send world n raw_message) ;;
       ret (true, "Email sent successfully (ID: " ++ id ++ ")"))
    (fun e => ret (false, "Failed to send email: " ++ exn_str e)).

(* ================================================================== *)
(** ** [EmailSender.run_campaign] *)
(* ================================================================== *)

Variable session_state : SessionState.

(** [st.session_state.get('personalization_mode', ...)], line 226 *)
Definition selected_mode : string :=
  match personalization_mode session_state with
  | Some m => m
  | None => AI_MODE
  end.

(** Lines 228-256: the body of the message. *)
Definition personalize_body (company_name recruiter_name : cell)
  (email_template : string) : M string :=
  if String.eqb selected_mode AI_MODE then
    match preview_email_content session_state with
    | Some edited =>
        lift (replace_placeholders edited company_name recruiter_name)
    | None =>
        resume_summary <-
          match resume_file session_state with
          | Some _ => extract_resume_content
          | None => ret EmptyString
          end ;;
        personalize_email company_name recruiter_name email_template resume_summary
    end
  else
    lift (replace_placeholders email_template company_name recruiter_name).

(** Lines 258-268: the subject. *)
Definition personalize_subject (company_name recruiter_name : cell)
  (subject_template : string) : outcome string :=
  match preview_email_subject session_state with
  | Some edited => replace_subject_placeholders edited company_name recruiter_name
  | None => replace_subject_placeholders subject_template company_name recruiter_name
  end.

(** [progress_bar.progress((index + 1) / total_emails)]: adding to a label
    that is not a number raises [TypeError], and the progress bar refuses
    a value outside [0.0, 1.0] with a message that ends with the value.
    (The bar lets through a value within [1e-9] of either end; it takes
    a table of about a billion rows to produce one, and this is left
    out.) *)
Definition show_progress (index : label) (total_emails : nat) : outcome Z :=
  match index with
  | LStr _ =>
      Raise (Exn "TypeError"
               ("can only concatenate str (not " ++ DQ ++ "int" ++ DQ ++ ") to str"))
  | LInt i =>
      if ((0 <=? i + 1) && (i + 1 <=? Z.of_nat total_emails))%Z then Ret i
      else Raise (Exn "StreamlitAPIException"
                    ("Progress Value has invalid value [0.0, 1.0]: "
                     ++ percent_f (i + 1) total_emails))
  end.

(** [time.sleep(delay_seconds)] *)
Definition pacing_sleep (delay_seconds : Z) : M unit :=
  if (delay_seconds <? 0)%Z then
    raise (Exn "ValueError" "sleep length must be non-negative")
  else
    call (EvPacingSleep delay_seconds) ;; ret tt.

(** [progress_callback(result)], when one is given: it returns or
    raises. *)
Definition notify (progress_callback : option (nat -> CampaignResult -> option exn))
  (result : CampaignResult) : M unit :=
  match progress_callback with
  | None => ret tt
  | Some f =>
      n <- call (EvCallback result) ;;
      match f n result with
      | Some e => raise e
      | None => ret tt
      end
  end.

Definition now : M string :=
  fun s => (Ret (strftime world (clock s)), s).

(** Lines 297-305 *)
Definition error_result (row : Row) (e : exn) (ts : string) : CampaignResult :=
  {| company := row_get row "Company Name" (CStr "Unknown");
     recruiter := row_get row "Recruiter" (CStr "Unknown");
     email := row_get row "Email" (CStr "Unknown");
     subject := "Error";
     success := false;
     message := "Campaign error: " ++ exn_str e;
     timestamp := ts |}.

Variables (email_template subject_template : string).
Variables (resume_path resume_name : option string).
Variable delay_seconds : Z.
Variable progress_callback : option (nat -> CampaignResult -> option exn).

(** Lines 215-293: the [try] block of one iteration. *)
Definition attempt (total_emails : nat) (index : label) (row : Row) : M unit :=
  i <- lift (show_progress index total_emails) ;;
  company_name <- lift (row_getitem row "Company Name") ;;
  recruiter_name <- lift (row_getitem row "Recruiter") ;;
  email_address <- lift (row_getitem row "Email") ;;
  personalized_body <- personalize_body company_name recruiter_name email_template ;;
  personalized_subject <- lift (personalize_subject company_name recruiter_name subject_template) ;;
  sent <- send_email email_address personalized_subject personalized_body
            resume_path resume_name ;;
  ts <- now ;;
  let result :=
    {| company := company_name;
       recruiter := recruiter_name;
       email := email_address;
       subject := personalized_subject;
       success := fst sent;
       message := snd sent;
       timestamp := ts |} in
  append_result result ;;
  notify progress_callback result ;;
  if (i <? Z.of_nat total_emails - 1)%Z then pacing_sleep delay_seconds else ret tt.

(** Lines 214-306: one iteration, with its [except] clause. *)
Definition iteration (total_emails : nat) (entry : label * Row) : M unit :=
  try_except
    (attempt total_emails (fst entry) (snd entry))
    (fun e =>
       ts <- now ;;
       append_result (error_result (snd entry) e ts)).

Definition run_campaign (company_data : DataFrame) : M (list CampaignResult) :=
  reset_results ;;
  let total_emails := df_len company_data in
  for_each (iterrows company_data) (iteration total_emails) ;;
  get_results.

End Engine.

(* ================================================================== *)
(** ** [EmailSender.get_campaign_summary] *)
(* ================================================================== *)

Record CampaignSummary : Type := {
  total : nat;
  successful : nat;
  failed : nat
}.

Definition get_campaign_summary (s : State) : CampaignSummary :=
  match campaign_results s with
  | [] => {| total := 0; successful := 0; failed := 0 |}
  | _ :: _ =>
      let total := List.length (campaign_results s) in
      let successful := List.length (filter success (campaign_results s)) in
      {| total := total; successful := successful; failed := total - successful |}
  end.

(* ================================================================== *)
(** ** [EmailSender._convert_text_to_html] *)
(* ================================================================== *)

Module PyText.

(** The scan of [str.split(sep)] for a non-empty [sep]: the pieces
    between the occurrences of [sep], found from left to right.  [skip]
    counts the characters of the current occurrence still to be passed
    over. *)
Fixpoint split_scan (sep : string) (skip : nat) (s : string) : list string :=
  match s with
  | EmptyString => [EmptyString]
  | String c s' =>
      match skip with
      | S k => split_scan sep k s'
      | O =>
          if PyStr.starts_with sep s
          then EmptyString :: split_scan sep (String.length sep - 1) s'
          else
            match split_scan sep 0 s' with
            | piece :: pieces => String c piece :: pieces
            | [] => [String c EmptyString]
            end
      end
  end.

(** [s.split(sep)]; Python raises [ValueError] for an empty separator,
    which no call of the program passes. *)
Definition split (s sep : string) : list string := split_scan sep 0 s.

(** [s[:n]] *)
Fixpoint take (n : nat) (s : string) : string :=
  match n, s with
  | O, _ => EmptyString
  | S _, EmptyString => EmptyString
  | S k, String c s' => String c (take k s')
  end.

(** Every character of [s] is white space. *)
Fixpoint blank (s : string) : bool :=
  match s with
  | EmptyString => true
  | String c s' => PyStr.is_space c && blank s'
  end.

End PyText.

(** The opening tag of a paragraph, line 125. *)
Definition P_OPEN : string :=
  "<p style=" ++ DQ ++ "margin: 8px 0; line-height: 1.4;" ++ DQ ++ ">".

Definition P_CLOSE : string := "</p>".

(** The document around the paragraphs, lines 131-150. *)
Definition HTML_HEAD : string :=
  String.concat NL
    [ "";
      "        <html>";
      "        <head>";
      "            <meta charset=" ++ DQ ++ "UTF-8" ++ DQ ++ ">";
      "            <style>";
      "                body {";
      "                    font-family: Arial, sans-serif;";
      "                    line-height: 1.4;";
      "                    color: #333;";
      "                    max-width: 600px;";
      "                    margin: 0 auto;";
      "                    padding: 20px;";
      "                }";
      "            </style>";
      "        </head>";
      "        <body>";
      "            " ].

Definition HTML_TAIL : string :=
  String.concat NL [ ""; "        </body>"; "        </html>"; "        " ].

(** The loop of lines 121-125: blank paragraphs are skipped, the others
    are stripped, their line breaks become [<br>], and they are wrapped
    in a paragraph tag. *)
Fixpoint html_paragraphs (paragraphs : list string) : list string :=
  match paragraphs with
  | [] => []
  | paragraph :: rest =>
      match PyStr.strip paragraph with
      | EmptyString => html_paragraphs rest
      | stripped =>
          (P_OPEN ++ PyStr.replace stripped NL "<br>" ++ P_CLOSE) :: html_paragraphs rest
      end
  end.

(** The paragraphs joined, line 128. *)
Definition html_text (text : string) : string :=
  String.concat NL (html_paragraphs (PyText.split text (NL ++ NL))).

(** [EmailSender._convert_text_to_html] *)
Definition _convert_text_to_html (text : string) : string :=
  HTML_HEAD ++ html_text text ++ HTML_TAIL.

(* ================================================================== *)
(** ** [GeminiAI.extract_resume_content], the extraction itself *)
(* ================================================================== *)

(** [GeminiAI.extract_resume_content] on what PyPDF2 makes of the
    uploaded file. *)
Module Resume.

(** Lines 229-231: the text of the pages, a newline after each; the
    first page whose [extract_text()] raises ends the loop. *)
Definition pages_text (pages : list (outcome string)) : outcome string :=
  fold_left
    (fun resume_text page =>
       obind resume_text (fun text =>
       obind page (fun page_text => Ret (text ++ page_text ++ NL))))
    pages (Ret EmptyString).

(** [pdf] is what [PyPDF2.PdfReader(...)] gives: an exception, or the
    pages. *)
Definition extract_resume_content (pdf : outcome (list (outcome string))) : string :=
  match obind pdf pages_text with
  | Ret resume_text =>
      let resume_text := PyStr.strip resume_text in
      if Nat.ltb 2000 (String.length resume_text)
      then PyText.take 2000 resume_text ++ "..."
      else resume_text
  | Raise _ => "Resume content extraction failed"
  end.

End Resume.

(* ================================================================== *)
(** ** [main] of [app.py]: the summary beside the download *)
(* ================================================================== *)

(** The summary [main] of [app.py] shows beside the download button,
    from the stored results: the rows, the rows with
    [success == True], the rows with [success == False]. *)
Definition download_summary (results : list CampaignResult) : CampaignSummary :=
  {| total := List.length results;
     successful := List.length (filter (fun r => Bool.eqb (success r) true) results);
     failed := List.length (filter (fun r => Bool.eqb (success r) false) results) |}.

(* ================================================================== *)
(** ** [check_environment] and [GmailAuthenticator] *)
(* ================================================================== *)

(** [os.getenv]: the environment. *)
Definition Env : Type := string -> option string.

(** Truth value of what [os.getenv] gives: unset and empty are false. *)
Definition is_set (v : option string) : bool :=
  match v with
  | Some (String _ _) => true
  | _ => false
  end.

(** [check_environment] of [app.py] *)
Definition check_environment (getenv : Env) : bool * list string :=
  let required_vars := ["GOOGLE_CLIENT_ID"; "GOOGLE_CLIENT_SECRET"; "GEMINI_API_KEY"] in
  let missing_vars := filter (fun var => negb (is_set (getenv var))) required_vars in
  (Nat.eqb (List.length missing_vars) 0, missing_vars).

Module GmailAuth.

(** A [google.oauth2.credentials.Credentials] object, as the code reads
    it: its [valid] and [expired] properties and whether it has a
    refresh token. *)
Record Credentials : Type := {
  token : string;
  valid : bool;
  expired : bool;
  refresh_token : bool
}.

(** [st.session_state.gmail_credentials]: a JSON text or a dict. *)
Inductive Stored : Type :=
| StoredText (json : string)
| StoredDict (info : list (string * string)).

(** The dict [get_credentials_from_env] returns (its [installed]
    entry). *)
Record ClientConfig : Type := {
  client_id : string;
  client_secret : string;
  auth_uri : string;
  token_uri : string;
  redirect_uris : list string
}.

(** The libraries behind the authenticator; answers may depend on the
    number of the call. *)
Record Services : Type := {
  getenv : Env;
  (** lines 63-69: [json.loads] of a text, then
      [Credentials.from_authorized_user_info] *)
  load_credentials : nat -> Stored -> outcome Credentials;
  (** [credentials.refresh(Request())]: the object afterwards, and the
      exception when it raises *)
  refresh : nat -> Credentials -> Credentials * option exn;
  (** [credentials.to_json()] *)
  to_json : Credentials -> outcome string;
  (** [InstalledAppFlow.from_client_config] and
      [flow.authorization_url] *)
  authorization_url : nat -> ClientConfig -> string -> outcome string;
  (** [build('gmail', 'v1', credentials=...)]: a service handle *)
  build : nat -> option Credentials -> outcome nat;
  (** [service.users().getProfile(userId='me').execute()] *)
  get_profile : nat -> nat -> outcome string
}.

Inductive auth_event : Type :=
| EvLoad                       (* the stored credentials are parsed *)
| EvRefresh                    (* [credentials.refresh] *)
| EvFlow                       (* the OAuth flow is set up *)
| EvShowLink (url : string)    (* the authorization link is shown *)
| EvBuild                      (* [build] *)
| EvProfile.                   (* [getProfile] *)

(** The authenticator and the session: [self.credentials],
    [self.service], [st.session_state.gmail_credentials]; [ticks]
    numbers the calls to the libraries and [calls] lists them, latest
    first. *)
Record Auth : Type := {
  ticks : nat;
  calls : list auth_event;
  credentials : option Credentials;
  service : option nat;
  gmail_credentials : option Stored
}.

(** [GmailAuthenticator()] in a session *)
Definition new (stored : option Stored) : Auth :=
  {| ticks := 0; calls := []; credentials := None; service := None;
     gmail_credentials := stored |}.

Definition Act (A : Type) : Type := Auth -> outcome A * Auth.

Definition ret {A} (a : A) : Act A := fun s => (Ret a, s).

Definition raise {A} (e : exn) : Act A := fun s => (Raise e, s).

Definition bind {A B} (m : Act A) (k : A -> Act B) : Act B :=
  fun s =>
    match m s with
    | (Ret a, s') => k a s'
    | (Raise e, s') => (Raise e, s')
    end.

(** [try: m  except classes as e: handler e]; an exception outside
    [classes] goes on. *)
Definition try_except_of {A} (classes : exn -> bool) (m : Act A) (handler : exn -> Act A)
  : Act A :=
  fun s =>
    match m s with
    | (Ret a, s') => (Ret a, s')
    | (Raise e, s') => if classes e then handler e s' else (Raise e, s')
    end.

(** [except Exception] *)
Definition any_exception (e : exn) : bool := true.

(** [except (json.JSONDecodeError, TypeError)] *)
Definition format_error (e : exn) : bool :=
  String.eqb (exn_class e) "JSONDecodeError" || String.eqb (exn_class e) "TypeError".

Definition lift {A} (o : outcome A) : Act A := fun s => (o, s).

Definition call (ev : auth_event) : Act nat :=
  fun s =>
    (Ret (ticks s),
     {| ticks := S (ticks s); calls := ev :: calls s; credentials := credentials s;
        service := service s; gmail_credentials := gmail_credentials s |}).

Definition get_credentials : Act (option Credentials) := fun s => (Ret (credentials s), s).

Definition set_credentials (c : option Credentials) : Act unit :=
  fun s =>
    (Ret tt,
     {| ticks := ticks s; calls := calls s; credentials := c;
        service := service s; gmail_credentials := gmail_credentials s |}).

Definition the_service : Act (option nat) := fun s => (Ret (service s), s).

Definition set_service (h : option nat) : Act unit :=
  fun s =>
    (Ret tt,
     {| ticks := ticks s; calls := calls s; credentials := credentials s;
        service := h; gmail_credentials := gmail_credentials s |}).

Definition session_credentials : Act (option Stored) :=
  fun s => (Ret (gmail_credentials s), s).

Definition set_session_credentials (v : option Stored) : Act unit :=
  fun s =>
    (Ret tt,
     {| ticks := ticks s; calls := calls s; credentials := credentials s;
        service := service s; gmail_credentials := v |}).

Declare Scope auth_scope.
Delimit Scope auth_scope with auth.
Notation "x <- m ;; k" := (bind m (fun x => k))
  (at level 61, m at next level, right associativity) : auth_scope.
Notation "m ;; k" := (bind m (fun _ => k))
  (at level 61, right associativity) : auth_scope.
Local Open Scope auth_scope.

Definition CLOUD_URI : string := "https://cold-email-automation-webapp.streamlit.app".
Definition LOCAL_URI : string := "http://localhost:8501".

Section Authenticator.

Variable lib : Services.

(** Lines 39-44, 91-96 *)
Definition redirect_uri : string :=
  if is_set (getenv lib "STREAMLIT_SERVER_PORT") then CLOUD_URI else LOCAL_URI.

Definition get_credentials_from_env : outcome ClientConfig :=
  let id := getenv lib "GOOGLE_CLIENT_ID" in
  let secret := getenv lib "GOOGLE_CLIENT_SECRET" in
  match id, secret with
  | Some (String a id'), Some (String b secret') =>
      Ret {| client_id := String a id';
             client_secret := String b secret';
             auth_uri := "https://accounts.google.com/o/oauth2/auth";
             token_uri := "https://oauth2.googleapis.com/token";
             redirect_uris := [redirect_uri] |}
  | _, _ =>
      Raise (Exn "ValueError"
               "GOOGLE_CLIENT_ID and GOOGLE_CLIENT_SECRET must be set in environment")
  end.

(** Lines 78-83 *)
Definition refresh_if_expired (creds : option Credentials) : Act unit :=
  match creds with
  | Some c =>
      if expired c && refresh_token c then
        try_except_of any_exception
          (n <- call EvRefresh ;;
           match refresh lib n c with
           | (c', None) => set_credentials (Some c')
           | (c', Some e) => set_credentials (Some c') ;; raise e
           end)
          (fun _ => set_credentials None)
      else ret tt
  | None => ret tt
  end.

(** Lines 85-123 *)
Definition start_flow : Act bool :=
  client_config <- lift get_credentials_from_env ;;
  let client_config :=
    {| client_id := client_id client_config;
       client_secret := client_secret client_config;
       auth_uri := auth_uri client_config;
       token_uri := token_uri client_config;
       redirect_uris := [redirect_uri] |} in
  n <- call EvFlow ;;
  auth_url <- lift (authorization_url lib n client_config redirect_uri) ;;
  call (EvShowLink auth_url) ;;
  ret false.

Definition authenticate : Act bool :=
  try_except_of any_exception
    (stored <- session_credentials ;;
     match stored with
     | Some creds_data =>
         try_except_of format_error
           (n <- call EvLoad ;;
            c <- lift (load_credentials lib n creds_data) ;;
            set_credentials (Some c))
           (fun _ =>
              set_session_credentials None ;;
              set_credentials None)
     | None => ret tt
     end ;;
     creds <- get_credentials ;;
     if match creds with Some c => negb (valid c) | None => true end then
       refresh_if_expired creds ;;
       creds <- get_credentials ;;
       match creds with
       | None => start_flow
       | Some c =>
           json <- lift (to_json lib c) ;;
           set_session_credentials (Some (StoredText json)) ;;
           ret true
       end
     else ret true)
    (fun _ =>
       set_session_credentials None ;;
       ret false).

Definition get_service : Act (option nat) :=
  creds <- get_credentials ;;
  authenticated <- match creds with
                   | None => authenticate
                   | Some _ => ret true
                   end ;;
  if negb authenticated then ret None
  else
    try_except_of any_exception
      (h <- the_service ;;
       match h with
       | Some h => ret (Some h)
       | None =>
           creds <- get_credentials ;;
           n <- call EvBuild ;;
           h <- lift (build lib n creds) ;;
           set_service (Some h) ;;
           ret (Some h)
       end)
      (fun _ => ret None).

Definition is_authenticated : Act bool :=
  try_except_of any_exception
    (stored <- session_credentials ;;
     match stored with
     | None => ret false
     | Some creds_data =>
         n <- call EvLoad ;;
         c <- lift (load_credentials lib n creds_data) ;;
         set_credentials (Some c) ;;
         go_on <-
           (if negb (valid c) && (expired c && refresh_token c) then
              try_except_of any_exception
                (n <- call EvRefresh ;;
                 match refresh lib n c with
                 | (c', None) =>
                     set_credentials (Some c') ;;
                     json <- lift (to_json lib c') ;;
                     set_session_credentials (Some (StoredText json)) ;;
                     ret true
                 | (c', Some e) => set_credentials (Some c') ;; raise e
                 end)
                (fun _ => ret false)
            else ret true) ;;
         if go_on then
           creds <- get_credentials ;;
           ret match creds with Some c => valid c | None => false end
         else ret false
     end)
    (fun _ => ret false).

Definition get_user_info : Act (option string) :=
  h <- get_service ;;
  match h with
  | None => ret None
  | Some h =>
      try_except_of any_exception
        (n <- call EvProfile ;;
         profile <- lift (get_profile lib n h) ;;
         ret (Some profile))
        (fun _ => ret None)
  end.

Definition logout : Act unit :=
  set_session_credentials None ;;
  set_credentials None ;;
  set_service None.

End Authenticator.

End GmailAuth.

(* ================================================================== *)
(** ** Vocabulary of the properties *)
(* ================================================================== *)

(** The four placeholders of a body and the two a subject knows. *)
Definition placeholders : list string :=
  ["[Company Name]"; "[Recruiter Name]"; "[COMPANY]"; "[RECRUITER]"].

Definition subject_placeholders : list string :=
  ["[Company Name]"; "[Recruiter Name]"].

(** No opening square bracket occurs in [s]. *)
Fixpoint no_open_bracket (s : string) : bool :=
  match s with
  | EmptyString => true
  | String c s' => negb (Ascii.eqb c "[") && no_open_bracket s'
  end.

(** Square brackets do not nest: read from left to right, with [opened]
    telling that a bracket is open, no opening bracket follows another
    one before a closing bracket. *)
Fixpoint flat_from (opened : bool) (s : string) : bool :=
  match s with
  | EmptyString => true
  | String c s' =>
      if Ascii.eqb c "[" then negb opened && flat_from true s'
      else if Ascii.eqb c "]" then flat_from false s'
      else flat_from opened s'
  end.

Definition brackets_flat (s : string) : bool := flat_from false s.

(** [w] is text without brackets followed by one closing bracket. *)
Fixpoint closes (w : string) : bool :=
  match w with
  | EmptyString => false
  | String c w' =>
      match w' with
      | EmptyString => Ascii.eqb c "]"
      | String _ _ => negb (Ascii.eqb c "[") && negb (Ascii.eqb c "]") && closes w'
      end
  end.

(** [t] is a bracketed word, as every placeholder is. *)
Definition bracketed (t : string) : bool :=
  match t with
  | EmptyString => false
  | String c w => Ascii.eqb c "[" && closes w
  end.

(** No placeholder of [tokens] occurs in [s]. *)
Definition free_of (tokens : list string) (s : string) : bool :=
  forallb (fun t => negb (PyStr.contains t s)) tokens.

(** The lengths of the pauses between sends found in a trace. *)
Fixpoint pacing_sleeps (t : list event) : list Z :=
  match t with
  | [] => []
  | EvPacingSleep d :: t' => d :: pacing_sleeps t'
  | _ :: t' => pacing_sleeps t'
  end.

(** The calls made to the content generator. *)
Definition is_generation_event (ev : event) : bool :=
  match ev with
  | EvGenSleep _ | EvGenerate _ | EvExtractResume => true
  | _ => false
  end.

(** The calls made for the mail service. *)
Definition is_mail_event (ev : event) : bool :=
  match ev with
  | EvGetService | EvBuildMessage _ _ _ | EvSend _ => true
  | _ => false
  end.

(** The label is a number below [total_emails - 1] (line 292). *)
Definition before_last (index : label) (total_emails : nat) : bool :=
  match index with
  | LInt i => (i <? Z.of_nat total_emails - 1)%Z
  | LStr _ => false
  end.

(** A result written by the [except] clause of the loop. *)
Definition is_campaign_error (r : CampaignResult) : bool :=
  PyStr.starts_with "Campaign error: " (message r).

(** The progress callback, when there is one, returns. *)
Definition returns_normally
  (progress_callback : option (nat -> CampaignResult -> option exn)) : Prop :=
  forall f, progress_callback = Some f -> forall n r, f n r = None.

(** The index a reader gives a frame: 0, 1, 2, ... *)
Definition default_index (df : DataFrame) : Prop :=
  map fst (df_rows df) = map (fun k => LInt (Z.of_nat k)) (seq 0 (df_len df)).


(** What [send_email] returns: a success or one of two failures. *)
Definition send_outcome (sent : bool * string) : Prop :=
  (fst sent = true /\
   exists id, snd sent = "Email sent successfully (ID: " ++ id ++ ")")
  \/ (fst sent = false /\ snd sent = "Gmail service not available")
  \/ (fst sent = false /\
      exists e, snd sent = "Failed to send email: " ++ exn_str e).


(** The calls made to the content generator so far. *)
Definition generation_calls (s : State) : list event :=
  filter is_generation_event (trace s).

(** The pauses between sends made so far. *)
Definition pacing_of (s : State) : list Z := pacing_sleeps (trace s).


(** [m] does not change what [obs] sees of the state. *)
Definition stable {X A : Type} (obs : State -> X) (m : M A) : Prop :=
  forall s, obs (snd (m s)) = obs s.

(** [obs] does not see the events of the class [P]. *)
Definition ignores {X : Type} (obs : State -> X) (P : event -> bool) : Prop :=
  forall ev s, P ev = true -> obs (record_event ev s) = obs s.

(** The error the loop of lines 50-52 adds for one column, if any. *)
Definition empties (df : DataFrame) (col : string) : list string :=
  match column df col with
  | Some vals => if existsb isna vals then [empty_values_error col] else []
  | None => []
  end.

(** The results handed to the progress callback, latest first. *)
Fixpoint callback_results (t : list event) : list CampaignResult :=
  match t with
  | [] => []
  | EvCallback r :: t' => r :: callback_results t'
  | _ :: t' => callback_results t'
  end.

(** A message was handed to the mail service. *)
Definition is_send_event (ev : event) : bool :=
  match ev with
  | EvSend _ => true
  | _ => false
  end.


(** The number of messages handed to the mail service so far. *)
Definition send_attempts (s : State) : nat :=
  List.length (filter is_send_event (trace s)).

(** [f] does not see the calls to the content generator. *)
Definition blind_to_generation {X : Type} (f : list event -> X) : Prop :=
  forall ev t, is_generation_event ev = true -> f (ev :: t) = f t.

(** [f] does not see the calls for the mail service. *)
Definition blind_to_mail {X : Type} (f : list event -> X) : Prop :=
  forall ev t, is_mail_event ev = true -> f (ev :: t) = f t.

(** A row that can be composed: its label is a position of the frame,
    it has the three cells and its two names are text. *)
Definition composable (n : nat) (entry : label * Row) : Prop :=
  exists i c r e,
    fst entry = LInt i /\ (0 <= i + 1 <= Z.of_nat n)%Z
    /\ row_getitem (snd entry) "Company Name" = Ret (CStr c)
    /\ row_getitem (snd entry) "Recruiter" = Ret (CStr r)
    /\ row_getitem (snd entry) "Email" = Ret e.

(** A row the loop cannot read: its label gives no progress value, or
    one of the three cells is not there. *)
Definition unreadable (n : nat) (entry : label * Row) : Prop :=
  (exists e, show_progress (fst entry) n = Raise e)
  \/ exists key, In key required_columns /\ position key (row_columns (snd entry)) = None.

(** The callback raises [e] whenever it is called. *)
Definition always_raises (e : exn)
  (progress_callback : option (nat -> CampaignResult -> option exn)) : Prop :=
  exists f, progress_callback = Some f /\ forall n r, f n r = Some e.

(** The character [a] occurs in [s]. *)
Fixpoint has_char (a : ascii) (s : string) : bool :=
  match s with
  | EmptyString => false
  | String c s' => Ascii.eqb a c || has_char a s'
  end.

(** One line of the HTML body: a paragraph tag around text that is not
    empty and holds no line break. *)
Definition html_line (p : string) : Prop :=
  exists inner,
    p = P_OPEN ++ inner ++ P_CLOSE
    /\ inner <> EmptyString
    /\ has_char "010" inner = false.

(** The language of a regular expression. *)
Inductive matches : Regex.re -> string -> Prop :=
| MEmpty : matches Regex.Empty EmptyString
| MClass p c : p c = true -> matches (Regex.Class p) (String c EmptyString)
| MSeq r1 r2 s1 s2 :
    matches r1 s1 -> matches r2 s2 -> matches (Regex.Seq r1 r2) (s1 ++ s2)
| MOrL r1 r2 s : matches r1 s -> matches (Regex.Or r1 r2) s
| MOrR r1 r2 s : matches r2 s -> matches (Regex.Or r1 r2) s
| MStarNil r : matches (Regex.Star r) EmptyString
| MStarApp r s1 s2 :
    matches r s1 -> matches (Regex.Star r) s2 -> matches (Regex.Star r) (s1 ++ s2).

(** Every character of [s] is in the class [p]. *)
Fixpoint all_chars (p : ascii -> bool) (s : string) : bool :=
  match s with
  | EmptyString => true
  | String c s' => p c && all_chars p s'
  end.

(** The shape of an address the pattern accepts. *)
Definition address_shape (s : string) : Prop :=
  exists local domain tld ending,
    s = local ++ "@" ++ domain ++ "." ++ tld ++ ending
    /\ 1 <= String.length local /\ all_chars local_char local = true
    /\ 1 <= String.length domain /\ all_chars domain_char domain = true
    /\ 2 <= String.length tld /\ all_chars alpha_char tld = true
    /\ (ending = EmptyString \/ ending = NL).

(** The states a loop goes through: [step entry s r s1] tells what the
    iteration for [entry], started in [s], logged and where it ended. *)
Inductive processed
  (step : label * Row -> State -> CampaignResult -> State -> Prop)
  : list (label * Row) -> State -> list CampaignResult -> State -> Prop :=
| processed_nil s : processed step [] s [] s
| processed_cons entry entries s r s1 rs s' :
    step entry s r s1 ->
    processed step entries s1 rs s' ->
    processed step (entry :: entries) s (r :: rs) s'.

(** From the state [s], the cells of [row] were read, the message was
    composed from them and handed to [send_email], and [r] records what
    [send_email] returned (lines 219-284). *)
Definition send_recorded (world : World) (session_state : SessionState)
  (email_template subject_template : string) (resume_path resume_name : option string)
  (row : Row) (s : State) (r : CampaignResult) : Prop :=
  exists body sent s1 s2,
    row_getitem row "Company Name" = Ret (company r)
    /\ row_getitem row "Recruiter" = Ret (recruiter r)
    /\ row_getitem row "Email" = Ret (email r)
    /\ personalize_body world session_state (company r) (recruiter r) email_template s
       = (Ret body, s1)
    /\ personalize_subject session_state (company r) (recruiter r) subject_template
       = Ret (subject r)
    /\ send_email world (email r) (subject r) body resume_path resume_name s1
       = (Ret sent, s2)
    /\ success r = fst sent
    /\ message r = snd sent
    /\ timestamp r = strftime world (clock s2).

(** From the state [s], the [try] block of the iteration raised, and [r]
    records the exception (lines 295-305). *)
Definition exception_recorded (world : World) (session_state : SessionState)
  (email_template subject_template : string) (resume_path resume_name : option string)
  (delay_seconds : Z) (progress_callback : option (nat -> CampaignResult -> option exn))
  (total_emails : nat) (entry : label * Row) (s : State) (r : CampaignResult) : Prop :=
  exists e s1,
    attempt world session_state email_template subject_template resume_path resume_name
      delay_seconds progress_callback total_emails (fst entry) (snd entry) s
    = (Raise e, s1)
    /\ company r = row_get (snd entry) "Company Name" (CStr "Unknown")
    /\ recruiter r = row_get (snd entry) "Recruiter" (CStr "Unknown")
    /\ email r = row_get (snd entry) "Email" (CStr "Unknown")
    /\ subject r = "Error"
    /\ success r = false
    /\ message r = "Campaign error: " ++ exn_str e
    /\ timestamp r = strftime world (clock s1).

(** What paces a run: a call of [send_email], a pause. *)
Inductive pace_mark : Type :=
| SendCall
| Pause (secs : Z).

(** The calls of [send_email] (each begins by asking for the service
    handle) and the pauses found in a trace, latest first. *)
Fixpoint pace_marks (t : list event) : list pace_mark :=
  match t with
  | [] => []
  | EvGetService :: t' => SendCall :: pace_marks t'
  | EvPacingSleep d :: t' => Pause d :: pace_marks t'
  | _ :: t' => pace_marks t'
  end.



(** One iteration of the loop, told in full: it returns, it adds the one
    result [r] to the log, and [r] records what [send_email] returned or
    the exception the [try] block raised. *)
Definition row_recorded (world : World) (session_state : SessionState)
  (email_template subject_template : string) (resume_path resume_name : option string)
  (delay_seconds : Z) (progress_callback : option (nat -> CampaignResult -> option exn))
  (total_emails : nat) (entry : label * Row) (s : State) (r : CampaignResult)
  (s1 : State) : Prop :=
  iteration world session_state email_template subject_template resume_path resume_name
    delay_seconds progress_callback total_emails entry s = (Ret tt, s1)
  /\ campaign_results s1 = (campaign_results s ++ [r])%list
  /\ ((is_campaign_error r = false
       /\ send_recorded world session_state email_template subject_template
            resume_path resume_name (snd entry) s r)
      \/ (is_campaign_error r = true
          /\ exception_recorded world session_state email_template subject_template
               resume_path resume_name delay_seconds progress_callback total_emails
               entry s r)).

(** The same with what the iteration adds to the trace: the call of
    [send_email], then the pause when the [try] block ended normally
    and the label is below [total_emails - 1]. *)
Definition row_paced (world : World) (session_state : SessionState)
  (email_template subject_template : string) (resume_path resume_name : option string)
  (delay_seconds : Z) (progress_callback : option (nat -> CampaignResult -> option exn))
  (total_emails : nat) (entry : label * Row) (s : State) (r : CampaignResult)
  (s1 : State) : Prop :=
  row_recorded world session_state email_template subject_template resume_path
    resume_name delay_seconds progress_callback total_emails entry s r s1
  /\ pace_marks (trace s1)
     = ((if negb (is_campaign_error r) && before_last (fst entry) total_emails
         then [Pause delay_seconds] else [])
        ++ (if is_campaign_error r then [] else [SendCall])
        ++ pace_marks (trace s))%list.

(** A text cut into pieces: plain text, and the words in square brackets
    that stand for a name. *)
Inductive piece : Type :=
| Plain (text : string)
| Token (name : string).

(** The text the pieces spell. *)
Fixpoint render (pieces : list piece) : string :=
  match pieces with
  | [] => EmptyString
  | Plain text :: rest => text ++ render rest
  | Token name :: rest => name ++ render rest
  end.

(** The same text with [value name] in the place of every token. *)
Fixpoint fill (value : string -> string) (pieces : list piece) : string :=
  match pieces with
  | [] => EmptyString
  | Plain text :: rest => text ++ fill value rest
  | Token name :: rest => value name ++ fill value rest
  end.

(** The plain pieces hold no opening bracket and every token is one of
    the four placeholders. *)
Definition well_marked (pieces : list piece) : bool :=
  forallb (fun p =>
             match p with
             | Plain text => no_open_bracket text
             | Token name => existsb (String.eqb name) placeholders
             end) pieces.

(** What a placeholder stands for in a body, and in a subject. *)
Definition body_value (company_name recruiter_name token : string) : string :=
  if String.eqb token "[Company Name]" then company_name
  else if String.eqb token "[Recruiter Name]" then recruiter_name
  else if String.eqb token "[COMPANY]" then company_name
  else if String.eqb token "[RECRUITER]" then recruiter_name
  else token.

Definition subject_value (company_name recruiter_name token : string) : string :=
  if String.eqb token "[Company Name]" then company_name
  else if String.eqb token "[Recruiter Name]" then recruiter_name
  else token.

(** [body] is [text] after the four replacements, made in the order of
    lines 234-237 and 253-256.  When the names hold no opening bracket,
    this puts the company name in the place of every [[Company Name]]
    and [[COMPANY]] and the recruiter name in the place of every
    [[Recruiter Name]] and [[RECRUITER]] of a text cut into plain pieces
    and placeholders, and it leaves no placeholder in a text whose
    brackets do not nest. *)
Definition body_substituted (company_name recruiter_name text body : string) : Prop :=
  body
  = PyStr.replace
      (PyStr.replace
         (PyStr.replace
            (PyStr.replace text "[Company Name]" company_name)
            "[Recruiter Name]" recruiter_name)
         "[COMPANY]" company_name)
      "[RECRUITER]" recruiter_name
  /\ (no_open_bracket company_name = true ->
      no_open_bracket recruiter_name = true ->
      (forall pieces,
         well_marked pieces = true -> text = render pieces ->
         body = fill (body_value company_name recruiter_name) pieces)
      /\ (brackets_flat text = true -> free_of placeholders body = true)).

(** [subj] is [text] after the two replacements of lines 263-264 and
    267-268: the same for [[Company Name]] and [[Recruiter Name]], while
    [[COMPANY]] and [[RECRUITER]] stay as they are. *)
Definition subject_substituted (company_name recruiter_name text subj : string) : Prop :=
  subj
  = PyStr.replace (PyStr.replace text "[Company Name]" company_name)
      "[Recruiter Name]" recruiter_name
  /\ (no_open_bracket company_name = true ->
      no_open_bracket recruiter_name = true ->
      (forall pieces,
         well_marked pieces = true -> text = render pieces ->
         subj = fill (subject_value company_name recruiter_name) pieces)
      /\ (brackets_flat text = true -> free_of subject_placeholders subj = true)).



(* ================================================================== *)
(** ** Sample data *)
(* ================================================================== *)

Definition sample_columns : list string := ["Company Name"; "Recruiter"; "Email"].

Definition acme_frame : DataFrame :=
  {| df_columns := sample_columns;
     df_rows := [(LInt 0, [CStr "Acme"; CStr "Jane"; CStr "jane@acme.com"])] |}.

Definition blank_email_frame : DataFrame :=
  {| df_columns := sample_columns;
     df_rows := [(LInt 0, [CStr "Acme"; CStr "Jane"; CMissing])] |}.

Definition empty_name_frame : DataFrame :=
  {| df_columns := sample_columns;
     df_rows := [(LInt 0, [CStr ""; CStr "Jane"; CStr "jane@acme.com"])] |}.

Definition no_email_frame : DataFrame :=
  {| df_columns := ["Company Name"; "Recruiter"];
     df_rows := [(LInt 0, [CStr "Acme"; CStr "Jane"])] |}.

Definition header_only_frame : DataFrame :=
  {| df_columns := sample_columns; df_rows := [] |}.

Definition missing_recruiter_frame : DataFrame :=
  {| df_columns := sample_columns;
     df_rows := [(LInt 0, [CStr "Acme"; CMissing; CStr "jane@acme.com"]);
                 (LInt 1, [CStr "Bolt"; CStr "Bob"; CStr "bob@bolt.io"])] |}.

(** A world where the mail service accepts every message and no text
    generator is configured. *)
Definition sample_world : World :=
  {| model_configured := false;
     generate_content := fun _ => GenNothing;
     resume_text := fun _ => "";
     get_service := fun _ => Ret true;
     create_email_message := fun _ _ _ _ _ _ => Ret "raw";
     execute_send := fun _ _ => Ret "id-1";
     strftime := fun _ => "2025-01-01 09:00:00" |}.

(** A world where no mail service handle can be obtained. *)
Definition offline_world : World :=
  {| model_configured := false;
     generate_content := fun _ => GenNothing;
     resume_text := fun _ => "";
     get_service := fun _ => Ret false;
     create_email_message := fun _ _ _ _ _ _ => Ret "raw";
     execute_send := fun _ _ => Ret "id-1";
     strftime := fun _ => "2025-01-01 09:00:00" |}.

(** A world whose text generator answers every prompt with two
    letters. *)
Definition chatty_world : World :=
  {| model_configured := true;
     generate_content := fun _ => GenText "Hi";
     resume_text := fun _ => "";
     get_service := fun _ => Ret true;
     create_email_message := fun _ _ _ _ _ _ => Ret "raw";
     execute_send := fun _ _ => Ret "id-1";
     strftime := fun _ => "2025-01-01 09:00:00" |}.

(** The second option of the mode selector of [app.py]. *)
Definition MANUAL_MODE : string := "✏️ Manual Template".

Definition manual_session : SessionState :=
  {| personalization_mode := Some MANUAL_MODE;
     preview_email_content := None;
     preview_email_subject := None;
     resume_file := None |}.

Definition edited_session : SessionState :=
  {| personalization_mode := Some AI_MODE;
     preview_email_content := Some "Dear [Recruiter Name], I admire [Company Name].";
     preview_email_subject := Some "Joining [Company Name]";
     resume_file := Some "resume.pdf" |}.

Definition two_recipients_frame : DataFrame :=
  {| df_columns := sample_columns;
     df_rows := [(LInt 0, [CStr "Acme"; CStr "Jane"; CStr "jane@acme.com"]);
                 (LInt 1, [CStr "Bolt"; CStr "Bob"; CStr "bob@bolt.io"])] |}.


Definition missing_email_frame : DataFrame :=
  {| df_columns := sample_columns;
     df_rows := [ (LInt 0, [CStr "Acme"; CStr "Jane"; CStr "jane@acme.com"]);
                  (LInt 1, [CStr "Globex"; CStr "Bob"; CMissing]) ] |}.

Definition wide_frame : DataFrame :=
  {| df_columns := ["Role"; "Email"; "Company Name"; "Industry"; "Recruiter"];
     df_rows := [ (LInt 0, [CStr "Engineer"; CStr "jane@acme.com"; CStr "Acme";
                            CMissing; CStr "Jane"]) ] |}.

Definition failing_callback : option (nat -> CampaignResult -> option exn) :=
  Some (fun _ _ => Some (Exn "KeyError" "'company'")).

(** A table whose rows were filtered and kept their labels. *)
Definition filtered_frame : DataFrame :=
  {| df_columns := sample_columns;
     df_rows := [(LInt 5, [CStr "Acme"; CStr "Jane"; CStr "jane@acme.com"])] |}.

Definition fresh_credentials : GmailAuth.Credentials :=
  {| GmailAuth.token := "ya29.a0"; GmailAuth.valid := true;
     GmailAuth.expired := false; GmailAuth.refresh_token := true |}.

(** Credentials without an access token: not valid, not expired. *)
Definition tokenless_credentials : GmailAuth.Credentials :=
  {| GmailAuth.token := ""; GmailAuth.valid := false;
     GmailAuth.expired := false; GmailAuth.refresh_token := true |}.

Definition configured_env : Env :=
  fun var =>
    if String.eqb var "GOOGLE_CLIENT_ID" then Some "id.apps.googleusercontent.com"
    else if String.eqb var "GOOGLE_CLIENT_SECRET" then Some "secret"
    else if String.eqb var "GEMINI_API_KEY" then Some "key"
    else None.

Definition sample_services (loaded : GmailAuth.Credentials) : GmailAuth.Services :=
  {| GmailAuth.getenv := configured_env;
     GmailAuth.load_credentials := fun _ _ => Ret loaded;
     GmailAuth.refresh := fun _ c => (c, None);
     GmailAuth.to_json := fun c => Ret ("{token: " ++ GmailAuth.token c ++ "}");
     GmailAuth.authorization_url := fun _ _ _ => Ret "https://accounts.google.com/o/oauth2/auth";
     GmailAuth.build := fun n _ => Ret n;
     GmailAuth.get_profile := fun _ _ => Ret "jane@gmail.com" |}.


Definition aliases_template : string :=
  "Hi [Recruiter Name] at [Company Name] ([COMPANY], [RECRUITER])".

Definition aliases_pieces : list piece :=
  [Plain "Hi "; Token "[Recruiter Name]"; Plain " at "; Token "[Company Name]";
   Plain " ("; Token "[COMPANY]"; Plain ", "; Token "[RECRUITER]"; Plain ")"].

Definition edited_pieces : list piece :=
  [Plain "Dear "; Token "[Recruiter Name]"; Plain ", I admire ";
   Token "[Company Name]"; Plain "."].

Definition edited_subject_pieces : list piece :=
  [Plain "Joining "; Token "[Company Name]"].

(* ================================================================== *)
(** * Properties *)
(* ================================================================== *)

Example replace_all_occurrences :
  PyStr.replace "Hi [X] and [X]!" "[X]" "you" = "Hi you and you!".
Proof. reflexivity. Qed.

Example replace_is_one_pass :
  PyStr.replace "aaa" "aa" "a" = "aa".
Proof. reflexivity. Qed.

Example replace_empty_old :
  PyStr.replace "abc" "" "-" = "-a-b-c-".
Proof. reflexivity. Qed.

Example strip_both_ends :
  PyStr.strip "  Dear Jane, " = "Dear Jane,".
Proof. reflexivity. Qed.

Example email_match_plain : email_match "jane@acme.com" = true.
Proof. reflexivity. Qed.

Example email_match_no_at : email_match "not-an-email" = false.
Proof. reflexivity. Qed.

Example email_match_short_tld : email_match "a@b.c" = false.
Proof. reflexivity. Qed.

(* ------------------------------------------------------------------ *)
(** ** [str.replace] and brackets *)
(* ------------------------------------------------------------------ *)

Module ReplaceFacts.
Import PyStr.

Lemma replace_scan_skip old new k s :
  replace_scan old new k s = replace_scan old new 0 (drop k s).
Proof.
  revert k; induction s as [|c s IH]; intros [|k]; simpl; auto.
Qed.

Lemma starts_with_length t s :
  starts_with t s = true -> String.length t <= String.length s.
Proof.
  revert s; induction t as [|a t IH]; intros [|b s]; simpl; try lia; try discriminate.
  intros H; apply andb_true_iff in H as [_ H]. apply IH in H. lia.
Qed.

Lemma starts_with_split t s :
  starts_with t s = true -> s = t ++ drop (String.length t) s.
Proof.
  revert s; induction t as [|a t IH]; intros [|b s]; simpl; try discriminate; auto.
  intros H; apply andb_true_iff in H as [Hab H].
  apply Ascii.eqb_eq in Hab; subst b. f_equal. now apply IH.
Qed.

Lemma drop_length_le n s : String.length (drop n s) <= String.length s.
Proof.
  revert s; induction n as [|n IH]; intros [|c s]; simpl; try lia.
  all: try (specialize (IH s); lia).
Qed.

(** The three equations of the scan, for a non-empty [old]. *)
Lemma replace_nil a old new :
  replace EmptyString (String a old) new = EmptyString.
Proof. reflexivity. Qed.

Lemma replace_hit a old new s :
  starts_with (String a old) s = true ->
  replace s (String a old) new
  = new ++ replace (drop (String.length (String a old)) s) (String a old) new.
Proof.
  intros H. destruct s as [|c s]; [discriminate|].
  unfold replace. cbn [replace_scan]. rewrite H.
  rewrite replace_scan_skip. simpl. now rewrite Nat.sub_0_r.
Qed.

Lemma replace_miss a old new c s :
  starts_with (String a old) (String c s) = false ->
  replace (String c s) (String a old) new
  = String c (replace s (String a old) new).
Proof.
  intros H. unfold replace. cbn [replace_scan]. now rewrite H.
Qed.

Lemma flat_from_weaken s : flat_from true s = true -> flat_from false s = true.
Proof.
  induction s as [|c s IH]; simpl; auto.
  destruct (Ascii.eqb c "["); simpl; [discriminate|]. 
  destruct (Ascii.eqb c "]"); auto.
Qed.

Lemma bracketed_inv t :
  bracketed t = true -> exists w, t = String "[" w /\ closes w = true.
Proof.
  destruct t as [|c w]; simpl; [discriminate|].
  intros H; apply andb_true_iff in H as [Hc Hw].
  apply Ascii.eqb_eq in Hc; subst. eauto.
Qed.

Lemma starts_with_lbr w c s :
  Ascii.eqb c "[" = false -> starts_with (String "[" w) (String c s) = false.
Proof.
  intros H; cbn [starts_with]. rewrite Ascii.eqb_sym, H. reflexivity.
Qed.

(** After an opening bracket, the scan copies the text up to the closing
    bracket unchanged. *)
Lemma scan_inside_brackets old new : forall s w,
  closes w = true -> flat_from true s = true ->
  starts_with w (replace s (String "[" old) new) = starts_with w s.
Proof.
  induction s as [|c s IH]; intros w Hw Hs.
  - reflexivity.
  - simpl in Hs. destruct (Ascii.eqb c "[") eqn:Hc; [discriminate|].
    rewrite replace_miss by (now apply starts_with_lbr).
    destruct w as [|b w]; [discriminate|].
    simpl in Hw. destruct w as [|b' w].
    + reflexivity.
    + apply andb_true_iff in Hw as [Hb Hw]. apply andb_true_iff in Hb as [Hb1 Hb2].
      cbn [starts_with]. destruct (Ascii.eqb b c) eqn:Hbc; [|reflexivity].
      apply Ascii.eqb_eq in Hbc; subst c. simpl.
      apply negb_true_iff in Hb2. rewrite Hb2 in Hs. 
      apply (IH (String b' w)); auto.
Qed.

Lemma contains_after_new t new x :
  no_open_bracket new = true ->
  contains (String "[" t) (new ++ x) = contains (String "[" t) x.
Proof.
  induction new as [|c new IH]; intros H; [reflexivity|].
  simpl in H. apply andb_true_iff in H as [Hc H]. apply negb_true_iff in Hc.
  change (String c new ++ x) with (String c (new ++ x)).
  cbn [contains]. rewrite starts_with_lbr by assumption. simpl. auto.
Qed.

Lemma flat_after_new new x :
  no_open_bracket new = true -> flat_from false x = true ->
  flat_from false (new ++ x) = true.
Proof.
  induction new as [|c new IH]; intros H Hx; [assumption|].
  simpl in H. apply andb_true_iff in H as [Hc H]. apply negb_true_iff in Hc.
  simpl. rewrite Hc. destruct (Ascii.eqb c "]"); auto.
Qed.

Lemma flat_closes w : forall b x,
  closes w = true -> flat_from b (w ++ x) = flat_from false x.
Proof.
  induction w as [|c w IH]; intros b x Hw; [discriminate|].
  simpl in Hw. destruct w as [|c' w].
  - apply Ascii.eqb_eq in Hw; subst c. reflexivity.
  - apply andb_true_iff in Hw as [Hb Hw]. apply andb_true_iff in Hb as [Hb1 Hb2].
    apply negb_true_iff in Hb1, Hb2.
    change (String c (String c' w) ++ x) with (String c (String c' w ++ x)).
    cbn [flat_from]. rewrite Hb1, Hb2. now apply IH.
Qed.

Lemma flat_bracketed t b x :
  bracketed t = true -> flat_from b (t ++ x) = negb b && flat_from false x.
Proof.
  intros H. apply bracketed_inv in H as (w & -> & Hw).
  simpl. f_equal. now apply flat_closes.
Qed.

Lemma contains_tail t c s : contains t (String c s) = false -> contains t s = false.
Proof.
  simpl. intros H. apply orb_false_iff in H as [_ H]. exact H.
Qed.

Lemma contains_drop t n : forall s, contains t s = false -> contains t (drop n s) = false.
Proof.
  induction n as [|n IH]; intros [|c s] H; simpl; auto.
  apply IH. eapply contains_tail; eauto.
Qed.

Lemma contains_prefix t s : contains t s = false -> starts_with t s = false.
Proof.
  destruct s; simpl; intros H; apply orb_false_iff in H as [H _]; exact H.
Qed.

Section OneReplacement.

Variables (old new : string).
Hypothesis old_bracketed : bracketed old = true.
Hypothesis new_plain : no_open_bracket new = true.

(** Replacing a placeholder by a name keeps the brackets flat. *)
Lemma replace_flat : forall n s b,
  String.length s <= n -> flat_from b s = true ->
  flat_from b (replace s old new) = true.
Proof.
  destruct (bracketed_inv _ old_bracketed) as (w & Hold & Hw).
  induction n as [|n IH]; intros s b Hn Hs.
  - destruct s; [|simpl in Hn; lia]. subst old. reflexivity.
  - destruct s as [|c s]; [subst old; reflexivity|].
    destruct (starts_with old (String c s)) eqn:Hhit.
    + pose proof (starts_with_split _ _ Hhit) as Hsplit.
      rewrite Hsplit in Hs. rewrite flat_bracketed in Hs by assumption.
      apply andb_true_iff in Hs as [Hb Hs]. apply negb_true_iff in Hb; subst b.
      subst old. rewrite replace_hit by assumption.
      apply flat_after_new; [assumption|]. apply IH; [|assumption].
      simpl. simpl in Hn. pose proof (drop_length_le (String.length w) s). lia.
    + subst old. rewrite replace_miss by assumption.
      simpl in Hs |- *. simpl in Hn.
      destruct (Ascii.eqb c "[").
      * apply andb_true_iff in Hs as [Hb Hs]. rewrite Hb. simpl. apply IH; [lia|assumption].
      * destruct (Ascii.eqb c "]"); apply IH; auto; lia.
Qed.

(** A placeholder that does not occur, or the one being replaced, does
    not occur in the result. *)
Lemma replace_clears t : forall n s,
  String.length s <= n ->
  bracketed t = true -> flat_from false s = true ->
  (t = old \/ contains t s = false) ->
  contains t (replace s old new) = false.
Proof.
  intros n s Hn Ht; revert s Hn.
  destruct (bracketed_inv _ old_bracketed) as (w & Hold & Hw).
  destruct (bracketed_inv _ Ht) as (u & Htu & Hu).
  induction n as [|n IH]; intros s Hn Hs Hocc.
  - destruct s; [|simpl in Hn; lia]. subst old t. reflexivity.
  - destruct s as [|c s]; [subst old t; reflexivity|].
    destruct (starts_with old (String c s)) eqn:Hhit.
    + pose proof (starts_with_split _ _ Hhit) as Hsplit.
      rewrite Hsplit in Hs. rewrite flat_bracketed in Hs by assumption.
      simpl in Hs.
      rewrite Hold in Hhit |- *. rewrite replace_hit by assumption.
      rewrite Htu. rewrite contains_after_new by assumption. rewrite <- Htu, <- Hold.
      apply IH.
      * rewrite Hold. simpl. simpl in Hn. pose proof (drop_length_le (String.length w) s). lia.
      * assumption.
      * destruct Hocc as [Hocc|Hocc]; [now left|right].
        now apply contains_drop.
    + rewrite Hold in Hhit |- *. rewrite replace_miss by assumption. rewrite <- Hold in *.
      cbn [contains]. apply orb_false_iff. split.
      * rewrite Htu. destruct (Ascii.eqb c "[") eqn:Hc.
        -- apply Ascii.eqb_eq in Hc; subst c.
           cbn [starts_with]. rewrite Ascii.eqb_refl. simpl.
           rewrite Hold. rewrite scan_inside_brackets by (assumption || exact Hs).
           destruct Hocc as [Hocc|Hocc].
           ++ rewrite Hocc, Hold in Htu. injection Htu as <-.
              rewrite Hold in Hhit. cbn [starts_with] in Hhit.
              rewrite Ascii.eqb_refl in Hhit. exact Hhit.
           ++ apply contains_prefix in Hocc. rewrite Htu in Hocc.
              cbn [starts_with] in Hocc. rewrite Ascii.eqb_refl in Hocc. exact Hocc.
        -- now apply starts_with_lbr.
      * apply IH.
        -- simpl in Hn; lia.
        -- cbn [flat_from] in Hs. destruct (Ascii.eqb c "[").
           ++ simpl in Hs. now apply flat_from_weaken.
           ++ destruct (Ascii.eqb c "]"); assumption.
        -- destruct Hocc as [Hocc|Hocc]; [now left|right].
           eapply contains_tail; eauto.
Qed.

End OneReplacement.

End ReplaceFacts.

(* ------------------------------------------------------------------ *)
(** ** Placeholder substitution *)
(* ------------------------------------------------------------------ *)

Section Substitution.

Variables (company_name recruiter_name : string).
Hypothesis company_plain : no_open_bracket company_name = true.
Hypothesis recruiter_plain : no_open_bracket recruiter_name = true.

Import PyStr ReplaceFacts.

Lemma replace_keeps_flat old new s :
  bracketed old = true -> no_open_bracket new = true ->
  brackets_flat s = true -> brackets_flat (replace s old new) = true.
Proof.
  intros Ho Hn Hs. unfold brackets_flat. eapply replace_flat; eauto.
Qed.

Lemma replace_removes old new s :
  bracketed old = true -> no_open_bracket new = true ->
  brackets_flat s = true -> contains old (replace s old new) = false.
Proof.
  intros Ho Hn Hs. eapply replace_clears; eauto.
Qed.

Lemma replace_keeps_absent t old new s :
  bracketed old = true -> no_open_bracket new = true -> bracketed t = true ->
  brackets_flat s = true -> contains t s = false ->
  contains t (replace s old new) = false.
Proof.
  intros Ho Hn Ht Hs Hc. eapply replace_clears; eauto.
Qed.

(** The four replacements of a body leave no placeholder. *)
Lemma body_free_of_placeholders text :
  brackets_flat text = true ->
  exists body,
    replace_placeholders text (CStr company_name) (CStr recruiter_name) = Ret body
    /\ free_of placeholders body = true.
Proof.
  intros Hflat. eexists; split; [reflexivity|].
  set (t1 := replace text "[Company Name]" company_name).
  set (t2 := replace t1 "[Recruiter Name]" recruiter_name).
  set (t3 := replace t2 "[COMPANY]" company_name).
  assert (F1 : brackets_flat t1 = true) by (apply replace_keeps_flat; auto).
  assert (F2 : brackets_flat t2 = true) by (apply replace_keeps_flat; auto).
  assert (F3 : brackets_flat t3 = true) by (apply replace_keeps_flat; auto).
  assert (A1 : contains "[Company Name]" t1 = false) by (apply replace_removes; auto).
  assert (A2 : contains "[Company Name]" t2 = false) by (apply replace_keeps_absent; auto).
  assert (B2 : contains "[Recruiter Name]" t2 = false) by (apply replace_removes; auto).
  assert (A3 : contains "[Company Name]" t3 = false) by (apply replace_keeps_absent; auto).
  assert (B3 : contains "[Recruiter Name]" t3 = false) by (apply replace_keeps_absent; auto).
  assert (C3 : contains "[COMPANY]" t3 = false) by (apply replace_removes; auto).
  unfold free_of, placeholders. cbn [forallb].
  rewrite (replace_keeps_absent "[Company Name]"), (replace_keeps_absent "[Recruiter Name]"),
    (replace_keeps_absent "[COMPANY]"), replace_removes; auto.
Qed.

Lemma subject_free_of_placeholders text :
  brackets_flat text = true ->
  exists subj,
    replace_subject_placeholders text (CStr company_name) (CStr recruiter_name) = Ret subj
    /\ free_of subject_placeholders subj = true.
Proof.
  intros Hflat. eexists; split; [reflexivity|].
  set (t1 := replace text "[Company Name]" company_name).
  assert (F1 : brackets_flat t1 = true) by (apply replace_keeps_flat; auto).
  assert (A1 : contains "[Company Name]" t1 = false) by (apply replace_removes; auto).
  unfold free_of, subject_placeholders. cbn [forallb].
  rewrite (replace_keeps_absent "[Company Name]"), replace_removes; auto.
Qed.

End Substitution.

(* ------------------------------------------------------------------ *)
(** ** Running a computation step by step *)
(* ------------------------------------------------------------------ *)

Lemma bind_returns {A B} (m : M A) (k : A -> M B) s b s' :
  bind m k s = (Ret b, s') ->
  exists a s1, m s = (Ret a, s1) /\ k a s1 = (Ret b, s').
Proof.
  unfold bind. destruct (m s) as [[a|e] s1]; intros H.
  - eauto.
  - discriminate.
Qed.

Lemma bind_raises {A B} (m : M A) (k : A -> M B) s e s' :
  bind m k s = (Raise e, s') ->
  m s = (Raise e, s') \/ exists a s1, m s = (Ret a, s1) /\ k a s1 = (Raise e, s').
Proof.
  unfold bind. destruct (m s) as [[a|e0] s1]; intros H.
  - right; eauto.
  - left. injection H as -> ->. reflexivity.
Qed.

Lemma lift_returns {A} (o : outcome A) s a s' :
  lift o s = (Ret a, s') -> o = Ret a /\ s' = s.
Proof. unfold lift; intros H; injection H as -> ->; auto. Qed.

Lemma lift_raises {A} (o : outcome A) s e s' :
  lift o s = (Raise e, s') -> o = Raise e /\ s' = s.
Proof. unfold lift; intros H; injection H as -> ->; auto. Qed.

(* ------------------------------------------------------------------ *)
(** ** What a computation leaves unchanged *)
(* ------------------------------------------------------------------ *)

Section Stable.

Context {X : Type} (obs : State -> X).

Lemma stable_ret {A} (a : A) : stable obs (ret a).
Proof. intros s; reflexivity. Qed.

Lemma stable_raise {A} e : stable obs (@raise A e).
Proof. intros s; reflexivity. Qed.

Lemma stable_lift {A} (o : outcome A) : stable obs (lift o).
Proof. intros s; reflexivity. Qed.

Lemma stable_now w : stable obs (now w).
Proof. intros s; reflexivity. Qed.

Lemma stable_bind {A B} (m : M A) (k : A -> M B) :
  stable obs m -> (forall a, stable obs (k a)) -> stable obs (bind m k).
Proof.
  intros Hm Hk s. unfold bind. specialize (Hm s).
  destruct (m s) as [[a|e] s1]; simpl in *.
  - rewrite Hk. exact Hm.
  - exact Hm.
Qed.

Lemma stable_try {A} (m : M A) (h : exn -> M A) :
  stable obs m -> (forall e, stable obs (h e)) -> stable obs (try_except m h).
Proof.
  intros Hm Hh s. unfold try_except. specialize (Hm s).
  destruct (m s) as [[a|e] s1]; simpl in *.
  - exact Hm.
  - rewrite Hh. exact Hm.
Qed.

Lemma stable_call P ev : ignores obs P -> P ev = true -> stable obs (call ev).
Proof. intros HP Hev s. simpl. now apply HP. Qed.


End Stable.

(** Goes through a computation built from the monad's operations. *)
Ltac stable_steps :=
  repeat first
    [ apply stable_ret | apply stable_raise | apply stable_lift | apply stable_now
    | apply stable_bind; [ | intro ]
    | apply stable_try; [ | intro ]
    | eapply stable_call; [ eassumption | reflexivity ]
    | match goal with
      | |- stable _ (match ?x with _ => _ end) => destruct x
      end ].

Section StableEngine.

Context {X : Type} (obs : State -> X).
Variable world : World.

Lemma stable_generate why :
  ignores obs is_generation_event -> stable obs (generate world why).
Proof. intros H. unfold generate. stable_steps. Qed.

Lemma stable_get_company_info c :
  ignores obs is_generation_event -> stable obs (get_company_info world c).
Proof.
  intros H. unfold get_company_info. stable_steps; apply stable_generate; auto.
Qed.

Lemma stable_personalize_email c r tpl resume :
  ignores obs is_generation_event ->
  stable obs (personalize_email world c r tpl resume).
Proof.
  intros H. unfold personalize_email.
  stable_steps; first [apply stable_get_company_info | apply stable_generate]; auto.
Qed.

Lemma stable_personalize_body session c r tpl :
  ignores obs is_generation_event ->
  stable obs (personalize_body world session c r tpl).
Proof.
  intros H. unfold personalize_body, extract_resume_content.
  stable_steps; apply stable_personalize_email; auto.
Qed.

Lemma stable_send_email to subj body path name :
  ignores obs is_mail_event ->
  stable obs (send_email world to subj body path name).
Proof. intros H. unfold send_email. stable_steps. Qed.

End StableEngine.

(* ------------------------------------------------------------------ *)
(** ** [send_email] *)
(* ------------------------------------------------------------------ *)

Section SendEmail.

Variable world : World.
Variables (to_email : cell) (subj body : string) (path name : option string).

(** What [send_email] returns, case by case. *)
Lemma send_email_cases s :
  exists ok msg s',
    send_email world to_email subj body path name s = (Ret (ok, msg), s')
    /\ (get_service world (clock s) = Ret false ->
        ok = false /\ msg = "Gmail service not available"
        /\ trace s' = EvGetService :: trace s)
    /\ (forall e, get_service world (clock s) = Raise e ->
        ok = false /\ msg = "Failed to send email: " ++ exn_str e)
    /\ (get_service world (clock s) = Ret true ->
        forall e,
          create_email_message world (S (clock s)) to_email subj body path name = Raise e ->
          ok = false /\ msg = "Failed to send email: " ++ exn_str e)
    /\ (get_service world (clock s) = Ret true ->
        forall raw,
          create_email_message world (S (clock s)) to_email subj body path name = Ret raw ->
          (forall e, execute_send world (S (S (clock s))) raw = Raise e ->
             ok = false /\ msg = "Failed to send email: " ++ exn_str e)
          /\ (forall id, execute_send world (S (S (clock s))) raw = Ret id ->
             ok = true /\ msg = "Email sent successfully (ID: " ++ id ++ ")")).
Proof.
  unfold send_email, try_except, bind, call, lift, ret, record_event.
  cbn [clock trace campaign_results].
  destruct (get_service world (clock s)) as [[|]|e0] eqn:Hsvc;
    cbn [negb clock trace campaign_results].
  - destruct (create_email_message world (S (clock s)) to_email subj body path name)
      as [raw|e1] eqn:Hbuild; cbn [clock trace campaign_results].
    + destruct (execute_send world (S (S (clock s))) raw) as [id|e2] eqn:Hexec.
      * do 3 eexists. split; [reflexivity|].
        repeat split; try discriminate; intros.
        all: try congruence.
        all: assert (raw0 = raw) by congruence; subst; congruence.
      * do 3 eexists. split; [reflexivity|].
        repeat split; try discriminate; intros.
        all: try congruence.
        all: assert (raw0 = raw) by congruence; subst; congruence.
    + do 3 eexists. split; [reflexivity|].
      repeat split; try discriminate; intros; congruence.
  - do 3 eexists. split; [reflexivity|].
    repeat split; try discriminate; intros; congruence.
  - do 3 eexists. split; [reflexivity|].
    repeat split; try discriminate; intros; congruence.
Qed.

Lemma send_email_returns s :
  exists sent s',
    send_email world to_email subj body path name s = (Ret sent, s')
    /\ send_outcome sent.
Proof.
  destruct (send_email_cases s) as (ok & msg & s' & Hrun & Hnone & Hsvc & Hbuild & Hexec).
  exists (ok, msg), s'. split; [exact Hrun|]. unfold send_outcome; simpl.
  destruct (get_service world (clock s)) as [[|]|e0] eqn:Es.
  - destruct (create_email_message world (S (clock s)) to_email subj body path name)
      as [raw|e1] eqn:Eb.
    + destruct (Hexec eq_refl raw eq_refl) as [Hr Hi].
      destruct (execute_send world (S (S (clock s))) raw) as [id|e2] eqn:Ex.
      * left. destruct (Hi id eq_refl) as [-> ->].
        split; [reflexivity | eexists; reflexivity].
      * right; right. destruct (Hr e2 eq_refl) as [-> ->].
        split; [reflexivity | eexists; reflexivity].
    + right; right. destruct (Hbuild eq_refl e1 eq_refl) as [-> ->].
      split; [reflexivity | eexists; reflexivity].
  - right; left. destruct (Hnone eq_refl) as (-> & -> & _). auto.
  - right; right. destruct (Hsvc e0 eq_refl) as [-> ->].
    split; [reflexivity | eexists; reflexivity].
Qed.

End SendEmail.

(* ------------------------------------------------------------------ *)
(** ** One iteration of the campaign loop *)
(* ------------------------------------------------------------------ *)

Lemma log_ignores P : ignores campaign_results P.
Proof. intros ev s _. reflexivity. Qed.

Lemma pacing_ignores_generation : ignores pacing_of is_generation_event.
Proof. intros [] s H; try discriminate; reflexivity. Qed.

Lemma pacing_ignores_mail : ignores pacing_of is_mail_event.
Proof. intros [] s H; try discriminate; reflexivity. Qed.


Lemma show_progress_returns index n i :
  show_progress index n = Ret i -> index = LInt i.
Proof.
  unfold show_progress. destruct index as [j|]; [|discriminate].
  destruct (_ && _); [|discriminate]. now intros [= ->].
Qed.

Section Iteration.

Variable world : World.
Variable session_state : SessionState.
Variables (email_template subject_template : string).
Variables (resume_path resume_name : option string).
Variable delay_seconds : Z.
Variable progress_callback : option (nat -> CampaignResult -> option exn).

Hypothesis callback_returns : returns_normally progress_callback.
Hypothesis delay_nonneg : (0 <= delay_seconds)%Z.

Let attempt' := attempt world session_state email_template subject_template
                  resume_path resume_name delay_seconds progress_callback.
Let iteration' := iteration world session_state email_template subject_template
                    resume_path resume_name delay_seconds progress_callback.


Lemma pacing_sleep_returns s :
  pacing_sleep delay_seconds s = (Ret tt, record_event (EvPacingSleep delay_seconds) s).
Proof.
  unfold pacing_sleep. destruct (Z.ltb_spec delay_seconds 0); [lia|]. reflexivity.
Qed.





End Iteration.


(* ------------------------------------------------------------------ *)
(** ** [validate_company_data] *)
(* ------------------------------------------------------------------ *)

Lemma has_column_column df col :
  has_column df col = match column df col with Some _ => true | None => false end.
Proof. unfold has_column, column. now destruct (position col (df_columns df)). Qed.

Lemma check_empty_column_empties df errors col :
  check_empty_column df errors col = (errors ++ empties df col)%list.
Proof.
  unfold check_empty_column, empties.
  destruct (column df col) as [vals|]; [destruct (existsb isna vals)|];
    now rewrite ?app_nil_r.
Qed.

(** The error list of a validation that returns: the error about missing
    columns, the errors about empty values in column order, the error
    about e-mail addresses. *)
Lemma validate_returns df ok errs :
  validate_company_data df = Ret (ok, errs) ->
  exists invalid,
    errs = (check_required df [] ++ empties df "Company Name"
              ++ empties df "Recruiter" ++ empties df "Email" ++ invalid)%list
    /\ (invalid = [] \/ exists n, invalid = [invalid_emails_error n])
    /\ ok = Nat.eqb (List.length errs) 0.
Proof.
  unfold validate_company_data, required_columns. cbn [fold_left].
  rewrite !check_empty_column_empties, <- !app_assoc.
  unfold check_emails.
  destruct (column df "Email") as [vals|].
  - destruct (str_accessor_ok vals); [|discriminate].
    destruct (filter _ vals) as [|c l].
    + intros [= <- <-]. exists []. rewrite !app_nil_r. auto.
    + intros [= <- <-]. eexists. rewrite <- !app_assoc. split; [reflexivity|]. split; eauto.
  - intros [= <- <-]. exists []. rewrite !app_nil_r. auto.
Qed.


Lemma eqb_length_nil {A} (l : list A) : Nat.eqb (List.length l) 0 = true <-> l = [].
Proof. destruct l; simpl; split; intros; congruence. Qed.


Lemma validate_well_formed df :
  (forall col, In col required_columns ->
     exists vals, column df col = Some vals /\ existsb isna vals = false) ->
  (forall vals, column df "Email" = Some vals ->
     Forall (fun c => exists s, c = CStr s /\ email_match s = true) vals) ->
  validate_company_data df = Ret (true, []).
Proof.
  intros Hcols Hemails.
  assert (Hreq : check_required df [] = []).
  { unfold check_required, required_columns. cbn [filter].
    rewrite !has_column_column.
    destruct (Hcols "Company Name") as (? & -> & _); [simpl; tauto|].
    destruct (Hcols "Recruiter") as (? & -> & _); [simpl; tauto|].
    destruct (Hcols "Email") as (? & -> & _); [simpl; tauto|]. reflexivity. }
  assert (Hemp : forall col, In col required_columns -> empties df col = []).
  { intros col Hin. unfold empties. destruct (Hcols col Hin) as (vals & -> & ->). reflexivity. }
  unfold validate_company_data, required_columns. cbn [fold_left].
  rewrite !check_empty_column_empties, Hreq.
  rewrite !Hemp by (simpl; tauto). cbn [app].
  unfold check_emails.
  destruct (Hcols "Email") as (vals & Hcol & _); [simpl; tauto|].
  rewrite Hcol. specialize (Hemails vals Hcol).
  assert (Hok : str_accessor_ok vals = true).
  { destruct Hemails as [|c l (s & -> & _) _]; reflexivity. }
  assert (Hnone : filter (fun c => negb (str_match_na_false c)) vals = []).
  { clear Hcol Hok.
    induction Hemails as [|c l (s & -> & Hs) _ IH]; [reflexivity|].
    cbn [filter str_match_na_false]. rewrite Hs. exact IH. }
  rewrite Hok, Hnone. reflexivity.
Qed.

Lemma string_length_app a b : String.length (a ++ b) = String.length a + String.length b.
Proof. induction a as [|c a IH]; simpl; auto. Qed.

Lemma string_app_inv_tail a : forall b t, a ++ t = b ++ t -> a = b.
Proof.
  induction a as [|c a IH]; intros [|d b] t H; simpl in H.
  - reflexivity.
  - apply (f_equal String.length) in H. simpl in H. rewrite string_length_app in H. lia.
  - apply (f_equal String.length) in H. simpl in H. rewrite string_length_app in H. lia.
  - injection H as -> H. f_equal. eapply IH; eauto.
Qed.

Lemma empty_values_error_inj c col :
  empty_values_error c = empty_values_error col -> c = col.
Proof.
  unfold empty_values_error. intros H.
  change ("Column '" ++ c ++ "' contains empty values")
    with (String "C" (String "o" (String "l" (String "u" (String "m" (String "n"
           (String " " (String "'" (c ++ "' contains empty values"))))))))) in H.
  change ("Column '" ++ col ++ "' contains empty values")
    with (String "C" (String "o" (String "l" (String "u" (String "m" (String "n"
           (String " " (String "'" (col ++ "' contains empty values"))))))))) in H.
  injection H as H. eapply string_app_inv_tail; eauto.
Qed.

Lemma count_empties df c col :
  count_occ string_dec (empties df c) (empty_values_error col)
  = if String.eqb c col then List.length (empties df c) else 0.
Proof.
  unfold empties.
  destruct (column df c) as [vals|]; [destruct (existsb isna vals)|];
    cbn [count_occ List.length]; try (now destruct (String.eqb c col)).
  destruct (string_dec (empty_values_error c) (empty_values_error col)) as [E|E].
  - apply empty_values_error_inj in E. subst. now rewrite String.eqb_refl.
  - destruct (String.eqb_spec c col); [subst; congruence | reflexivity].
Qed.

Lemma count_check_required df col :
  count_occ string_dec (check_required df []) (empty_values_error col) = 0.
Proof.
  unfold check_required. destruct (filter _ required_columns); [reflexivity|].
  cbn [app count_occ].
  destruct (string_dec _ _) as [E|E]; [discriminate E | reflexivity].
Qed.

Lemma count_invalid n col :
  count_occ string_dec [invalid_emails_error n] (empty_values_error col) = 0.
Proof.
  cbn [count_occ]. destruct (string_dec _ _) as [E|E]; [discriminate E | reflexivity].
Qed.

Lemma validate_counts_empty_errors df col vals ok errs :
  In col required_columns ->
  column df col = Some vals ->
  validate_company_data df = Ret (ok, errs) ->
  count_occ string_dec errs (empty_values_error col)
  = (if existsb isna vals then 1 else 0)
  /\ (existsb isna vals = true -> ok = false).
Proof.
  intros Hin Hcol Hrun.
  apply validate_returns in Hrun as (invalid & -> & Hinv & ->).
  assert (Hcount :
    count_occ string_dec
      (check_required df [] ++ empties df "Company Name" ++ empties df "Recruiter"
         ++ empties df "Email" ++ invalid) (empty_values_error col)
    = if existsb isna vals then 1 else 0).
  { rewrite !count_occ_app, count_check_required, !count_empties.
    assert (Hi : count_occ string_dec invalid (empty_values_error col) = 0).
    { destruct Hinv as [->|[n ->]]; [reflexivity | apply count_invalid]. }
    rewrite Hi.
    assert (Hlen : List.length (empties df col) = if existsb isna vals then 1 else 0).
    { unfold empties. rewrite Hcol. now destruct (existsb isna vals). }
    destruct Hin as [<-|[<-|[<-|[]]]]; cbn [String.eqb Ascii.eqb Bool.eqb];
      rewrite Hlen; lia. }
  split; [exact Hcount|].
  intros Hna. rewrite Hna in Hcount.
  destruct (check_required df [] ++ _)%list; [discriminate Hcount | reflexivity].
Qed.

(* ------------------------------------------------------------------ *)
(** ** The override of an edited preview *)
(* ------------------------------------------------------------------ *)

Lemma ignores_weaken {X} (obs : State -> X) (P Q : event -> bool) :
  (forall ev, Q ev = true -> P ev = true) -> ignores obs P -> ignores obs Q.
Proof. intros HPQ HP ev s Hev. apply HP, HPQ, Hev. Qed.


Section Override.

Variable world : World.
Variable session_state : SessionState.
Variable edited : string.
Hypothesis ai_mode : selected_mode session_state = AI_MODE.
Hypothesis has_override : preview_email_content session_state = Some edited.

Lemma personalize_body_override c r tpl s :
  personalize_body world session_state c r tpl s
  = (replace_placeholders edited c r, s).
Proof.
  unfold personalize_body. rewrite ai_mode, String.eqb_refl, has_override. reflexivity.
Qed.

Variables (email_template subject_template : string).
Variables (resume_path resume_name : option string).
Variable delay_seconds : Z.
Variable progress_callback : option (nat -> CampaignResult -> option exn).



End Override.

(* ------------------------------------------------------------------ *)
(** ** The fallback of [personalize_email] *)
(* ------------------------------------------------------------------ *)

Lemma replace_absent a old new : forall s,
  PyStr.contains (String a old) s = false ->
  PyStr.replace s (String a old) new = s.
Proof.
  induction s as [|c s IH]; intros H; [reflexivity|].
  rewrite ReplaceFacts.replace_miss by (now apply ReplaceFacts.contains_prefix).
  f_equal. apply IH. eapply ReplaceFacts.contains_tail; eauto.
Qed.

Section Fallback.

Variable world : World.
Variables (company_name recruiter_name base_template resume_summary : string).

Let templated : string :=
  PyStr.replace
    (PyStr.replace
       (PyStr.replace
          (PyStr.replace base_template "[Company Name]" company_name)
          "[Recruiter Name]" recruiter_name)
       "[COMPANY]" company_name)
    "[RECRUITER]" recruiter_name.

Let fallback : string := PyStr.replace templated (NL ++ NL ++ NL) (NL ++ NL).

Lemma templated_eq :
  replace_placeholders base_template (CStr company_name) (CStr recruiter_name)
  = Ret templated.
Proof. reflexivity. Qed.

Lemma fallback_eq :
  _get_fallback_content (CStr company_name) (CStr recruiter_name) base_template
  = Ret fallback.
Proof. reflexivity. Qed.

Lemma get_company_info_returns c s :
  exists t, get_company_info world c s
            = (Ret t, if model_configured world then record_event (EvGenerate Research) s else s).
Proof.
  unfold get_company_info, generate.
  unfold try_except, bind, call, ret, raise.
  destruct (model_configured world).
  - destruct (generate_content world (clock s)) as [e| |[|a t]]; cbn [usable_text];
      eexists; reflexivity.
  - cbn [usable_text]. eexists; reflexivity.
Qed.

Lemma personalize_email_unconfigured s :
  model_configured world = false ->
  personalize_email world (CStr company_name) (CStr recruiter_name)
    base_template resume_summary s = (Ret fallback, s).
Proof.
  intros H. unfold personalize_email. rewrite H. cbn [negb]. 
  rewrite fallback_eq. reflexivity.
Qed.

Lemma personalize_email_configured s :
  model_configured world = true ->
  fst (personalize_email world (CStr company_name) (CStr recruiter_name)
         base_template resume_summary s)
  = match usable_text (generate_content world (2 + clock s)) with
    | Some t => Ret (PyStr.strip t)
    | None => Ret fallback
    end.
Proof.
  intros H. unfold personalize_email. rewrite H. cbn [negb].
  rewrite fallback_eq.
  unfold try_except, bind at 1. unfold call at 1.
  unfold bind at 1.
  destruct (get_company_info_returns (CStr company_name)
              (record_event (EvGenSleep DELAY_SECONDS) s)) as (t & ->).
  rewrite H. unfold generate. unfold bind, call, lift, ret, raise, record_event.
  cbn [clock trace campaign_results Nat.add].
  destruct (generate_content world (S (S (clock s)))) as [e| |[|a u]];
    cbn [usable_text]; reflexivity.
Qed.

End Fallback.

(* ------------------------------------------------------------------ *)
(** ** The whole run *)
(* ------------------------------------------------------------------ *)

Lemma iterrows_length df : List.length (iterrows df) = df_len df.
Proof. unfold iterrows, df_len. apply length_map. Qed.

Lemma iterrows_labels df : map fst (iterrows df) = map fst (df_rows df).
Proof. unfold iterrows. rewrite map_map. reflexivity. Qed.



Section Run.

Variable world : World.
Variable session_state : SessionState.
Variables (email_template subject_template : string).
Variables (resume_path resume_name : option string).
Variable delay_seconds : Z.
Variable progress_callback : option (nat -> CampaignResult -> option exn).

Hypothesis callback_returns : returns_normally progress_callback.
Hypothesis delay_nonneg : (0 <= delay_seconds)%Z.


End Run.

(* ------------------------------------------------------------------ *)
(** ** The scenarios of the specification, run on the model *)
(* ------------------------------------------------------------------ *)

Example templated_body_scenario :
  fst (personalize_body sample_world manual_session (CStr "Acme") (CStr "Jane")
         "Hi [Recruiter Name] at [Company Name]" initial_state)
  = Ret "Hi Jane at Acme".
Proof. reflexivity. Qed.

Example invalid_email_scenario :
  validate_company_data
    {| df_columns := sample_columns;
       df_rows := [(LInt 0, [CStr "Acme"; CStr "Jane"; CStr "not-an-email"])] |}
  = Ret (false, ["Invalid email addresses found: 1 rows"]).
Proof. reflexivity. Qed.

Example two_recipients_pause_once :
  pacing_of
    (snd (run_campaign sample_world manual_session
            "Hi [Recruiter Name] at [Company Name]" "Joining [Company Name]"
            None None 60 None two_recipients_frame initial_state))
  = [60%Z].
Proof. reflexivity. Qed.

(** When the mail service is not available every send fails, and the run
    still goes through every recipient. *)
Example every_send_fails_scenario :
  get_campaign_summary
    (snd (run_campaign offline_world manual_session "Hi [Recruiter Name] at [Company Name]"
            "Joining [Company Name]" None None 60 None two_recipients_frame
            initial_state))
  = {| total := 2; successful := 0; failed := 2 |}.
Proof. reflexivity. Qed.

(** A progress callback that raises is outside what the loop expects:
    the result is already in the log when the [except] clause adds its
    own. *)
Example raising_callback_logs_twice :
  List.length
    (campaign_results
       (snd (run_campaign sample_world manual_session
               "Hi [Recruiter Name] at [Company Name]" "Joining [Company Name]"
               None None 60
               (Some (fun _ _ => Some (Exn "RuntimeError" "display failed")))
               acme_frame initial_state)))
  = 2.
Proof. reflexivity. Qed.

(** A reply of blanks is not empty, and gives an empty body. *)
Example blank_reply_gives_empty_body :
  fst (personalize_email
         {| model_configured := true;
            generate_content := fun _ => GenText "  ";
            resume_text := fun _ => "";
            get_service := fun _ => Ret true;
            create_email_message := fun _ _ _ _ _ _ => Ret "raw";
            execute_send := fun _ _ => Ret "id-1";
            strftime := fun _ => "2025-01-01 09:00:00" |}
         (CStr "Acme") (CStr "Jane") "Hello [Recruiter Name]" "" initial_state)
  = Ret "".
Proof. reflexivity. Qed.

(* ------------------------------------------------------------------ *)
(** ** What an iteration does to the outside world *)
(* ------------------------------------------------------------------ *)

Lemma blind_ignores_generation {X} (f : list event -> X) :
  blind_to_generation f -> ignores (fun s => f (trace s)) is_generation_event.
Proof. intros H ev s Hev. cbn [record_event trace]. now apply H. Qed.

Lemma blind_ignores_mail {X} (f : list event -> X) :
  blind_to_mail f -> ignores (fun s => f (trace s)) is_mail_event.
Proof. intros H ev s Hev. cbn [record_event trace]. now apply H. Qed.

(** The trace [send_email] leaves: the request for a service handle,
    then the message built, then the message sent; only a message that
    was sent can be a success. *)
Lemma send_email_trace world to_email subj body path name s :
  exists sent s',
    send_email world to_email subj body path name s = (Ret sent, s')
    /\ campaign_results s' = campaign_results s
    /\ ((fst sent = false /\ trace s' = EvGetService :: trace s)
        \/ (fst sent = false
            /\ trace s' = EvBuildMessage to_email subj body :: EvGetService :: trace s)
        \/ (exists raw,
              trace s' = EvSend raw :: EvBuildMessage to_email subj body
                           :: EvGetService :: trace s)).
Proof.
  unfold send_email, try_except, bind, call, lift, ret, record_event.
  cbn [clock trace campaign_results].
  destruct (get_service world (clock s)) as [[|]|e0];
    cbn [negb clock trace campaign_results].
  - destruct (create_email_message world (S (clock s)) to_email subj body path name)
      as [raw|e1]; cbn [clock trace campaign_results].
    + destruct (execute_send world (S (S (clock s))) raw) as [id|e2];
        do 2 eexists; (split; [reflexivity|]); (split; [reflexivity|]);
        right; right; eexists; reflexivity.
    + do 2 eexists. split; [reflexivity|]. split; [reflexivity|].
      right; left. split; reflexivity.
  - do 2 eexists. split; [reflexivity|]. split; [reflexivity|]. left. split; reflexivity.
  - do 2 eexists. split; [reflexivity|]. split; [reflexivity|]. left. split; reflexivity.
Qed.

Lemma notify_trace progress_callback r s :
  returns_normally progress_callback ->
  notify progress_callback r s
  = (Ret tt,
     match progress_callback with
     | Some _ => record_event (EvCallback r) s
     | None => s
     end).
Proof.
  intros Hcb. unfold notify. destruct progress_callback as [f|]; [|reflexivity].
  unfold bind, call. now rewrite (Hcb f eq_refl).
Qed.

Section IterationTrace.

Variable world : World.
Variable session_state : SessionState.
Variables (email_template subject_template : string).
Variables (resume_path resume_name : option string).
Variable delay_seconds : Z.
Variable progress_callback : option (nat -> CampaignResult -> option exn).

Hypothesis callback_returns : returns_normally progress_callback.
Hypothesis delay_nonneg : (0 <= delay_seconds)%Z.

Let attempt' := attempt world session_state email_template subject_template
                  resume_path resume_name delay_seconds progress_callback.
Let iteration' := iteration world session_state email_template subject_template
                    resume_path resume_name delay_seconds progress_callback.

(** The events of an iteration whose [try] block ended normally: the
    composition of the body, the send, the callback, the pause. *)
Lemma attempt_trace n index row s s' :
  attempt' n index row s = (Ret tt, s') ->
  exists r b s1 s2,
    personalize_body world session_state (company r) (recruiter r) email_template s
    = (Ret b, s1)
    /\ send_email world (email r) (subject r) b resume_path resume_name s1
       = (Ret (success r, message r), s2)
    /\ campaign_results s' = (campaign_results s ++ [r])%list
    /\ trace s' =
       ((if before_last index n then [EvPacingSleep delay_seconds] else [])
        ++ (match progress_callback with Some _ => [EvCallback r] | None => [] end)
        ++ trace s2)%list.
Proof.
  unfold attempt', attempt. intros H.
  apply bind_returns in H as (i & s1 & H1 & H).
  apply lift_returns in H1 as [Hi ->]. apply show_progress_returns in Hi as ->.
  apply bind_returns in H as (c & s1 & H1 & H). apply lift_returns in H1 as [Hc ->].
  apply bind_returns in H as (r & s1 & H1 & H). apply lift_returns in H1 as [Hr ->].
  apply bind_returns in H as (e & s1 & H1 & H). apply lift_returns in H1 as [He ->].
  apply bind_returns in H as (b & s1 & Hbody & H).
  apply bind_returns in H as (sj & s2 & H1 & H). apply lift_returns in H1 as [Hsj ->].
  apply bind_returns in H as ([ok msg] & s2 & Hsend & H).
  apply bind_returns in H as (ts & s3 & Hnow & H).
  injection Hnow as <- <-.
  apply bind_returns in H as ([] & s3 & Happ & H).
  injection Happ as <-.
  apply bind_returns in H as ([] & s4 & Hnote & H).
  rewrite notify_trace in Hnote by assumption. injection Hnote as <-.
  pose proof (stable_send_email campaign_results world e sj b resume_path resume_name
                (log_ignores _) s1) as L2.
  pose proof (stable_personalize_body campaign_results world session_state c r
                email_template (log_ignores _) s) as L1.
  rewrite Hbody in L1. rewrite Hsend in L2. cbn [snd] in L1, L2.
  eexists {| company := c; recruiter := r; email := e; subject := sj;
             success := ok; message := msg; timestamp := _ |}, b, s1, s2.
  cbn [company recruiter email subject success message fst snd] in *.
  split; [exact Hbody|]. split; [exact Hsend|].
  cbn [before_last]. destruct (_ <? _)%Z.
  - rewrite pacing_sleep_returns in H by assumption. injection H as <-.
    destruct progress_callback; cbn [record_event trace campaign_results app];
      (split; [now rewrite L2, L1 | reflexivity]).
  - injection H as <-.
    destruct progress_callback; cbn [record_event trace campaign_results app];
      (split; [now rewrite L2, L1 | reflexivity]).
Qed.

(** When the [try] block raises, only the content generator may have
    been called. *)
Lemma attempt_raises_quietly {X} (obs : State -> X) n index row s e s' :
  ignores obs is_generation_event ->
  attempt' n index row s = (Raise e, s') ->
  obs s' = obs s.
Proof.
  intros Hobs. unfold attempt', attempt. intros H.
  apply bind_raises in H as [H|(i & s1 & H1 & H)];
    [apply lift_raises in H as [_ ->]; auto|].
  apply lift_returns in H1 as [_ ->].
  apply bind_raises in H as [H|(c & s1 & H1 & H)];
    [apply lift_raises in H as [_ ->]; auto|].
  apply lift_returns in H1 as [_ ->].
  apply bind_raises in H as [H|(r & s1 & H1 & H)];
    [apply lift_raises in H as [_ ->]; auto|].
  apply lift_returns in H1 as [_ ->].
  apply bind_raises in H as [H|(em & s1 & H1 & H)];
    [apply lift_raises in H as [_ ->]; auto|].
  apply lift_returns in H1 as [_ ->].
  pose proof (stable_personalize_body obs world session_state c r email_template
                Hobs s) as P1.
  apply bind_raises in H as [H|(b & s1 & Hbody & H)].
  { rewrite H in P1. exact P1. }
  rewrite Hbody in P1. cbn [snd] in P1.
  apply bind_raises in H as [H|(sj & s2 & H1 & H)];
    [apply lift_raises in H as [_ ->]; auto|].
  apply lift_returns in H1 as [_ ->].
  apply bind_raises in H as [H|(sent & s2 & Hsend & H)].
  { destruct (send_email_returns world em sj b resume_path resume_name s1)
      as (? & ? & Hsend' & _). congruence. }
  apply bind_raises in H as [H|(ts & s3 & Hnow & H)]; [discriminate|].
  apply bind_raises in H as [H|([] & s4 & Happ & H)]; [discriminate|].
  apply bind_raises in H as [H|([] & s5 & Hnote & H)].
  { rewrite notify_trace in H by assumption. discriminate. }
  destruct (_ <? _)%Z.
  - rewrite pacing_sleep_returns in H by assumption. discriminate.
  - discriminate.
Qed.

(** What one iteration does, in full: either the [try] block ended
    normally, or the [except] clause logged a campaign error and nothing
    but calls to the content generator happened. *)
Lemma iteration_trace n index row s :
  exists r s',
    iteration' n (index, row) s = (Ret tt, s')
    /\ campaign_results s' = (campaign_results s ++ [r])%list
    /\ ((is_campaign_error r = false
         /\ exists b s1 s2,
              personalize_body world session_state (company r) (recruiter r)
                email_template s = (Ret b, s1)
              /\ send_email world (email r) (subject r) b resume_path resume_name s1
                 = (Ret (success r, message r), s2)
              /\ trace s' =
                 ((if before_last index n then [EvPacingSleep delay_seconds] else [])
                  ++ (match progress_callback with
                      | Some _ => [EvCallback r]
                      | None => []
                      end)
                  ++ trace s2)%list)
        \/ (is_campaign_error r = true /\ success r = false
            /\ forall X (f : list event -> X),
                 blind_to_generation f -> f (trace s') = f (trace s))).
Proof.
  unfold iteration', iteration, try_except. cbn [fst snd]. fold attempt'.
  destruct (attempt' n index row s) as [[[]|e] s1] eqn:Hrun.
  - apply attempt_trace in Hrun as (r & b & s2 & s3 & Hbody & Hsend & Hlog & Htrace).
    exists r, s1. split; [reflexivity|]. split; [exact Hlog|]. left.
    split; [|eauto 6].
    destruct (send_email_returns world (email r) (subject r) b resume_path resume_name s2)
      as (sent & s3' & Hsend' & Hout).
    rewrite Hsend in Hsend'. injection Hsend' as <- <-.
    unfold is_campaign_error.
    destruct Hout as [[_ [id Hm]]|[[_ Hm]|[_ [e Hm]]]];
      cbn [snd] in Hm; rewrite Hm; reflexivity.
  - eexists. eexists. split; [reflexivity|].
    pose proof (attempt_raises_quietly campaign_results n index row s e s1
                  (log_ignores _) Hrun) as Hlog.
    split; [cbn [campaign_results]; now rewrite Hlog|].
    right. split; [reflexivity|]. split; [reflexivity|].
    intros X f Hf. cbn [trace].
    apply (attempt_raises_quietly (fun st => f (trace st)) n index row s e s1);
      [now apply blind_ignores_generation | exact Hrun].
Qed.

End IterationTrace.

Lemma run_unfold world session_state email_template subject_template resume_path
  resume_name delay_seconds progress_callback df s0 rs s' :
  for_each (iterrows df)
    (iteration world session_state email_template subject_template resume_path
       resume_name delay_seconds progress_callback (df_len df))
    {| clock := clock s0; trace := trace s0; campaign_results := [] |}
  = (Ret tt, s') ->
  campaign_results s' = rs ->
  run_campaign world session_state email_template subject_template resume_path
    resume_name delay_seconds progress_callback df s0 = (Ret rs, s').
Proof.
  intros Hloop Hlog. unfold run_campaign, bind, reset_results, get_results.
  rewrite Hloop, Hlog. reflexivity.
Qed.

(* ------------------------------------------------------------------ *)
(** ** A run, row by row *)
(* ------------------------------------------------------------------ *)




Section Steps.

Variable world : World.
Variable session_state : SessionState.
Variables (email_template subject_template : string).
Variables (resume_path resume_name : option string).
Variable delay_seconds : Z.
Variable progress_callback : option (nat -> CampaignResult -> option exn).

Hypothesis callback_returns : returns_normally progress_callback.
Hypothesis delay_nonneg : (0 <= delay_seconds)%Z.

Let attempt' := attempt world session_state email_template subject_template
                  resume_path resume_name delay_seconds progress_callback.
Let iteration' := iteration world session_state email_template subject_template
                    resume_path resume_name delay_seconds progress_callback.

Let step := row_paced world session_state email_template subject_template
              resume_path resume_name delay_seconds progress_callback.




End Steps.


Lemma processed_length {step} entries s rs s' :
  processed step entries s rs s' -> List.length rs = List.length entries.
Proof. induction 1; cbn [List.length]; congruence. Qed.



(* ------------------------------------------------------------------ *)
(** ** Placeholders, piece by piece *)
(* ------------------------------------------------------------------ *)

Lemma starts_with_app t x : PyStr.starts_with t (t ++ x) = true.
Proof.
  induction t as [|a t IH]; [reflexivity|].
  cbn [append PyStr.starts_with]. now rewrite Ascii.eqb_refl.
Qed.

Lemma drop_app t x : PyStr.drop (String.length t) (t ++ x) = x.
Proof. induction t as [|a t IH]; [reflexivity | exact IH]. Qed.

(** The scan replaces an occurrence it stands at, *)
Lemma replace_token a old new x :
  PyStr.replace (String a old ++ x) (String a old) new
  = new ++ PyStr.replace x (String a old) new.
Proof.
  rewrite ReplaceFacts.replace_hit by apply starts_with_app.
  now rewrite drop_app.
Qed.

(** passes over text without an opening bracket, *)
Lemma replace_plain t new : forall a x,
  no_open_bracket a = true ->
  PyStr.replace (a ++ x) (String "[" t) new = a ++ PyStr.replace x (String "[" t) new.
Proof.
  induction a as [|c a IH]; intros x H; [reflexivity|].
  cbn [no_open_bracket] in H. apply andb_true_iff in H as [Hc Ha].
  apply negb_true_iff in Hc.
  cbn [append]. rewrite ReplaceFacts.replace_miss.
  - f_equal. now apply IH.
  - cbn [PyStr.starts_with]. now rewrite Ascii.eqb_sym, Hc.
Qed.

(** and passes over another bracketed word. *)
Lemma replace_other t w new x :
  PyStr.starts_with (String "[" t) (String "[" w ++ x) = false ->
  no_open_bracket w = true ->
  PyStr.replace (String "[" w ++ x) (String "[" t) new
  = String "[" w ++ PyStr.replace x (String "[" t) new.
Proof.
  intros Hs Hw. cbn [append] in *. rewrite ReplaceFacts.replace_miss by exact Hs.
  f_equal. now apply replace_plain.
Qed.

Section Pieces.

Variables (company_name recruiter_name : string).
Hypothesis company_plain : no_open_bracket company_name = true.
Hypothesis recruiter_plain : no_open_bracket recruiter_name = true.

Lemma token_cases name :
  existsb (String.eqb name) placeholders = true ->
  name = "[Company Name]" \/ name = "[Recruiter Name]"
  \/ name = "[COMPANY]" \/ name = "[RECRUITER]".
Proof.
  unfold placeholders. cbn [existsb]. rewrite !orb_true_iff, !String.eqb_eq.
  intuition discriminate.
Qed.

Ltac pass :=
  first [ rewrite replace_token
        | rewrite replace_other by reflexivity
        | rewrite replace_plain by assumption ].

Lemma body_fill : forall pieces,
  well_marked pieces = true ->
  PyStr.replace
    (PyStr.replace
       (PyStr.replace
          (PyStr.replace (render pieces) "[Company Name]" company_name)
          "[Recruiter Name]" recruiter_name)
       "[COMPANY]" company_name)
    "[RECRUITER]" recruiter_name
  = fill (body_value company_name recruiter_name) pieces.
Proof.
  induction pieces as [|[text|name] rest IH]; intros H; [reflexivity| |];
    cbn [well_marked forallb] in H; apply andb_true_iff in H as [Hp Hrest];
    specialize (IH Hrest); cbn [render fill].
  - do 4 pass. now rewrite IH.
  - destruct (token_cases name Hp) as [-> | [-> | [-> | ->]]];
      do 4 pass; now rewrite IH.
Qed.

Lemma subject_fill : forall pieces,
  well_marked pieces = true ->
  PyStr.replace (PyStr.replace (render pieces) "[Company Name]" company_name)
    "[Recruiter Name]" recruiter_name
  = fill (subject_value company_name recruiter_name) pieces.
Proof.
  induction pieces as [|[text|name] rest IH]; intros H; [reflexivity| |];
    cbn [well_marked forallb] in H; apply andb_true_iff in H as [Hp Hrest];
    specialize (IH Hrest); cbn [render fill].
  - do 2 pass. now rewrite IH.
  - destruct (token_cases name Hp) as [-> | [-> | [-> | ->]]];
      do 2 pass; now rewrite IH.
Qed.

End Pieces.

(** The four replacements on names that are text. *)
Lemma replace_placeholders_text text company_name recruiter_name :
  exists body,
    replace_placeholders text (CStr company_name) (CStr recruiter_name) = Ret body
    /\ body_substituted company_name recruiter_name text body.
Proof.
  eexists. split; [reflexivity|]. split; [reflexivity|].
  intros Hc Hr. split.
  - intros pieces Hm ->. now apply body_fill.
  - intros Hflat.
    destruct (body_free_of_placeholders company_name recruiter_name Hc Hr text Hflat)
      as (body & Hbody & Hfree).
    injection Hbody as <-. exact Hfree.
Qed.

Lemma replace_subject_placeholders_text text company_name recruiter_name :
  exists subj,
    replace_subject_placeholders text (CStr company_name) (CStr recruiter_name) = Ret subj
    /\ subject_substituted company_name recruiter_name text subj.
Proof.
  eexists. split; [reflexivity|]. split; [reflexivity|].
  intros Hc Hr. split.
  - intros pieces Hm ->. now apply subject_fill.
  - intros Hflat.
    destruct (subject_free_of_placeholders company_name recruiter_name Hc Hr text Hflat)
      as (subj & Hsubj & Hfree).
    injection Hsubj as <-. exact Hfree.
Qed.


(* ================================================================== *)
(** * The statements of the specification *)
(* ================================================================== *)







(** C2 (amended) — for a recipient whose names are text, the body of the
    templated path and of the override path is the template, or the
    override, after the replacements of [[Company Name]],
    [[Recruiter Name]], [[COMPANY]] and [[RECRUITER]], made in this
    order; the subject is the edited subject, or else the configured
    one, after the replacements of [[Company Name]] and
    [[Recruiter Name]] only.  When the names hold no opening bracket:
    in a text made of pieces without an opening bracket and of
    placeholders, the body has the company name in the place of every
    [[Company Name]] and [[COMPANY]] and the recruiter name in the place
    of every [[Recruiter Name]] and [[RECRUITER]], and the subject has
    the names in the place of [[Company Name]] and [[Recruiter Name]]
    and keeps [[COMPANY]] and [[RECRUITER]]; and when the brackets of
    the text do not nest, the body holds none of the four placeholders
    and the subject neither of its two.  Composing changes no state. *)
Theorem composition_clears_placeholders
  (world : World) (session_state : SessionState)
  (company_name recruiter_name email_template subject_template : string)
  (s : State) :
  (String.eqb (selected_mode session_state) AI_MODE = false ->
   exists body,
     personalize_body world session_state (CStr company_name) (CStr recruiter_name)
       email_template s = (Ret body, s)
     /\ body_substituted company_name recruiter_name email_template body)
  /\ (forall edited,
        selected_mode session_state = AI_MODE ->
        preview_email_content session_state = Some edited ->
        exists body,
          personalize_body world session_state (CStr company_name) (CStr recruiter_name)
            email_template s = (Ret body, s)
          /\ body_substituted company_name recruiter_name edited body)
  /\ (exists subj,
        personalize_subject session_state (CStr company_name) (CStr recruiter_name)
          subject_template = Ret subj
        /\ subject_substituted company_name recruiter_name
             (match preview_email_subject session_state with
              | Some edited => edited
              | None => subject_template
              end) subj).
Proof.
  split; [|split].
  - intros Hmode.
    destruct (replace_placeholders_text email_template company_name recruiter_name)
      as (body & Hbody & Hsub).
    exists body. split; [|exact Hsub].
    unfold personalize_body. rewrite Hmode. unfold lift. now rewrite Hbody.
  - intros edited Hmode Hov.
    destruct (replace_placeholders_text edited company_name recruiter_name)
      as (body & Hbody & Hsub).
    exists body. split; [|exact Hsub].
    rewrite (personalize_body_override world session_state edited Hmode Hov).
    now rewrite Hbody.
  - unfold personalize_subject.
    destruct (preview_email_subject session_state) as [edited|];
      apply replace_subject_placeholders_text.
Qed.

Lemma composition_clears_placeholders_witness :
  personalize_body sample_world manual_session (CStr "Acme") (CStr "Jane")
    aliases_template initial_state
  = (Ret "Hi Jane at Acme (Acme, Jane)", initial_state)
  /\ free_of placeholders "Hi Jane at Acme (Acme, Jane)" = true
  /\ personalize_body chatty_world edited_session (CStr "Acme") (CStr "Jane")
       aliases_template initial_state
     = (Ret "Dear Jane, I admire Acme.", initial_state)
  /\ personalize_subject manual_session (CStr "Acme") (CStr "Jane") aliases_template
     = Ret "Hi Jane at Acme ([COMPANY], [RECRUITER])"
  /\ personalize_subject edited_session (CStr "Acme") (CStr "Jane") aliases_template
     = Ret "Joining Acme".
Proof.
  destruct (composition_clears_placeholders sample_world manual_session
              "Acme" "Jane" aliases_template aliases_template initial_state)
    as (Hbody & _ & subj & Hsubj & _ & Hsubj_means).
  destruct (Hbody eq_refl) as (body & Hrun & _ & Hbody_means).
  destruct (Hbody_means eq_refl eq_refl) as [Hfill Hfree].
  destruct (Hsubj_means eq_refl eq_refl) as [Hsfill _].
  destruct (composition_clears_placeholders chatty_world edited_session
              "Acme" "Jane" aliases_template aliases_template initial_state)
    as (_ & Hover & esubj & Hesubj & _ & Hesubj_means).
  destruct (Hover _ eq_refl eq_refl) as (ebody & Herun & _ & Hebody_means).
  destruct (Hebody_means eq_refl eq_refl) as [Hefill _].
  destruct (Hesubj_means eq_refl eq_refl) as [Hesfill _].
  specialize (Hfree eq_refl).
  rewrite (Hfill aliases_pieces eq_refl eq_refl) in Hrun, Hfree.
  rewrite (Hsfill aliases_pieces eq_refl eq_refl) in Hsubj.
  rewrite (Hefill edited_pieces eq_refl eq_refl) in Herun.
  rewrite (Hesfill edited_subject_pieces eq_refl eq_refl) in Hesubj.
  split; [exact Hrun|]. split; [exact Hfree|]. split; [exact Herun|].
  split; [exact Hsubj | exact Hesubj].
Defined.

(** C2, counterexample: a subject keeps the aliases [[COMPANY]] and
    [[RECRUITER]]. *)
Lemma subject_keeps_legacy_alias :
  personalize_subject manual_session (CStr "Acme") (CStr "Jane") "Opening at [COMPANY]"
  = Ret "Opening at [COMPANY]"
  /\ PyStr.contains "[COMPANY]" "Opening at [COMPANY]" = true.
Proof. split; reflexivity. Qed.

(** A name that is itself a placeholder stays in the body, and nested
    brackets can close up into a placeholder. *)
Example body_keeps_placeholder_name :
  replace_placeholders "Hi [Recruiter Name]" (CStr "Acme") (CStr "[Company Name]")
  = Ret "Hi [Company Name]".
Proof. reflexivity. Qed.

Example nested_brackets_make_placeholder :
  replace_placeholders "[COMP[RECRUITER]ANY]" (CStr "Acme") (CStr "")
  = Ret "[COMPANY]".
Proof. reflexivity. Qed.



(** C4 (amended) — whenever validation returns, for every required
    column that is present the error list holds the error naming that
    column exactly once if some row of the column is missing (null or
    NaN) and not at all otherwise, and a missing value makes [ok] false.
    An empty string is a value, not a missing one. *)
Theorem one_error_per_column_with_missing_values
  (df : DataFrame) (col : string) (vals : list cell) (ok : bool) (errs : list string) :
  In col required_columns ->
  column df col = Some vals ->
  validate_company_data df = Ret (ok, errs) ->
  count_occ string_dec errs (empty_values_error col)
  = (if existsb isna vals then 1 else 0)
  /\ (existsb isna vals = true -> ok = false).
Proof. apply validate_counts_empty_errors. Qed.

Lemma one_error_per_column_witness :
  count_occ string_dec
    ["Column 'Recruiter' contains empty values"]
    (empty_values_error "Recruiter")
  = (if existsb isna [CMissing; CStr "Bob"] then 1 else 0)
  /\ (existsb isna [CMissing; CStr "Bob"] = true -> false = false).
Proof.
  apply (one_error_per_column_with_missing_values missing_recruiter_frame).
  - simpl; tauto.
  - reflexivity.
  - reflexivity.
Defined.

(** C4, counterexample: an empty string in a required column is not
    reported, and the dataset is accepted. *)
Lemma empty_string_not_reported :
  column empty_name_frame "Company Name" = Some [CStr ""]
  /\ validate_company_data empty_name_frame = Ret (true, []).
Proof. split; reflexivity. Qed.



(** Without the edited preview the same run does call the generator. *)
Example generator_called_without_override :
  generation_calls
    (snd (run_campaign chatty_world
            {| personalization_mode := Some AI_MODE; preview_email_content := None;
               preview_email_subject := None; resume_file := None |}
            "Hi [Recruiter Name] at [Company Name]" "Joining [Company Name]"
            None None 60 None acme_frame initial_state))
  = [EvGenerate Personalize; EvGenerate Research; EvGenSleep 4].
Proof. reflexivity. Qed.

(** C6 (amended) — in the generated mode without an override, for a
    recipient whose names are text, [personalize_email] never raises.
    It returns the fallback content when the generator is not
    configured, raises, or gives no text or an empty text: the template
    with the four placeholders replaced and then every run of three
    newlines replaced by two, which is the templated result whenever
    that holds no three newlines in a row.  A non-empty reply, however
    short, is returned stripped, with no fallback. *)
Theorem generation_fallback
  (world : World) (company_name recruiter_name base_template resume_summary : string)
  (s : State) :
  exists templated,
    replace_placeholders base_template (CStr company_name) (CStr recruiter_name)
    = Ret templated
    /\ (exists body s',
          personalize_email world (CStr company_name) (CStr recruiter_name)
            base_template resume_summary s = (Ret body, s'))
    /\ (model_configured world = false ->
        personalize_email world (CStr company_name) (CStr recruiter_name)
          base_template resume_summary s
        = (Ret (PyStr.replace templated (NL ++ NL ++ NL) (NL ++ NL)), s))
    /\ (model_configured world = true ->
        usable_text (generate_content world (2 + clock s)) = None ->
        fst (personalize_email world (CStr company_name) (CStr recruiter_name)
               base_template resume_summary s)
        = Ret (PyStr.replace templated (NL ++ NL ++ NL) (NL ++ NL)))
    /\ (model_configured world = true ->
        forall text,
          usable_text (generate_content world (2 + clock s)) = Some text ->
          fst (personalize_email world (CStr company_name) (CStr recruiter_name)
                 base_template resume_summary s)
          = Ret (PyStr.strip text))
    /\ (PyStr.contains (NL ++ NL ++ NL) templated = false ->
        PyStr.replace templated (NL ++ NL ++ NL) (NL ++ NL) = templated).
Proof.
  eexists. split; [reflexivity|].
  pose proof (personalize_email_unconfigured world company_name recruiter_name
                base_template resume_summary s) as Hoff.
  pose proof (personalize_email_configured world company_name recruiter_name
                base_template resume_summary s) as Hon.
  cbv zeta in Hoff, Hon.
  split; [|split; [|split; [|split]]].
  - destruct (model_configured world) eqn:Hm.
    + specialize (Hon eq_refl).
      destruct (personalize_email world (CStr company_name) (CStr recruiter_name)
                  base_template resume_summary s) as [o s'].
      cbn [fst] in Hon. subst o.
      destruct (usable_text _); eexists; eexists; reflexivity.
    + rewrite (Hoff eq_refl). eexists; eexists; reflexivity.
  - exact Hoff.
  - intros Hm Hnone. rewrite (Hon Hm), Hnone. reflexivity.
  - intros Hm text Hsome. rewrite (Hon Hm), Hsome. reflexivity.
  - apply replace_absent.
Qed.

(** C6, counterexample, twice: a reply of two letters is used as the
    body, not replaced by the fallback; and the fallback of a template
    with three newlines in a row is not the templated result. *)
Lemma short_reply_is_kept :
  fst (personalize_email chatty_world (CStr "Acme") (CStr "Jane")
         "Hello [Recruiter Name] at [Company Name]" "" initial_state)
  = Ret "Hi"
  /\ replace_placeholders "Hello [Recruiter Name] at [Company Name]"
       (CStr "Acme") (CStr "Jane")
     = Ret "Hello Jane at Acme"
  /\ fst (personalize_email sample_world (CStr "Acme") (CStr "Jane")
            ("Hello [Recruiter Name]," ++ NL ++ NL ++ NL ++ "Bye") "" initial_state)
     = Ret ("Hello Jane," ++ NL ++ NL ++ "Bye")
  /\ replace_placeholders ("Hello [Recruiter Name]," ++ NL ++ NL ++ NL ++ "Bye")
       (CStr "Acme") (CStr "Jane")
     = Ret ("Hello Jane," ++ NL ++ NL ++ NL ++ "Bye").
Proof. repeat split; reflexivity. Qed.

Lemma generation_fallback_witness :
  fst (personalize_email sample_world (CStr "Acme") (CStr "Jane")
         "Hello [Recruiter Name] at [Company Name]" "" initial_state)
  = Ret "Hello Jane at Acme".
Proof.
  destruct (generation_fallback sample_world "Acme" "Jane"
              "Hello [Recruiter Name] at [Company Name]" "" initial_state)
    as (templated & Ht & _ & Hoff & _).
  rewrite (Hoff eq_refl). injection Ht as <-. reflexivity.
Defined.

(** C8 — validation is specified never to raise, and the code does: on
    a dataset whose [Email] column is blank in every row the [.str]
    accessor raises [AttributeError], and validation returns no
    result. *)
Theorem validate_raises_on_blank_email_column :
  validate_company_data blank_email_frame
  = Raise (Exn "AttributeError" "Can only use .str accessor with string values!").
Proof. reflexivity. Qed.

(** C9 — [send_email] never raises: it returns [(false, "Gmail service
    not available")] without building or sending a message when no
    service handle is obtained, [(false, "Failed to send email: ...")]
    with the text of the exception when obtaining the handle, building
    the message or sending it raises, and a success otherwise. *)
Theorem send_email_total
  (world : World) (to_email : cell) (subj body : string)
  (path name : option string) (s : State) :
  exists ok msg s',
    send_email world to_email subj body path name s = (Ret (ok, msg), s')
    /\ (get_service world (clock s) = Ret false ->
        ok = false /\ msg = "Gmail service not available"
        /\ trace s' = EvGetService :: trace s)
    /\ (forall e, get_service world (clock s) = Raise e ->
        ok = false /\ msg = "Failed to send email: " ++ exn_str e)
    /\ (get_service world (clock s) = Ret true ->
        forall e,
          create_email_message world (S (clock s)) to_email subj body path name = Raise e ->
          ok = false /\ msg = "Failed to send email: " ++ exn_str e)
    /\ (get_service world (clock s) = Ret true ->
        forall raw,
          create_email_message world (S (clock s)) to_email subj body path name = Ret raw ->
          (forall e, execute_send world (S (S (clock s))) raw = Raise e ->
             ok = false /\ msg = "Failed to send email: " ++ exn_str e)
          /\ (forall id, execute_send world (S (S (clock s))) raw = Ret id ->
             ok = true /\ msg = "Email sent successfully (ID: " ++ id ++ ")")).
Proof. apply send_email_cases. Qed.

Lemma send_email_total_witness :
  fst (send_email offline_world (CStr "jane@acme.com") "Joining Acme" "Hi Jane"
         None None initial_state)
  = Ret (false, "Gmail service not available").
Proof.
  destruct (send_email_total offline_world (CStr "jane@acme.com") "Joining Acme"
              "Hi Jane" None None initial_state)
    as (ok & msg & s' & Hrun & Hnone & _).
  destruct (Hnone eq_refl) as (-> & -> & _). rewrite Hrun. reflexivity.
Defined.

(** A table with the three required columns and no row, its columns of
    dtype [object] as in a file that holds a header and nothing else,
    passes validation with no error; the campaign run on it returns an
    empty log, whose summary counts nothing.  (On a column with no row
    and a numeric dtype, which the model leaves out, line 57 raises
    [AttributeError] as it does on [blank_email_frame].) *)
Theorem empty_dataset_accepted
  (world : World) (session_state : SessionState)
  (email_template subject_template : string)
  (resume_path resume_name : option string) (delay_seconds : Z)
  (progress_callback : option (nat -> CampaignResult -> option exn))
  (df : DataFrame) (s0 : State) :
  (forall col, In col required_columns -> has_column df col = true) ->
  df_rows df = [] ->
  validate_company_data df = Ret (true, [])
  /\ fst (run_campaign world session_state email_template subject_template resume_path
            resume_name delay_seconds progress_callback df s0) = Ret []
  /\ get_campaign_summary
       (snd (run_campaign world session_state email_template subject_template
               resume_path resume_name delay_seconds progress_callback df s0))
     = {| total := 0; successful := 0; failed := 0 |}.
Proof.
  intros Hcols Hrows. split; [|split].
  - apply validate_well_formed.
    + intros col Hin. specialize (Hcols col Hin).
      rewrite has_column_column in Hcols. unfold column in *. rewrite Hrows.
      destruct (position col (df_columns df)); [|discriminate].
      eexists; split; reflexivity.
    + unfold column. rewrite Hrows.
      destruct (position "Email" (df_columns df)); [|discriminate].
      intros vals [= <-]. constructor.
  - unfold run_campaign, iterrows. rewrite Hrows. reflexivity.
  - unfold run_campaign, iterrows. rewrite Hrows. reflexivity.
Qed.

Lemma empty_dataset_accepted_witness :
  validate_company_data header_only_frame = Ret (true, [])
  /\ fst (run_campaign sample_world manual_session "Hi [Recruiter Name]"
            "Joining [Company Name]" None None 60 None header_only_frame initial_state)
     = Ret []
  /\ get_campaign_summary
       (snd (run_campaign sample_world manual_session "Hi [Recruiter Name]"
               "Joining [Company Name]" None None 60 None header_only_frame
               initial_state))
     = {| total := 0; successful := 0; failed := 0 |}.
Proof.
  apply empty_dataset_accepted.
  - intros col [<-|[<-|[<-|[]]]]; reflexivity.
  - reflexivity.
Defined.

(* ================================================================== *)
(** * Further properties of the code *)
(* ================================================================== *)

(* ------------------------------------------------------------------ *)
(** ** What a whole run does to the outside world *)
(* ------------------------------------------------------------------ *)

Lemma callback_results_blind_generation : blind_to_generation callback_results.
Proof. intros [] t H; try discriminate; reflexivity. Qed.

Lemma callback_results_blind_mail : blind_to_mail callback_results.
Proof. intros [] t H; try discriminate; reflexivity. Qed.

Lemma filter_blind_generation (p : event -> bool) :
  (forall ev, is_generation_event ev = true -> p ev = false) ->
  blind_to_generation (filter p).
Proof. intros H ev t Hev. cbn [filter]. now rewrite (H ev Hev). Qed.

Section RunTrace.

Variable world : World.
Variable session_state : SessionState.
Variables (email_template subject_template : string).
Variables (resume_path resume_name : option string).
Variable delay_seconds : Z.
Variable progress_callback : option (nat -> CampaignResult -> option exn).

Hypothesis callback_returns : returns_normally progress_callback.
Hypothesis delay_nonneg : (0 <= delay_seconds)%Z.

Let iteration' := iteration world session_state email_template subject_template
                    resume_path resume_name delay_seconds progress_callback.

(** The callback sees the results of the completed iterations, in
    order, and no campaign error. *)
Lemma loop_callbacks n entries : forall s,
  exists rs s',
    for_each entries (iteration' n) s = (Ret tt, s')
    /\ campaign_results s' = (campaign_results s ++ rs)%list
    /\ callback_results (trace s') =
       (match progress_callback with
        | Some _ => rev (filter (fun r => negb (is_campaign_error r)) rs)
        | None => []
        end ++ callback_results (trace s))%list.
Proof.
  induction entries as [|[index row] entries IH]; intros s.
  - exists [], s. cbn [for_each]. repeat split.
    + now rewrite app_nil_r.
    + now destruct progress_callback.
  - destruct (iteration_trace world session_state email_template subject_template
                resume_path resume_name delay_seconds progress_callback
                callback_returns delay_nonneg n index row s)
      as (r & s1 & Hrun & Hlog & Hcase).
    destruct (IH s1) as (rs & s' & Hloop & Hlogs & Hcb).
    exists (r :: rs), s'. cbn [for_each]. unfold bind. fold iteration'. 
    unfold iteration' at 1. rewrite Hrun.
    split; [exact Hloop|]. split; [rewrite Hlogs, Hlog, <- app_assoc; reflexivity|].
    rewrite Hcb. cbn [filter].
    destruct Hcase as [(Herr & b & s2 & s3 & Hbody & Hsend & Htrace)
                      |(Herr & _ & Hquiet)]; rewrite Herr; cbn [negb].
    + pose proof (stable_personalize_body (fun st => callback_results (trace st))
                    world session_state (company r) (recruiter r) email_template
                    (blind_ignores_generation _ callback_results_blind_generation) s) as P1.
      pose proof (stable_send_email (fun st => callback_results (trace st)) world
                    (email r) (subject r) b resume_path resume_name
                    (blind_ignores_mail _ callback_results_blind_mail) s2) as P2.
      rewrite Hbody in P1. rewrite Hsend in P2. cbn [snd] in P1, P2.
      assert (Hs1 : callback_results (trace s1)
                    = (match progress_callback with Some _ => [r] | None => [] end
                       ++ callback_results (trace s))%list).
      { rewrite Htrace. destruct (before_last index n), progress_callback;
          cbn [app callback_results]; congruence. }
      rewrite Hs1. destruct progress_callback; [|reflexivity].
      cbn [rev]. rewrite <- !app_assoc. reflexivity.
    + rewrite (Hquiet _ callback_results callback_results_blind_generation).
      reflexivity.
Qed.

(** Every recipient gets at most one message, and every success is a
    message that was sent. *)
Lemma loop_sends n entries : forall s,
  exists rs s',
    for_each entries (iteration' n) s = (Ret tt, s')
    /\ campaign_results s' = (campaign_results s ++ rs)%list
    /\ send_attempts s + List.length (filter success rs) <= send_attempts s'
    /\ send_attempts s' <= send_attempts s + List.length entries.
Proof.
  induction entries as [|[index row] entries IH]; intros s.
  - exists [], s. cbn [for_each filter List.length]. repeat split; try lia.
    now rewrite app_nil_r.
  - destruct (iteration_trace world session_state email_template subject_template
                resume_path resume_name delay_seconds progress_callback
                callback_returns delay_nonneg n index row s)
      as (r & s1 & Hrun & Hlog & Hcase).
    destruct (IH s1) as (rs & s' & Hloop & Hlogs & Hlo & Hhi).
    exists (r :: rs), s'. cbn [for_each]. unfold bind. fold iteration'.
    unfold iteration' at 1. rewrite Hrun.
    split; [exact Hloop|]. split; [rewrite Hlogs, Hlog, <- app_assoc; reflexivity|].
    assert (Hstep : send_attempts s + (if success r then 1 else 0) <= send_attempts s1
                    /\ send_attempts s1 <= send_attempts s + 1).
    { destruct Hcase as [(Herr & b & s2 & s3 & Hbody & Hsend & Htrace)
                        |(Herr & Hfail & Hquiet)].
      - pose proof (stable_personalize_body send_attempts world session_state
                      (company r) (recruiter r) email_template) as P1.
        specialize (P1 (fun ev st H => ltac:(destruct ev; try discriminate H; reflexivity)) s).
        rewrite Hbody in P1. cbn [snd] in P1.
        assert (E1 : send_attempts s1 = send_attempts s3).
        { unfold send_attempts. rewrite Htrace.
          destruct (before_last index n), progress_callback; reflexivity. }
        destruct (send_email_trace world (email r) (subject r) b resume_path
                    resume_name s2) as (sent & s3' & Hsend' & _ & Hshape).
        rewrite Hsend in Hsend'. injection Hsend' as <- <-. cbn [fst] in Hshape.
        rewrite E1. unfold send_attempts in *.
        destruct Hshape as [[Hf ->]|[[Hf ->]|[raw ->]]];
          cbn [filter is_send_event List.length]; try rewrite Hf;
          destruct (success r); lia.
      - rewrite Hfail. unfold send_attempts.
        rewrite (Hquiet _ (filter is_send_event)); [lia|].
        apply filter_blind_generation. now intros []. }
    cbn [filter List.length]. destruct (success r); cbn [List.length]; lia.
Qed.


End RunTrace.

(* ------------------------------------------------------------------ *)
(** ** A validated dataset of text *)
(* ------------------------------------------------------------------ *)

Lemma bind_step {A B} (m : M A) (k : A -> M B) s a s1 :
  m s = (Ret a, s1) -> bind m k s = k a s1.
Proof. unfold bind. now intros ->. Qed.

Lemma personalize_body_text_returns world session_state c r tpl s :
  exists b s1,
    personalize_body world session_state (CStr c) (CStr r) tpl s = (Ret b, s1).
Proof.
  unfold personalize_body.
  destruct (String.eqb (selected_mode session_state) AI_MODE).
  - destruct (preview_email_content session_state) as [edited|].
    + do 2 eexists. reflexivity.
    + assert (Hp : forall resume st, exists b s1,
                personalize_email world (CStr c) (CStr r) tpl resume st = (Ret b, s1)).
      { intros resume st. destruct (model_configured world) eqn:Hm.
        - pose proof (personalize_email_configured world c r tpl resume st Hm) as H.
          cbv zeta in H.
          destruct (personalize_email world (CStr c) (CStr r) tpl resume st) as [o s1].
          cbn [fst] in H. subst o. destruct (usable_text _); do 2 eexists; reflexivity.
        - pose proof (personalize_email_unconfigured world c r tpl resume st Hm) as H.
          cbv zeta in H. rewrite H. do 2 eexists; reflexivity. }
      destruct (resume_file session_state).
      * unfold extract_resume_content, bind at 1. unfold bind at 1. unfold call, ret.
        apply Hp.
      * unfold bind, ret. apply Hp.
  - do 2 eexists. reflexivity.
Qed.

Section TextRows.

Variable world : World.
Variable session_state : SessionState.
Variables (email_template subject_template : string).
Variables (resume_path resume_name : option string).
Variable delay_seconds : Z.
Variable progress_callback : option (nat -> CampaignResult -> option exn).

Hypothesis callback_returns : returns_normally progress_callback.
Hypothesis delay_nonneg : (0 <= delay_seconds)%Z.

Let attempt' := attempt world session_state email_template subject_template
                  resume_path resume_name delay_seconds progress_callback.
Let iteration' := iteration world session_state email_template subject_template
                    resume_path resume_name delay_seconds progress_callback.



End TextRows.

Lemma position_some_nth name cols j :
  position name cols = Some j -> j < List.length cols.
Proof.
  revert j; induction cols as [|c cols IH]; intros j; cbn [position]; [discriminate|].
  destruct (String.eqb name c).
  - intros [= <-]. simpl; lia.
  - destruct (position name cols) as [k|]; [|discriminate].
    intros [= <-]. specialize (IH k eq_refl). simpl; lia.
Qed.

(** The cell a row of the frame has in a column is one of the values of
    the column. *)
Lemma row_cell_in_column df col vals entry :
  column df col = Some vals ->
  In entry (iterrows df) ->
  exists c, row_getitem (snd entry) col = Ret c /\ In c vals.
Proof.
  unfold column, iterrows, row_getitem. intros Hcol Hin.
  apply in_map_iff in Hin as (r & <- & Hr). cbn [snd row_columns row_cells].
  destruct (position col (df_columns df)) as [j|]; [|discriminate].
  injection Hcol as <-. eexists. split; [reflexivity|].
  apply in_map_iff. exists r. auto.
Qed.

Lemma validated_has_columns df errs :
  validate_company_data df = Ret (true, errs) ->
  forall col, In col required_columns -> exists vals, column df col = Some vals.
Proof.
  intros H. apply validate_returns in H as (invalid & -> & _ & Hok).
  symmetry in Hok. apply eqb_length_nil in Hok.
  apply app_eq_nil in Hok as [Hreq _].
  unfold check_required, required_columns in Hreq. cbn [filter] in Hreq.
  intros col Hin.
  assert (Hc : has_column df col = true).
  { destruct (has_column df "Company Name") eqn:H1; cbn [negb] in Hreq;
      [|destruct (has_column df "Recruiter"), (has_column df "Email"); discriminate].
    destruct (has_column df "Recruiter") eqn:H2; cbn [negb] in Hreq;
      [|destruct (has_column df "Email"); discriminate].
    destruct (has_column df "Email") eqn:H3; cbn [negb] in Hreq; [|discriminate].
    destruct Hin as [<-|[<-|[<-|[]]]]; assumption. }
  rewrite has_column_column in Hc. destruct (column df col); [eauto|discriminate].
Qed.

Lemma validated_text_composable df errs :
  validate_company_data df = Ret (true, errs) ->
  (forall col vals, In col ["Company Name"; "Recruiter"] ->
     column df col = Some vals -> forallb is_str vals = true) ->
  default_index df ->
  Forall (composable (df_len df)) (iterrows df).
Proof.
  intros Hval Htext Hidx. apply Forall_forall. intros entry Hin.
  pose proof (validated_has_columns df errs Hval) as Hcols.
  assert (Hlabel : exists k, k < df_len df /\ fst entry = LInt (Z.of_nat k)).
  { assert (Hf : In (fst entry) (map fst (iterrows df))) by now apply in_map.
    rewrite iterrows_labels, Hidx in Hf.
    apply in_map_iff in Hf as (k & <- & Hk). apply in_seq in Hk.
    exists k. split; [lia|reflexivity]. }
  destruct Hlabel as (k & Hk & Hlab).
  assert (Hname : forall col, In col ["Company Name"; "Recruiter"] ->
            exists c, row_getitem (snd entry) col = Ret (CStr c)).
  { intros col Hc.
    destruct (Hcols col) as (vals & Hv); [simpl in *; tauto|].
    destruct (row_cell_in_column df col vals entry Hv Hin) as (c & Hget & Hinv).
    pose proof (Htext col vals Hc Hv) as Hall.
    rewrite forallb_forall in Hall. specialize (Hall c Hinv).
    destruct c; try discriminate. eauto. }
  destruct (Hname "Company Name") as (c & Hc); [simpl; tauto|].
  destruct (Hname "Recruiter") as (r & Hr); [simpl; tauto|].
  destruct (Hcols "Email") as (vals & Hv); [simpl; tauto|].
  destruct (row_cell_in_column df "Email" vals entry Hv Hin) as (e & He & _).
  exists (Z.of_nat k), c, r, e. repeat split; auto; lia.
Qed.

Lemma summary_of_log s :
  total (get_campaign_summary s) = List.length (campaign_results s)
  /\ successful (get_campaign_summary s) = List.length (filter success (campaign_results s))
  /\ successful (get_campaign_summary s) + failed (get_campaign_summary s)
     = total (get_campaign_summary s).
Proof.
  unfold get_campaign_summary.
  destruct (campaign_results s) as [|r rs] eqn:E; [repeat split|].
  cbn [total successful failed]. repeat split.
  pose proof (filter_length_le success (r :: rs)). lia.
Qed.





(** X3 — the progress callback is called once for each recipient whose
    iteration ended normally, with the result that was logged and in
    the order of the log; it is never called for a campaign error. *)
Theorem callback_sees_completed_results
  (world : World) (session_state : SessionState)
  (email_template subject_template : string)
  (resume_path resume_name : option string) (delay_seconds : Z)
  (progress_callback : option (nat -> CampaignResult -> option exn))
  (company_data : DataFrame) (s0 : State) :
  returns_normally progress_callback ->
  (0 <= delay_seconds)%Z ->
  exists results s',
    run_campaign world session_state email_template subject_template resume_path
      resume_name delay_seconds progress_callback company_data s0 = (Ret results, s')
    /\ callback_results (trace s') =
       (match progress_callback with
        | Some _ => rev (filter (fun r => negb (is_campaign_error r)) results)
        | None => []
        end ++ callback_results (trace s0))%list.
Proof.
  intros Hcb Hdelay.
  destruct (loop_callbacks world session_state email_template subject_template
              resume_path resume_name delay_seconds progress_callback Hcb Hdelay
              (df_len company_data) (iterrows company_data)
              {| clock := clock s0; trace := trace s0; campaign_results := [] |})
    as (rs & s' & Hloop & Hlog & Hcalls).
  cbn [campaign_results trace app] in Hlog, Hcalls.
  exists rs, s'. split; [now apply run_unfold | exact Hcalls].
Qed.

Lemma callback_sees_completed_results_witness :
  exists results s',
    run_campaign sample_world manual_session "Hi [Recruiter Name] at [Company Name]"
      "Joining [Company Name]" None None 60 (Some (fun _ _ => None))
      missing_recruiter_frame initial_state
    = (Ret results, s')
    /\ callback_results (trace s') =
       (rev (filter (fun r => negb (is_campaign_error r)) results)
        ++ callback_results (trace initial_state))%list.
Proof.
  apply (callback_sees_completed_results sample_world manual_session
           "Hi [Recruiter Name] at [Company Name]" "Joining [Company Name]"
           None None 60 (Some (fun _ _ => None)) missing_recruiter_frame initial_state).
  - intros f [= <-] n r. reflexivity.
  - lia.
Defined.

(** X4 — a run hands at most one message per recipient to the mail
    service, and every successful result is a message that was handed
    over: there is no retry and no success without a send. *)
Theorem one_send_per_recipient
  (world : World) (session_state : SessionState)
  (email_template subject_template : string)
  (resume_path resume_name : option string) (delay_seconds : Z)
  (progress_callback : option (nat -> CampaignResult -> option exn))
  (company_data : DataFrame) (s0 : State) :
  returns_normally progress_callback ->
  (0 <= delay_seconds)%Z ->
  exists results s',
    run_campaign world session_state email_template subject_template resume_path
      resume_name delay_seconds progress_callback company_data s0 = (Ret results, s')
    /\ send_attempts s0 + List.length (filter success results) <= send_attempts s'
    /\ send_attempts s' <= send_attempts s0 + df_len company_data.
Proof.
  intros Hcb Hdelay.
  destruct (loop_sends world session_state email_template subject_template
              resume_path resume_name delay_seconds progress_callback Hcb Hdelay
              (df_len company_data) (iterrows company_data)
              {| clock := clock s0; trace := trace s0; campaign_results := [] |})
    as (rs & s' & Hloop & Hlog & Hlo & Hhi).
  cbn [campaign_results app] in Hlog.
  rewrite iterrows_length in Hhi.
  exists rs, s'. split; [now apply run_unfold|]. split; assumption.
Qed.

Lemma one_send_per_recipient_witness :
  exists results s',
    run_campaign sample_world manual_session "Hi [Recruiter Name] at [Company Name]"
      "Joining [Company Name]" None None 60 None two_recipients_frame initial_state
    = (Ret results, s')
    /\ send_attempts initial_state + List.length (filter success results)
       <= send_attempts s'
    /\ send_attempts s' <= send_attempts initial_state + df_len two_recipients_frame.
Proof.
  apply one_send_per_recipient.
  - intros f H. discriminate H.
  - lia.
Defined.



(* ------------------------------------------------------------------ *)
(** ** Rows that cannot be read, callbacks that raise *)
(* ------------------------------------------------------------------ *)

Section Unreadable.

Variable world : World.
Variable session_state : SessionState.
Variables (email_template subject_template : string).
Variables (resume_path resume_name : option string).
Variable delay_seconds : Z.
Variable progress_callback : option (nat -> CampaignResult -> option exn).

Let iteration' := iteration world session_state email_template subject_template
                    resume_path resume_name delay_seconds progress_callback.

(** An iteration that cannot read its row logs a campaign error and
    does nothing else. *)
Lemma iteration_unreadable n entry s :
  unreadable n entry ->
  exists e,
    iteration' n entry s
    = (Ret tt,
       {| clock := clock s; trace := trace s;
          campaign_results :=
            (campaign_results s
               ++ [error_result (snd entry) e (strftime world (clock s))])%list |}).
Proof.
  intros H. unfold iteration', iteration, try_except, attempt.
  destruct (show_progress (fst entry) n) as [i|e] eqn:Hp.
  - destruct H as [[e He]|(key & Hin & Hpos)]; [rewrite Hp in He; discriminate|].
    rewrite (bind_step _ _ s i s eq_refl).
    unfold row_getitem.
    destruct (position "Company Name" (row_columns (snd entry))) as [j1|] eqn:H1;
      [|eexists; reflexivity].
    rewrite (bind_step (lift _) _ s _ s eq_refl).
    destruct (position "Recruiter" (row_columns (snd entry))) as [j2|] eqn:H2;
      [|eexists; reflexivity].
    rewrite (bind_step (lift _) _ s _ s eq_refl).
    destruct (position "Email" (row_columns (snd entry))) as [j3|] eqn:H3;
      [|eexists; reflexivity].
    destruct Hin as [<-|[<-|[<-|[]]]]; congruence.
  - eexists. reflexivity.
Qed.

Lemma loop_unreadable n entries :
  Forall (unreadable n) entries ->
  forall s,
  exists rs s',
    for_each entries (iteration' n) s = (Ret tt, s')
    /\ campaign_results s' = (campaign_results s ++ rs)%list
    /\ List.length rs = List.length entries
    /\ forallb is_campaign_error rs = true
    /\ filter success rs = []
    /\ trace s' = trace s.
Proof.
  induction 1 as [|entry entries Hbad _ IH]; intros s.
  - exists [], s. cbn [for_each]. repeat split. now rewrite app_nil_r.
  - destruct (iteration_unreadable n entry s Hbad) as (e & Hrun).
    cbn [for_each]. unfold bind. rewrite Hrun.
    match goal with |- context [for_each entries _ ?st] => destruct (IH st)
      as (rs & s' & Hloop & Hlog & Hlen & Herr & Hok & Htrace) end.
    cbn [campaign_results trace] in Hlog, Htrace.
    exists (error_result (snd entry) e (strftime world (clock s)) :: rs), s'.
    split; [exact Hloop|]. split; [rewrite Hlog, <- app_assoc; reflexivity|].
    split; [cbn [List.length]; now rewrite Hlen|].
    split; [cbn [forallb]; rewrite Herr; reflexivity|].
    split; [cbn [filter error_result success]; exact Hok | exact Htrace].
Qed.

End Unreadable.

Lemma rows_of_frame_without_column df key n :
  In key required_columns ->
  has_column df key = false ->
  Forall (unreadable n) (iterrows df).
Proof.
  intros Hin Hcol. apply Forall_forall. intros entry Hentry.
  unfold iterrows in Hentry. apply in_map_iff in Hentry as (r & <- & _).
  right. exists key. split; [exact Hin|]. cbn [snd row_columns].
  unfold has_column in Hcol. now destruct (position key (df_columns df)).
Qed.

(** X21 — a run over a table that lacks one of the three required
    columns generates, builds and sends nothing and does not pause:
    every row is logged as a campaign error, and the summary is
    [{total: N, successful: 0, failed: N}]. *)
Theorem run_without_required_column_sends_nothing
  (world : World) (session_state : SessionState)
  (email_template subject_template : string)
  (resume_path resume_name : option string) (delay_seconds : Z)
  (progress_callback : option (nat -> CampaignResult -> option exn))
  (company_data : DataFrame) (key : string) (s0 : State) :
  In key required_columns ->
  has_column company_data key = false ->
  exists results s',
    run_campaign world session_state email_template subject_template resume_path
      resume_name delay_seconds progress_callback company_data s0 = (Ret results, s')
    /\ List.length results = df_len company_data
    /\ forallb is_campaign_error results = true
    /\ trace s' = trace s0
    /\ get_campaign_summary s'
       = {| total := df_len company_data; successful := 0;
            failed := df_len company_data |}.
Proof.
  intros Hin Hcol.
  destruct (loop_unreadable world session_state email_template subject_template
              resume_path resume_name delay_seconds progress_callback
              (df_len company_data) (iterrows company_data)
              (rows_of_frame_without_column company_data key _ Hin Hcol)
              {| clock := clock s0; trace := trace s0; campaign_results := [] |})
    as (rs & s' & Hloop & Hlog & Hlen & Herr & Hok & Htrace).
  cbn [campaign_results trace app] in Hlog, Htrace.
  rewrite iterrows_length in Hlen.
  exists rs, s'. split; [now apply run_unfold|].
  split; [exact Hlen|]. split; [exact Herr|]. split; [exact Htrace|].
  unfold get_campaign_summary. rewrite Hlog, Hok, <- Hlen.
  destruct rs; cbn [List.length]; [reflexivity|]. now rewrite Nat.sub_0_r.
Qed.

Lemma run_without_required_column_witness :
  exists results s',
    run_campaign sample_world manual_session "Hi [Recruiter Name] at [Company Name]"
      "Joining [Company Name]" None None 60 None no_email_frame initial_state
    = (Ret results, s')
    /\ List.length results = df_len no_email_frame
    /\ forallb is_campaign_error results = true
    /\ trace s' = trace initial_state
    /\ get_campaign_summary s'
       = {| total := df_len no_email_frame; successful := 0;
            failed := df_len no_email_frame |}.
Proof.
  apply (run_without_required_column_sends_nothing sample_world manual_session
           "Hi [Recruiter Name] at [Company Name]" "Joining [Company Name]"
           None None 60 None no_email_frame "Email").
  - simpl; tauto.
  - reflexivity.
Defined.

(** X22 — a row whose index label [i] puts [(i + 1) / total] outside
    [0, 1], as the rows of a filtered table do, is refused by the
    progress bar before anything is read or composed: the iteration
    logs a campaign error under the row's names and calls nothing. *)
Theorem label_outside_progress_range_sends_nothing
  (world : World) (session_state : SessionState)
  (email_template subject_template : string)
  (resume_path resume_name : option string) (delay_seconds : Z)
  (progress_callback : option (nat -> CampaignResult -> option exn))
  (total_emails : nat) (i : Z) (row : Row) (s : State) :
  (i + 1 < 0 \/ Z.of_nat total_emails < i + 1)%Z ->
  exists e,
    show_progress (LInt i) total_emails = Raise e
    /\ iteration world session_state email_template subject_template resume_path
         resume_name delay_seconds progress_callback total_emails (LInt i, row) s
       = (Ret tt,
          {| clock := clock s; trace := trace s;
             campaign_results :=
               (campaign_results s
                  ++ [{| company := row_get row "Company Name" (CStr "Unknown");
                         recruiter := row_get row "Recruiter" (CStr "Unknown");
                         email := row_get row "Email" (CStr "Unknown");
                         subject := "Error";
                         success := false;
                         message := "Campaign error: " ++ exn_str e;
                         timestamp := strftime world (clock s) |}])%list |}).
Proof.
  intros Hrange. unfold iteration, try_except, attempt. cbn [fst snd].
  unfold show_progress.
  assert (Hout : ((0 <=? i + 1) && (i + 1 <=? Z.of_nat total_emails))%Z = false).
  { apply andb_false_iff. destruct Hrange; [left | right]; now apply Z.leb_gt. }
  rewrite Hout. eexists. split; reflexivity.
Qed.

Lemma label_outside_progress_range_witness :
  exists e,
    show_progress (LInt 5) 1 = Raise e
    /\ iteration sample_world manual_session "Hi [Recruiter Name] at [Company Name]"
         "Joining [Company Name]" None None 60 None 1
         (LInt 5, {| row_columns := sample_columns;
                     row_cells := [CStr "Acme"; CStr "Jane"; CStr "jane@acme.com"] |})
         initial_state
       = (Ret tt,
          {| clock := 0; trace := [];
             campaign_results :=
               [{| company := CStr "Acme"; recruiter := CStr "Jane";
                   email := CStr "jane@acme.com"; subject := "Error"; success := false;
                   message := "Campaign error: " ++ exn_str e;
                   timestamp := strftime sample_world 0 |}] |}).
Proof.
  apply (label_outside_progress_range_sends_nothing sample_world manual_session
           "Hi [Recruiter Name] at [Company Name]" "Joining [Company Name]"
           None None 60 None 1 5).
  right. reflexivity.
Defined.

(** The same row inside a run: the table of one filtered row sends
    nothing. *)
Example filtered_table_sends_nothing :
  map success
    (campaign_results
       (snd (run_campaign sample_world manual_session
               "Hi [Recruiter Name] at [Company Name]" "Joining [Company Name]"
               None None 60 None filtered_frame initial_state)))
  = [false]
  /\ trace (snd (run_campaign sample_world manual_session
                   "Hi [Recruiter Name] at [Company Name]" "Joining [Company Name]"
                   None None 60 None filtered_frame initial_state))
     = [].
Proof. split; reflexivity. Qed.

Section RaisingCallback.

Variable world : World.
Variable session_state : SessionState.
Variables (email_template subject_template : string).
Variables (resume_path resume_name : option string).
Variable delay_seconds : Z.
Variable progress_callback : option (nat -> CampaignResult -> option exn).
Variable e : exn.

Hypothesis callback_raises : always_raises e progress_callback.

Let iteration' := iteration world session_state email_template subject_template
                    resume_path resume_name delay_seconds progress_callback.

(** When the callback raises, the result of the send is already in the
    log, and the [except] clause adds a campaign error for the same
    row. *)
Lemma iteration_callback_raises n entry s :
  composable n entry ->
  exists r ts s2 s',
    iteration' n entry s = (Ret tt, s')
    /\ campaign_results s'
       = (campaign_results s ++ [r; error_result (snd entry) e ts])%list
    /\ is_campaign_error r = false
    /\ trace s' = EvCallback r :: trace s2
    /\ (exists b s1,
          personalize_body world session_state (company r) (recruiter r)
            email_template s = (Ret b, s1)
          /\ send_email world (email r) (subject r) b resume_path resume_name s1
             = (Ret (success r, message r), s2)).
Proof.
  intros (i & c & r & em & Hi & Hrange & Hc & Hr & He).
  destruct callback_raises as (f & Hf & Hraise).
  unfold iteration', iteration, try_except, attempt. rewrite Hi, Hc, Hr, He.
  assert (Hp : show_progress (LInt i) n = Ret i).
  { unfold show_progress.
    destruct (Z.leb_spec 0 (i + 1)); [|lia].
    destruct (Z.leb_spec (i + 1) (Z.of_nat n)); [|lia]. reflexivity. }
  rewrite Hp.
  rewrite (bind_step _ _ s i s eq_refl).
  rewrite (bind_step _ _ s (CStr c) s eq_refl).
  rewrite (bind_step _ _ s (CStr r) s eq_refl).
  rewrite (bind_step _ _ s em s eq_refl).
  destruct (personalize_body_text_returns world session_state c r email_template s)
    as (b & s1 & Hbody).
  rewrite (bind_step _ _ s b s1 Hbody).
  assert (Hs : exists sj, personalize_subject session_state (CStr c) (CStr r)
                            subject_template = Ret sj).
  { unfold personalize_subject. destruct (preview_email_subject session_state);
      eexists; reflexivity. }
  destruct Hs as (sj & ->).
  rewrite (bind_step _ _ s1 sj s1 eq_refl).
  destruct (send_email_returns world em sj b resume_path resume_name s1)
    as ([ok msg] & s2 & Hsend & Hout).
  rewrite (bind_step _ _ s1 (ok, msg) s2 Hsend).
  rewrite (bind_step (now world) _ s2 _ s2 eq_refl).
  rewrite (bind_step (append_result _) _ s2 tt _ eq_refl).
  pose proof (stable_send_email campaign_results world em sj b resume_path resume_name
                (log_ignores _) s1) as L2.
  pose proof (stable_personalize_body campaign_results world session_state (CStr c)
                (CStr r) email_template (log_ignores _) s) as L1.
  rewrite Hbody in L1. rewrite Hsend in L2. cbn [snd] in L1, L2.
  rewrite Hf. unfold notify.
  unfold bind at 1. unfold bind at 1. unfold call at 1.
  rewrite Hraise. unfold raise, bind, now, append_result, record_event.
  cbn [clock trace campaign_results fst snd].
  eexists {| company := CStr c; recruiter := CStr r; email := em; subject := sj;
             success := ok; message := msg; timestamp := _ |}, _, s2, _.
  split; [reflexivity|]. cbn [campaign_results trace].
  split; [rewrite L2, L1, <- app_assoc; reflexivity|].
  split.
  { unfold is_campaign_error. cbn [message].
    destruct Hout as [[_ [id Hm]]|[[_ Hm]|[_ [e' Hm]]]];
      cbn [snd] in Hm; rewrite Hm; reflexivity. }
  split; [reflexivity|].
  exists b, s1. cbn [company recruiter email subject success message].
  split; assumption.
Qed.

Lemma loop_callback_raises n entries :
  Forall (composable n) entries ->
  forall s,
  exists rs s',
    for_each entries (iteration' n) s = (Ret tt, s')
    /\ campaign_results s' = (campaign_results s ++ rs)%list
    /\ List.length rs = 2 * List.length entries
    /\ List.length (filter is_campaign_error rs) = List.length entries
    /\ pacing_of s' = pacing_of s.
Proof.
  induction 1 as [|entry entries Hgood _ IH]; intros s.
  - exists [], s. cbn [for_each]. repeat split. now rewrite app_nil_r.
  - destruct (iteration_callback_raises n entry s Hgood)
      as (r & ts & s2 & s1 & Hrun & Hlog & Hr & Htrace & (b & s0 & Hbody & Hsend)).
    destruct (IH s1) as (rs & s' & Hloop & Hlogs & Hlen & Herr & Hpace).
    exists (r :: error_result (snd entry) e ts :: rs), s'.
    cbn [for_each]. unfold bind. rewrite Hrun.
    split; [exact Hloop|].
    split; [rewrite Hlogs, Hlog, <- app_assoc; reflexivity|].
    split; [cbn [List.length]; lia|].
    split.
    { cbn [filter]. rewrite Hr.
      change (is_campaign_error (error_result (snd entry) e ts)) with true.
      cbn [List.length]. now rewrite Herr. }
    rewrite Hpace. unfold pacing_of. rewrite Htrace. cbn [pacing_sleeps].
    pose proof (stable_send_email pacing_of world (email r) (subject r) b resume_path
                  resume_name pacing_ignores_mail s0) as L2.
    pose proof (stable_personalize_body pacing_of world session_state (company r)
                  (recruiter r) email_template pacing_ignores_generation s) as L1.
    rewrite Hbody in L1. rewrite Hsend in L2. cbn [snd] in L1, L2.
    unfold pacing_of in L1, L2. now rewrite L2, L1.
Qed.

End RaisingCallback.

(** X23 — when the progress callback raises at every call, a run over
    a validated table of text logs every recipient twice, first with
    the outcome of its send and then as a campaign error, so the
    summary counts [2 N] results for [N] rows; and the run never
    pauses between recipients. *)
Theorem raising_callback_doubles_the_log
  (world : World) (session_state : SessionState)
  (email_template subject_template : string)
  (resume_path resume_name : option string) (delay_seconds : Z)
  (progress_callback : option (nat -> CampaignResult -> option exn))
  (e : exn) (company_data : DataFrame) (errs : list string) (s0 : State) :
  always_raises e progress_callback ->
  validate_company_data company_data = Ret (true, errs) ->
  (forall col vals, In col ["Company Name"; "Recruiter"] ->
     column company_data col = Some vals -> forallb is_str vals = true) ->
  default_index company_data ->
  exists results s',
    run_campaign world session_state email_template subject_template resume_path
      resume_name delay_seconds progress_callback company_data s0 = (Ret results, s')
    /\ List.length results = 2 * df_len company_data
    /\ List.length (filter is_campaign_error results) = df_len company_data
    /\ total (get_campaign_summary s') = 2 * df_len company_data
    /\ pacing_of s' = pacing_of s0.
Proof.
  intros Hcb Hval Htext Hidx.
  pose proof (validated_text_composable company_data errs Hval Htext Hidx) as Hgood.
  destruct (loop_callback_raises world session_state email_template subject_template
              resume_path resume_name delay_seconds progress_callback e Hcb
              (df_len company_data) (iterrows company_data) Hgood
              {| clock := clock s0; trace := trace s0; campaign_results := [] |})
    as (rs & s' & Hloop & Hlog & Hlen & Herr & Hpace).
  cbn [campaign_results app] in Hlog.
  rewrite iterrows_length in Hlen, Herr.
  exists rs, s'. split; [now apply run_unfold|].
  split; [exact Hlen|]. split; [exact Herr|]. split; [|exact Hpace].
  destruct (summary_of_log s') as (Ht & _). now rewrite Ht, Hlog.
Qed.

Lemma raising_callback_doubles_the_log_witness :
  exists results s',
    run_campaign sample_world manual_session "Hi [Recruiter Name] at [Company Name]"
      "Joining [Company Name]" None None 60 failing_callback two_recipients_frame
      initial_state
    = (Ret results, s')
    /\ List.length results = 2 * df_len two_recipients_frame
    /\ List.length (filter is_campaign_error results) = df_len two_recipients_frame
    /\ total (get_campaign_summary s') = 2 * df_len two_recipients_frame
    /\ pacing_of s' = pacing_of initial_state.
Proof.
  apply (raising_callback_doubles_the_log sample_world manual_session
           "Hi [Recruiter Name] at [Company Name]" "Joining [Company Name]"
           None None 60 failing_callback (Exn "KeyError" "'company'")
           two_recipients_frame []).
  - eexists. split; [reflexivity|]. intros n r. reflexivity.
  - reflexivity.
  - intros col vals [<-|[<-|[]]] [= <-]; reflexivity.
  - reflexivity.
Defined.

(* ------------------------------------------------------------------ *)
(** ** [_convert_text_to_html] *)
(* ------------------------------------------------------------------ *)

Lemma has_char_app a s t : has_char a (s ++ t) = has_char a s || has_char a t.
Proof.
  induction s as [|c s IH]; [reflexivity|].
  cbn [append has_char]. now rewrite IH, orb_assoc.
Qed.

Lemma starts_with_char a c s :
  PyStr.starts_with (String a EmptyString) (String c s) = Ascii.eqb a c.
Proof. cbn [PyStr.starts_with]. now rewrite andb_true_r. Qed.

(** Replacing a character by text that does not hold it removes it. *)
Lemma replace_char_removes a new : forall s,
  has_char a new = false ->
  has_char a (PyStr.replace s (String a EmptyString) new) = false.
Proof.
  intros s Hnew. induction s as [|c s IH]; [reflexivity|].
  destruct (Ascii.eqb a c) eqn:Hc.
  - rewrite ReplaceFacts.replace_hit by (now rewrite starts_with_char).
    cbn [String.length PyStr.drop]. now rewrite has_char_app, Hnew, IH.
  - rewrite ReplaceFacts.replace_miss by (now rewrite starts_with_char).
    cbn [has_char]. now rewrite Hc, IH.
Qed.

Lemma replace_char_nonempty a new s :
  new <> EmptyString -> s <> EmptyString ->
  PyStr.replace s (String a EmptyString) new <> EmptyString.
Proof.
  intros Hnew Hs. destruct s as [|c s]; [congruence|].
  destruct (Ascii.eqb a c) eqn:Hc.
  - rewrite ReplaceFacts.replace_hit by (now rewrite starts_with_char).
    destruct new; [congruence|discriminate].
  - rewrite ReplaceFacts.replace_miss by (now rewrite starts_with_char). discriminate.
Qed.

Lemma html_paragraphs_lines paragraphs : Forall html_line (html_paragraphs paragraphs).
Proof.
  induction paragraphs as [|p ps IH]; cbn [html_paragraphs]; [constructor|].
  destruct (PyStr.strip p) as [|c st] eqn:Hs; [exact IH|].
  constructor; [|exact IH].
  eexists. split; [reflexivity|]. split.
  - apply replace_char_nonempty; discriminate.
  - apply (replace_char_removes "010" "<br>"). reflexivity.
Qed.

Lemma split_char_hit a s :
  PyText.split (String a s) (String a EmptyString)
  = EmptyString :: PyText.split s (String a EmptyString).
Proof.
  unfold PyText.split. cbn [PyText.split_scan].
  rewrite starts_with_char, Ascii.eqb_refl. reflexivity.
Qed.

Lemma split_nonempty sep : forall s k, PyText.split_scan sep k s <> [].
Proof.
  induction s as [|c s IH]; intros k; cbn [PyText.split_scan]; [discriminate|].
  destruct k; [|apply IH].
  destruct (PyStr.starts_with sep (String c s)); [discriminate|].
  destruct (PyText.split_scan sep 0 s); discriminate.
Qed.

Lemma split_char_miss a c s :
  Ascii.eqb a c = false ->
  exists piece pieces,
    PyText.split s (String a EmptyString) = piece :: pieces
    /\ PyText.split (String c s) (String a EmptyString) = String c piece :: pieces.
Proof.
  intros Hc. unfold PyText.split. cbn [PyText.split_scan].
  rewrite starts_with_char, Hc.
  destruct (PyText.split_scan (String a EmptyString) 0 s) as [|piece pieces] eqn:E.
  - now apply split_nonempty in E.
  - eauto.
Qed.

Lemma split_char_absent a : forall s,
  has_char a s = false -> PyText.split s (String a EmptyString) = [s].
Proof.
  induction s as [|c s IH]; intros H; [reflexivity|].
  cbn [has_char] in H. apply orb_false_iff in H as [Hc H].
  destruct (split_char_miss a c s Hc) as (piece & pieces & E1 & E2).
  rewrite E2. rewrite (IH H) in E1. now injection E1 as <- <-.
Qed.

Lemma split_char_app a : forall x rest,
  has_char a x = false ->
  PyText.split (x ++ String a rest) (String a EmptyString)
  = x :: PyText.split rest (String a EmptyString).
Proof.
  induction x as [|c x IH]; intros rest H.
  - apply split_char_hit.
  - cbn [has_char] in H. apply orb_false_iff in H as [Hc H].
    cbn [append].
    destruct (split_char_miss a c (x ++ String a rest) Hc) as (piece & pieces & E1 & E2).
    rewrite E2. rewrite (IH rest H) in E1. now injection E1 as <- <-.
Qed.

(** Joining lines and splitting at the line breaks gives the lines
    back. *)
Lemma split_concat_lines : forall lines,
  lines <> [] ->
  Forall (fun l => has_char "010" l = false) lines ->
  PyText.split (String.concat NL lines) NL = lines.
Proof.
  induction lines as [|x lines IH]; intros Hne Hall; [congruence|].
  inversion Hall as [|? ? Hx Hrest]; subst.
  destruct lines as [|y lines].
  - cbn [String.concat]. now apply split_char_absent.
  - change (String.concat NL (x :: y :: lines))
      with (x ++ String "010" (String.concat NL (y :: lines))).
    unfold NL at 2. rewrite split_char_app by assumption.
    f_equal. apply IH; [discriminate | assumption].
Qed.

Lemma html_line_no_break p : html_line p -> has_char "010" p = false.
Proof.
  intros (inner & -> & _ & H). rewrite !has_char_app, H. reflexivity.
Qed.

Lemma strip_blank : forall s, PyText.blank s = true -> PyStr.strip s = EmptyString.
Proof.
  unfold PyStr.strip.
  induction s as [|c s IH]; intros H; [reflexivity|].
  cbn [PyText.blank] in H. apply andb_true_iff in H as [Hc H].
  cbn [PyStr.lstrip]. rewrite Hc. now apply IH.
Qed.

Lemma split_blank sep : forall s k,
  PyText.blank s = true -> Forall (fun p => PyText.blank p = true) (PyText.split_scan sep k s).
Proof.
  induction s as [|c s IH]; intros k H; cbn [PyText.split_scan].
  - repeat constructor.
  - cbn [PyText.blank] in H. apply andb_true_iff in H as [Hc H].
    destruct k; [|now apply IH].
    destruct (PyStr.starts_with sep (String c s)).
    + constructor; [reflexivity | now apply IH].
    + specialize (IH 0 H).
      destruct (PyText.split_scan sep 0 s) as [|piece pieces].
      * repeat constructor. cbn [PyText.blank]. now rewrite Hc.
      * inversion IH; subst. constructor; [|assumption].
        cbn [PyText.blank]. now rewrite Hc.
Qed.

Lemma html_paragraphs_blank paragraphs :
  Forall (fun p => PyText.blank p = true) paragraphs -> html_paragraphs paragraphs = [].
Proof.
  induction 1 as [|p ps Hp _ IH]; [reflexivity|].
  cbn [html_paragraphs]. now rewrite (strip_blank p Hp).
Qed.

Lemma lstrip_empty : forall s, PyStr.lstrip s = EmptyString -> PyText.blank s = true.
Proof.
  induction s as [|c s IH]; [reflexivity|].
  cbn [PyStr.lstrip PyText.blank]. destruct (PyStr.is_space c); [exact IH | discriminate].
Qed.

Lemma lstrip_head : forall s c q,
  PyStr.lstrip s = String c q -> PyStr.is_space c = false.
Proof.
  induction s as [|a s IH]; intros c q; cbn [PyStr.lstrip]; [discriminate|].
  destruct (PyStr.is_space a) eqn:Ha; [apply IH|].
  now intros [= <- <-].
Qed.

Lemma rstrip_keeps_head c q :
  PyStr.is_space c = false -> PyStr.rstrip (String c q) <> EmptyString.
Proof.
  intros Hc. cbn [PyStr.rstrip]. destruct (PyStr.rstrip q); [rewrite Hc|]; discriminate.
Qed.

(** A paragraph is skipped exactly when it is blank. *)
Lemma strip_empty_blank s : PyStr.strip s = EmptyString <-> PyText.blank s = true.
Proof.
  split; [|apply strip_blank].
  unfold PyStr.strip. intros H.
  destruct (PyStr.lstrip s) as [|c q] eqn:Hl; [now apply lstrip_empty|].
  apply lstrip_head in Hl. now apply rstrip_keeps_head in H.
Qed.

Lemma html_paragraphs_map paragraphs :
  html_paragraphs paragraphs
  = map (fun p => P_OPEN ++ PyStr.replace (PyStr.strip p) NL "<br>" ++ P_CLOSE)
        (filter (fun p => negb (PyText.blank p)) paragraphs).
Proof.
  induction paragraphs as [|p ps IH]; [reflexivity|].
  cbn [html_paragraphs filter].
  destruct (PyText.blank p) eqn:Hb.
  - rewrite (strip_blank p Hb). exact IH.
  - cbn [negb map]. rewrite <- IH.
    destruct (PyStr.strip p) as [|c st] eqn:Hs; [|reflexivity].
    apply strip_empty_blank in Hs. congruence.
Qed.

(** X6 — the HTML body has exactly one line for each paragraph of the
    text that is not blank, in the order of the text: the paragraph tag
    around the stripped paragraph in which every line break has become
    [<br>]; blank paragraphs leave nothing.  The text inside a tag is
    not empty and holds no line break, so splitting the body at its
    line breaks gives these lines back. *)
Theorem html_body_one_line_per_paragraph (text : string) :
  exists lines,
    _convert_text_to_html text = HTML_HEAD ++ String.concat NL lines ++ HTML_TAIL
    /\ lines
       = map (fun p => P_OPEN ++ PyStr.replace (PyStr.strip p) NL "<br>" ++ P_CLOSE)
             (filter (fun p => negb (PyText.blank p)) (PyText.split text (NL ++ NL)))
    /\ Forall html_line lines
    /\ (lines <> [] -> PyText.split (html_text text) NL = lines).
Proof.
  exists (html_paragraphs (PyText.split text (NL ++ NL))).
  split; [reflexivity|]. split; [apply html_paragraphs_map|].
  split; [apply html_paragraphs_lines|].
  intros Hne. unfold html_text. apply split_concat_lines; [exact Hne|].
  eapply Forall_impl; [|apply html_paragraphs_lines].
  intros p. apply html_line_no_break.
Qed.

(** X7 — a text of white space only, the empty text included, gives a
    document with an empty body. *)
Theorem blank_text_has_empty_body (text : string) :
  PyText.blank text = true ->
  _convert_text_to_html text = HTML_HEAD ++ HTML_TAIL.
Proof.
  intros H. unfold _convert_text_to_html, html_text.
  rewrite html_paragraphs_blank by (now apply split_blank).
  reflexivity.
Qed.

Lemma blank_text_has_empty_body_witness :
  _convert_text_to_html (" " ++ NL ++ NL ++ NL ++ "  ") = HTML_HEAD ++ HTML_TAIL.
Proof. apply blank_text_has_empty_body. reflexivity. Defined.

Example html_of_two_paragraphs :
  html_text ("Dear Jane," ++ NL ++ NL ++ "I admire Acme." ++ NL ++ "Regards" ++ NL ++ NL)
  = P_OPEN ++ "Dear Jane," ++ P_CLOSE ++ NL
    ++ P_OPEN ++ "I admire Acme.<br>Regards" ++ P_CLOSE.
Proof. reflexivity. Qed.

(* ------------------------------------------------------------------ *)
(** ** [GeminiAI] *)
(* ------------------------------------------------------------------ *)

Lemma take_length : forall n s, String.length (PyText.take n s) = Nat.min n (String.length s).
Proof.
  induction n as [|n IH]; intros [|c s]; cbn [PyText.take String.length]; auto.
  now rewrite IH.
Qed.

(** X8 — the resume summary handed to the generator is never longer
    than 2003 characters; a resume whose stripped text has at most 2000
    characters is passed whole, and a failure to read the file gives a
    fixed notice instead of an exception. *)
Theorem resume_summary_is_bounded (pdf : outcome (list (outcome string))) :
  String.length (Resume.extract_resume_content pdf) <= 2003
  /\ (forall text,
        obind pdf Resume.pages_text = Ret text ->
        String.length (PyStr.strip text) <= 2000 ->
        Resume.extract_resume_content pdf = PyStr.strip text)
  /\ (forall e,
        obind pdf Resume.pages_text = Raise e ->
        Resume.extract_resume_content pdf = "Resume content extraction failed").
Proof.
  unfold Resume.extract_resume_content.
  destruct (obind pdf Resume.pages_text) as [text|e].
  - cbv zeta. destruct (Nat.ltb_spec 2000 (String.length (PyStr.strip text))) as [H|H].
    + split; [|split].
      * rewrite string_length_app, take_length. cbn [String.length]. lia.
      * intros t [= <-] Hle. lia.
      * discriminate.
    + split; [lia|]. split; [now intros t [= <-] | discriminate].
  - split; [cbn [String.length]; lia|]. split; [discriminate | reflexivity].
Qed.

Example resume_of_two_pages :
  Resume.extract_resume_content (Ret [Ret "  Jane Doe"; Ret "Engineer  "])
  = "Jane Doe" ++ NL ++ "Engineer".
Proof. reflexivity. Qed.

Example resume_page_raises :
  Resume.extract_resume_content (Ret [Ret "Jane Doe"; Raise (Exn "KeyError" "'/Contents'")])
  = "Resume content extraction failed".
Proof. reflexivity. Qed.

(** X9 — [get_company_info] never raises.  It asks the generator once
    when a model is configured and not at all otherwise; a non-empty
    reply is returned stripped, and in every other case, an exception
    of the generator included, the result is a stock sentence that
    begins with the company name. *)
Theorem company_research_never_raises (world : World) (company_name : cell) (s : State) :
  exists research,
    get_company_info world company_name s
    = (Ret research,
       if model_configured world then record_event (EvGenerate Research) s else s)
    /\ (forall text,
          model_configured world = true ->
          usable_text (generate_content world (clock s)) = Some text ->
          research = PyStr.strip text)
    /\ ((model_configured world = false
         \/ usable_text (generate_content world (clock s)) = None) ->
        PyStr.starts_with (cell_str company_name ++ " is a company ") research = true).
Proof.
  assert (Hpre : forall a b, PyStr.starts_with a (a ++ b) = true).
  { induction a as [|c a IH]; intros b; [now destruct b|].
    cbn [append PyStr.starts_with]. now rewrite Ascii.eqb_refl, IH. }
  assert (Hsent : forall tail,
            PyStr.starts_with (cell_str company_name ++ " is a company ")
              (cell_str company_name ++ " is a company " ++ tail) = true).
  { intros tail.
    replace (cell_str company_name ++ " is a company " ++ tail)
      with ((cell_str company_name ++ " is a company ") ++ tail); [apply Hpre|].
    induction (cell_str company_name) as [|c a IH]; [reflexivity|].
    cbn [append]. now rewrite IH. }
  unfold get_company_info, generate.
  unfold try_except, bind, call, ret, raise.
  destruct (model_configured world).
  - destruct (generate_content world (clock s)) as [e| |[|a t]]; cbn [usable_text];
      eexists; (split; [reflexivity|]); split;
      try (intros text _ [= <-]; reflexivity);
      try (intros text _ H; discriminate H);
      try (intros _; apply Hsent).
    intros [H|H]; discriminate H.
  - eexists; split; [reflexivity|]. split; [intros text H; discriminate H|].
    intros _. apply Hsent.
Qed.

(** X10 — a configured [personalize_email] costs one pause of four
    seconds and then exactly two requests to the generator, the company
    research and the message, whatever the generator answers and
    whatever the cells hold; without a model it calls nothing. *)
Theorem personalize_email_requests
  (world : World) (company_name recruiter_name : cell)
  (base_template resume_summary : string) (s : State) :
  trace (snd (personalize_email world company_name recruiter_name
                base_template resume_summary s))
  = if model_configured world
    then EvGenerate Personalize :: EvGenerate Research :: EvGenSleep DELAY_SECONDS :: trace s
    else trace s.
Proof.
  unfold personalize_email.
  destruct (model_configured world) eqn:Hm; cbn [negb]; [|reflexivity].
  unfold try_except, bind at 1. unfold call at 1.
  unfold bind at 1.
  destruct (get_company_info_returns world company_name
              (record_event (EvGenSleep DELAY_SECONDS) s)) as (t & ->).
  rewrite Hm. unfold generate. unfold bind, call, lift, ret, raise, record_event.
  cbn [clock trace campaign_results].
  destruct (generate_content world _) as [e| |[|a u]]; cbn [usable_text];
    try reflexivity;
    destruct (_get_fallback_content company_name recruiter_name base_template);
    reflexivity.
Qed.

(* ------------------------------------------------------------------ *)
(** ** [validate_company_data], again *)
(* ------------------------------------------------------------------ *)

Lemma missing_cells_do_not_match vals :
  List.length (filter isna vals)
  <= List.length (filter (fun c => negb (str_match_na_false c)) vals).
Proof.
  induction vals as [|c vals IH]; [reflexivity|].
  destruct c as [s| |]; cbn [filter isna str_match_na_false negb List.length]; try lia.
  destruct (negb (email_match s)); cbn [List.length]; lia.
Qed.

Lemma existsb_filter_length {A} (p : A -> bool) l :
  existsb p l = true -> 1 <= List.length (filter p l).
Proof.
  induction l as [|a l IH]; [discriminate|].
  cbn [existsb filter]. destruct (p a); cbn [List.length orb]; [lia|exact IH].
Qed.

(** X11 — a row whose e-mail address is missing is reported twice when
    validation returns: by the error about empty values in [Email], and
    in the count of invalid addresses, which closes the error list and
    counts every cell that is not text matching the pattern. *)
Theorem missing_email_is_counted_invalid
  (df : DataFrame) (vals : list cell) (ok : bool) (errs : list string) :
  column df "Email" = Some vals ->
  existsb isna vals = true ->
  validate_company_data df = Ret (ok, errs) ->
  exists before,
    errs = (before ++
            [invalid_emails_error
               (List.length (filter (fun c => negb (str_match_na_false c)) vals))])%list
    /\ In (empty_values_error "Email") before
    /\ List.length (filter isna vals)
       <= List.length (filter (fun c => negb (str_match_na_false c)) vals)
    /\ ok = false.
Proof.
  intros Hcol Hna. unfold validate_company_data, required_columns. cbn [fold_left].
  rewrite !check_empty_column_empties.
  unfold check_emails. rewrite Hcol.
  destruct (str_accessor_ok vals); [|discriminate].
  pose proof (missing_cells_do_not_match vals) as Hle.
  pose proof (existsb_filter_length isna vals Hna) as Hone.
  destruct (filter (fun c => negb (str_match_na_false c)) vals) as [|c l] eqn:Hf.
  - cbn [List.length] in Hle. lia.
  - intros [= <- <-]. eexists. split; [reflexivity|]. split; [|split; [exact Hle|]].
    + apply in_or_app. right. unfold empties. rewrite Hcol, Hna. now left.
    + rewrite length_app. cbn [List.length]. destruct (List.length _ + 1) eqn:E; [lia|reflexivity].
Qed.

Lemma missing_email_is_counted_invalid_witness :
  exists before,
    ["Column 'Email' contains empty values"; "Invalid email addresses found: 1 rows"]
    = (before ++
       [invalid_emails_error
          (List.length (filter (fun c => negb (str_match_na_false c))
                          [CStr "jane@acme.com"; CMissing]))])%list
    /\ In (empty_values_error "Email") before
    /\ List.length (filter isna [CStr "jane@acme.com"; CMissing])
       <= List.length (filter (fun c => negb (str_match_na_false c))
                         [CStr "jane@acme.com"; CMissing])
    /\ false = false.
Proof.
  apply (missing_email_is_counted_invalid missing_email_frame); reflexivity.
Defined.

Lemma count_by_success results :
  List.length (filter (fun r => Bool.eqb (success r) true) results)
  = List.length (filter success results)
  /\ List.length (filter (fun r => Bool.eqb (success r) false) results)
     = List.length results - List.length (filter success results).
Proof.
  induction results as [|r rs [IH1 IH2]]; [split; reflexivity|].
  pose proof (filter_length_le success rs) as Hle.
  cbn [filter]. destruct (success r); cbn [Bool.eqb List.length]; split; lia.
Qed.

(** X19 — the summary shown beside the download button is the summary
    [get_campaign_summary] computes from the same results: counting the
    rows with [success == False] gives [total - successful]. *)
Theorem download_summary_agrees (s : State) :
  download_summary (campaign_results s) = get_campaign_summary s.
Proof.
  unfold download_summary, get_campaign_summary.
  destruct (count_by_success (campaign_results s)) as [H1 H2].
  rewrite H1, H2.
  destruct (campaign_results s) as [|r rs]; reflexivity.
Qed.

(** X20 — validation reads the three required columns and nothing
    else: two tables that agree on them, whatever other columns they
    have and in whatever order, get the same verdict, the same errors
    or the same exception. *)
Theorem validation_reads_required_columns_only (df df' : DataFrame) :
  (forall col, In col required_columns -> column df col = column df' col) ->
  validate_company_data df = validate_company_data df'.
Proof.
  intros H.
  assert (Hc : column df "Company Name" = column df' "Company Name")
    by (apply H; simpl; tauto).
  assert (Hr : column df "Recruiter" = column df' "Recruiter")
    by (apply H; simpl; tauto).
  assert (He : column df "Email" = column df' "Email")
    by (apply H; simpl; tauto).
  unfold validate_company_data, required_columns. cbn [fold_left].
  rewrite !check_empty_column_empties.
  unfold check_required, required_columns, check_emails, empties. cbn [filter].
  rewrite !has_column_column, Hc, Hr, He. reflexivity.
Qed.

Lemma validation_reads_required_columns_only_witness :
  validate_company_data acme_frame = validate_company_data wide_frame.
Proof.
  apply validation_reads_required_columns_only.
  intros col [<-|[<-|[<-|[]]]]; reflexivity.
Defined.

(* ------------------------------------------------------------------ *)
(** ** The language of the e-mail pattern *)
(* ------------------------------------------------------------------ *)

Module RegexFacts.
Import Regex.

Lemma app_nil_inv a b : a ++ b = EmptyString -> a = EmptyString /\ b = EmptyString.
Proof. destruct a; [auto | discriminate]. Qed.

Lemma append_nil_r s : s ++ EmptyString = s.
Proof. induction s as [|c s IH]; [reflexivity|]. cbn [append]. now rewrite IH. Qed.

Lemma append_assoc a b c : (a ++ b) ++ c = a ++ b ++ c.
Proof. induction a as [|x a IH]; [reflexivity|]. cbn [append]. now rewrite IH. Qed.

Lemma seq_inv r1 r2 s :
  matches (Seq r1 r2) s ->
  exists s1 s2, s = s1 ++ s2 /\ matches r1 s1 /\ matches r2 s2.
Proof. intros H. inversion H; subst. eauto. Qed.

Lemma nullable_matches r : nullable r = true <-> matches r EmptyString.
Proof.
  split.
  - induction r; cbn [nullable]; intros H; try discriminate.
    + constructor.
    + apply andb_true_iff in H as [H1 H2].
      change EmptyString with (EmptyString ++ EmptyString). constructor; auto.
    + apply orb_true_iff in H as [H|H]; [apply MOrL | apply MOrR]; auto.
    + constructor.
  - intros H. remember EmptyString as s eqn:Es.
    induction H; cbn [nullable]; try discriminate; auto.
    + apply app_nil_inv in Es as [-> ->]. now rewrite IHmatches1, IHmatches2.
    + now rewrite IHmatches.
    + rewrite IHmatches; auto. apply orb_true_r.
Qed.

(** A string of a starred expression that begins with [c] begins with a
    non-empty string of the expression. *)
Lemma star_cons r c s :
  matches (Star r) (String c s) ->
  exists s1 s2, s = s1 ++ s2 /\ matches r (String c s1) /\ matches (Star r) s2.
Proof.
  intros H. remember (Star r) as r' eqn:Er. remember (String c s) as w eqn:Ew.
  revert Er Ew. induction H; intros Er Ew; try discriminate.
  injection Er as ->.
  destruct s1 as [|c1 s1].
  - cbn [append] in Ew. auto.
  - cbn [append] in Ew. injection Ew as -> <-. eauto.
Qed.

Lemma deriv_matches : forall r c s, matches (deriv c r) s <-> matches r (String c s).
Proof.
  induction r as [| |p|r1 IH1 r2 IH2|r1 IH1 r2 IH2|r IH]; intros c s; cbn [deriv].
  - split; intros H; inversion H.
  - split; intros H; inversion H.
  - destruct (p c) eqn:Hp; split; intros H.
    + inversion H; subst. now constructor.
    + inversion H; subst. constructor.
    + inversion H.
    + inversion H; subst. congruence.
  - assert (Hseq : matches (Seq (deriv c r1) r2) s ->
                   matches (Seq r1 r2) (String c s)).
    { intros H. apply seq_inv in H as (s1 & s2 & -> & H1 & H2).
      change (String c (s1 ++ s2)) with (String c s1 ++ s2).
      constructor; [now apply IH1 | assumption]. }
    assert (Hinv : matches (Seq r1 r2) (String c s) ->
                   matches (Seq (deriv c r1) r2) s
                   \/ (matches r1 EmptyString /\ matches (deriv c r2) s)).
    { intros H. apply seq_inv in H as (s1 & s2 & E & H1 & H2).
      destruct s1 as [|c1 s1]; cbn [append] in E.
      - right. split; [assumption|]. apply IH2. now subst.
      - injection E as -> ->. left. constructor; [now apply IH1 | assumption]. }
    destruct (nullable r1) eqn:Hn; split; intros H.
    + inversion H; subst; [now apply Hseq|].
      change (String c s) with (EmptyString ++ String c s).
      constructor; [now apply nullable_matches | now apply IH2].
    + destruct (Hinv H) as [H'|[_ H']]; [now apply MOrL | now apply MOrR].
    + now apply Hseq.
    + destruct (Hinv H) as [H'|[H' _]]; [assumption|].
      apply nullable_matches in H'. congruence.
  - split; intros H; inversion H; subst.
    + apply MOrL. now apply IH1.
    + apply MOrR. now apply IH2.
    + apply MOrL. now apply IH1.
    + apply MOrR. now apply IH2.
  - split; intros H.
    + apply seq_inv in H as (s1 & s2 & -> & H1 & H2).
      change (String c (s1 ++ s2)) with (String c s1 ++ s2).
      constructor; [now apply IH | assumption].
    + apply star_cons in H as (s1 & s2 & -> & H1 & H2).
      constructor; [now apply IH | assumption].
Qed.

(** The matcher decides the language. *)
Lemma accepts_matches : forall s r, accepts r s = true <-> matches r s.
Proof.
  induction s as [|c s IH]; intros r; cbn [accepts].
  - apply nullable_matches.
  - rewrite IH. apply deriv_matches.
Qed.

Lemma all_chars_app p a b : all_chars p (a ++ b) = all_chars p a && all_chars p b.
Proof.
  induction a as [|c a IH]; [reflexivity|].
  cbn [append all_chars]. now rewrite IH, andb_assoc.
Qed.

Lemma class_inv p s :
  matches (Class p) s -> exists c, s = String c EmptyString /\ p c = true.
Proof. intros H. inversion H; subst. eauto. Qed.

Lemma star_class p s : matches (Star (Class p)) s <-> all_chars p s = true.
Proof.
  split.
  - intros H. remember (Star (Class p)) as r eqn:Er.
    induction H; try discriminate; [reflexivity|].
    injection Er as ->.
    apply class_inv in H as (c & -> & Hc).
    cbn [append all_chars]. rewrite Hc. now apply IHmatches2.
  - induction s as [|c s IH]; cbn [all_chars]; intros H; [constructor|].
    apply andb_true_iff in H as [Hc H].
    change (String c s) with (String c EmptyString ++ s).
    constructor; [now constructor | now apply IH].
Qed.

Lemma plus_class p s :
  matches (plus (Class p)) s <-> 1 <= String.length s /\ all_chars p s = true.
Proof.
  unfold plus. split.
  - intros H. apply seq_inv in H as (s1 & s2 & -> & H1 & H2).
    apply class_inv in H1 as (c & -> & Hc). apply star_class in H2.
    cbn [append String.length all_chars]. rewrite Hc, H2. split; [lia|reflexivity].
  - intros [Hlen H]. destruct s as [|c s]; [cbn in Hlen; lia|].
    cbn [all_chars] in H. apply andb_true_iff in H as [Hc H].
    change (String c s) with (String c EmptyString ++ s).
    constructor; [now constructor | now apply star_class].
Qed.

Lemma two_or_more_class p s :
  matches (two_or_more (Class p)) s <-> 2 <= String.length s /\ all_chars p s = true.
Proof.
  unfold two_or_more. split.
  - intros H. apply seq_inv in H as (s1 & s2 & -> & H1 & H2).
    apply class_inv in H1 as (c & -> & Hc).
    apply (plus_class p s2) in H2 as [Hlen H2].
    cbn [append String.length all_chars]. rewrite Hc, H2. split; [lia|reflexivity].
  - intros [Hlen H]. destruct s as [|c s]; [cbn in Hlen; lia|].
    cbn [all_chars] in H. apply andb_true_iff in H as [Hc H].
    change (String c s) with (String c EmptyString ++ s).
    constructor; [now constructor|].
    apply (plus_class p s). cbn [String.length] in Hlen. split; [lia|assumption].
Qed.

Lemma char_inv a s :
  matches (Class (Ascii.eqb a)) s <-> s = String a EmptyString.
Proof.
  split.
  - intros H. apply class_inv in H as (c & -> & Hc).
    apply Ascii.eqb_eq in Hc. now subst.
  - intros ->. constructor. apply Ascii.eqb_refl.
Qed.

Lemma ending_inv s :
  matches (Or Empty (Class (Ascii.eqb "010"))) s <-> s = EmptyString \/ s = NL.
Proof.
  split.
  - intros H. inversion H as [| | |? ? ? H'|? ? ? H'| |]; subst.
    + left. now inversion H'.
    + right. now apply char_inv in H'.
  - intros [->| ->]; [apply MOrL; constructor | apply MOrR; now apply char_inv].
Qed.

Lemma email_pattern_shape s : matches email_pattern s <-> address_shape s.
Proof.
  unfold email_pattern, address_shape. split.
  - intros H.
    apply seq_inv in H as (local & s2 & -> & Hl & H).
    apply seq_inv in H as (at_ & s3 & -> & Ha & H).
    apply seq_inv in H as (domain & s4 & -> & Hd & H).
    apply seq_inv in H as (dot & s5 & -> & Hdot & H).
    apply seq_inv in H as (tld & ending & -> & Ht & He).
    apply char_inv in Ha, Hdot. subst.
    apply plus_class in Hl as [? ?], Hd as [? ?].
    apply two_or_more_class in Ht as [? ?]. apply ending_inv in He.
    exists local, domain, tld, ending. repeat split; auto.
  - intros (local & domain & tld & ending & -> & Hl & Hl' & Hd & Hd' & Ht & Ht' & He).
    constructor; [now apply plus_class|].
    constructor; [now apply char_inv|].
    constructor; [now apply plus_class|].
    constructor; [now apply char_inv|].
    constructor; [now apply two_or_more_class | now apply ending_inv].
Qed.

End RegexFacts.

(** X18 — the e-mail pattern accepts exactly the texts made of a
    non-empty local part of letters, digits and [._%+-], an [@], a
    non-empty domain of letters, digits, dots and hyphens, a dot, and
    two or more letters, optionally followed by one line break. *)
Theorem email_match_accepts_address_shape (s : string) :
  email_match s = true <-> address_shape s.
Proof.
  unfold email_match. rewrite RegexFacts.accepts_matches.
  apply RegexFacts.email_pattern_shape.
Qed.

(* ------------------------------------------------------------------ *)
(** ** [GmailAuthenticator] *)
(* ------------------------------------------------------------------ *)

Module GmailAuthFacts.
Import GmailAuth.
Local Open Scope auth_scope.

Ltac run :=
  unfold get_user_info, get_service, is_authenticated, authenticate, logout, start_flow,
    refresh_if_expired;
  unfold try_except_of, bind, call, lift, ret, raise, get_credentials, set_credentials,
    the_service, set_service, session_credentials, set_session_credentials,
    any_exception;
  cbn [ticks calls credentials service gmail_credentials].

Ltac split_cases :=
  repeat match goal with
         | |- context [match ?x with _ => _ end] =>
             lazymatch x with
             | context [match _ with _ => _ end] => fail
             | _ => destruct x eqn:?
             end;
             cbn [ticks calls credentials service gmail_credentials negb andb]
         end.

Section Facts.

Variable lib : Services.

Lemma authenticate_cases s :
  exists ok s',
    authenticate lib s = (Ret ok, s')
    /\ service s' = service s
    /\ (ok = true ->
        exists c,
          credentials s' = Some c
          /\ (valid c = true
              \/ exists json,
                   to_json lib c = Ret json
                   /\ gmail_credentials s' = Some (StoredText json)))
    /\ (ok = false ->
        gmail_credentials s' = None
        \/ (credentials s' = None
            /\ exists url rest, calls s' = EvShowLink url :: EvFlow :: rest)).
Proof.
  run. split_cases;
    eexists; eexists; (split; [reflexivity|]);
    cbn [ticks calls credentials service gmail_credentials];
    (split; [reflexivity|]); (split; intros Hok; try discriminate Hok).
  all: repeat match goal with H : negb _ = false |- _ => apply negb_false_iff in H end.
  all: eauto 10.
Qed.

Ltac step :=
  unfold try_except_of, bind, call, lift, ret, raise, get_credentials, set_credentials,
    the_service, set_service, session_credentials, set_session_credentials,
    any_exception;
  cbn [ticks calls credentials service gmail_credentials].

Lemma get_service_cases s :
  exists r s',
    get_service lib s = (Ret r, s')
    /\ (forall h, r = Some h ->
          service s' = Some h /\ exists c, credentials s' = Some c)
    /\ (r = None -> service s' = service s).
Proof.
  unfold get_service. step.
  destruct (credentials s) as [c|] eqn:Hc.
  - cbn [negb]. split_cases; eexists; eexists; (split; [reflexivity|]);
      cbn [ticks calls credentials service gmail_credentials];
      (split; [intros h' [= <-]; eauto | try discriminate; auto]).
  - destruct (authenticate_cases s) as (ok & s1 & E & Hsvc & Htrue & Hfalse).
    rewrite E. destruct ok; cbv beta iota; cbn [negb].
    + destruct (Htrue eq_refl) as (c & Hc1 & _).
      destruct (service s1) as [h|] eqn:Hs1; cbv beta iota; rewrite ?Hc1;
        split_cases; eexists; eexists; (split; [reflexivity|]);
        cbn [ticks calls credentials service gmail_credentials];
        (split; [intros h' [= <-]; eauto | try discriminate; try congruence; auto]).
    + eexists; eexists; split; [reflexivity|]. split; [discriminate | auto].
Qed.

Lemma get_service_again s h s' :
  get_service lib s = (Ret (Some h), s') ->
  get_service lib s' = (Ret (Some h), s').
Proof.
  intros H. destruct (get_service_cases s) as (r & s1 & E & Hsome & _).
  rewrite E in H. injection H as -> ->.
  destruct (Hsome h eq_refl) as (Hsvc & c & Hc).
  unfold get_service. step. rewrite Hc. cbn [negb]. rewrite Hsvc. reflexivity.
Qed.

(** After [logout] nothing is left to authenticate with. *)
Lemma authenticate_after_logout s :
  credentials s = None -> gmail_credentials s = None ->
  exists s',
    authenticate lib s = (Ret false, s')
    /\ credentials s' = None
    /\ gmail_credentials s' = None
    /\ service s' = service s
    /\ (calls s' = calls s
        \/ calls s' = EvFlow :: calls s
        \/ exists url, calls s' = EvShowLink url :: EvFlow :: calls s).
Proof.
  destruct s as [n log cr sv stored].
  cbn [ticks calls credentials service gmail_credentials]. intros -> ->.
  run. cbn [ticks calls credentials service gmail_credentials negb].
  split_cases; eexists; (split; [reflexivity|]);
    cbn [ticks calls credentials service gmail_credentials]; eauto 10.
Qed.

Lemma is_authenticated_cases s :
  exists ok s',
    is_authenticated lib s = (Ret ok, s')
    /\ service s' = service s
    /\ (ok = true ->
        exists c stored,
          credentials s' = Some c /\ valid c = true
          /\ gmail_credentials s' = Some stored).
Proof.
  run. split_cases;
    eexists; eexists; (split; [reflexivity|]);
    cbn [ticks calls credentials service gmail_credentials];
    (split; [reflexivity|]); intros Hok; try discriminate Hok.
  all: eauto 10.
Qed.

Lemma get_user_info_cases s :
  exists r s',
    get_user_info lib s = (Ret r, s')
    /\ (forall profile, r = Some profile -> exists h, service s' = Some h).
Proof.
  unfold get_user_info. unfold bind at 1.
  destruct (get_service_cases s) as (r & s1 & E & Hsome & _).
  rewrite E. destruct r as [h|].
  - destruct (Hsome h eq_refl) as (Hsvc & _).
    step. split_cases; eexists; eexists; (split; [reflexivity|]);
      cbn [ticks calls credentials service gmail_credentials];
      intros profile Hp; try discriminate Hp; eauto.
  - eexists; eexists; split; [reflexivity|]. intros profile Hp. discriminate Hp.
Qed.

End Facts.
End GmailAuthFacts.

Section GmailAuthProperties.

Import GmailAuth.

(** X12 — [authenticate] never raises and never touches the service
    handle.  When it returns [True] the authenticator holds credentials
    that are valid or were just written to the session as JSON; when it
    returns [False] the stored credentials have been discarded, or
    there are no credentials and the authorization link was shown. *)
Theorem authenticate_never_raises (lib : Services) (s : Auth) :
  exists ok s',
    authenticate lib s = (Ret ok, s')
    /\ service s' = service s
    /\ (ok = true ->
        exists c,
          credentials s' = Some c
          /\ (valid c = true
              \/ exists json,
                   to_json lib c = Ret json
                   /\ gmail_credentials s' = Some (StoredText json)))
    /\ (ok = false ->
        gmail_credentials s' = None
        \/ (credentials s' = None
            /\ exists url rest, calls s' = EvShowLink url :: EvFlow :: rest)).
Proof. apply GmailAuthFacts.authenticate_cases. Qed.

(** X13 — once [get_service] has returned a handle, calling it again
    returns the same handle and changes nothing: no second [build], no
    authentication. *)
Theorem service_handle_is_cached (lib : Services) (s s' : Auth) (h : nat) :
  get_service lib s = (Ret (Some h), s') ->
  get_service lib s' = (Ret (Some h), s') /\ service s' = Some h.
Proof.
  intros H. split; [eapply GmailAuthFacts.get_service_again; eassumption|].
  destruct (GmailAuthFacts.get_service_cases lib s) as (r & s1 & E & Hsome & _).
  rewrite E in H. injection H as -> ->. now destruct (Hsome h eq_refl).
Qed.

Lemma service_handle_is_cached_witness :
  get_service (sample_services fresh_credentials)
    {| ticks := 2; calls := [EvBuild; EvLoad]; credentials := Some fresh_credentials;
       service := Some 1; gmail_credentials := Some (StoredText "{}") |}
  = (Ret (Some 1),
     {| ticks := 2; calls := [EvBuild; EvLoad]; credentials := Some fresh_credentials;
        service := Some 1; gmail_credentials := Some (StoredText "{}") |})
  /\ service
       {| ticks := 2; calls := [EvBuild; EvLoad]; credentials := Some fresh_credentials;
          service := Some 1; gmail_credentials := Some (StoredText "{}") |}
     = Some 1.
Proof.
  apply (service_handle_is_cached (sample_services fresh_credentials)
           (new (Some (StoredText "{}")))).
  reflexivity.
Defined.

(** X14 — [get_service] and [get_user_info] never raise; after
    [logout] both return [None] whatever the libraries do: no service
    is built, no token refreshed, no profile asked for, and the
    authenticator stays without credentials and without a handle. *)
Theorem logout_disconnects (lib : Services) (s : Auth) :
  (exists r s', get_service lib s = (Ret r, s'))
  /\ (exists r s', get_user_info lib s = (Ret r, s'))
  /\ exists s',
       get_service lib (snd (logout s)) = (Ret None, s')
       /\ get_user_info lib (snd (logout s)) = (Ret None, s')
       /\ credentials s' = None
       /\ service s' = None
       /\ gmail_credentials s' = None
       /\ (calls s' = calls s
           \/ calls s' = EvFlow :: calls s
           \/ exists url, calls s' = EvShowLink url :: EvFlow :: calls s).
Proof.
  split.
  { destruct (GmailAuthFacts.get_service_cases lib s) as (r & s' & E & _). eauto. }
  split.
  { destruct (GmailAuthFacts.get_user_info_cases lib s) as (r & s' & E & _). eauto. }
  destruct (GmailAuthFacts.authenticate_after_logout lib (snd (logout s)))
    as (s' & E & Hc & Hs & Hsvc & Hcalls); [reflexivity | reflexivity |].
  exists s'.
  assert (Hget : get_service lib (snd (logout s)) = (Ret None, s')).
  { unfold get_service.
    unfold bind at 1. unfold get_credentials at 1. cbv beta iota.
    change (credentials (snd (logout s))) with (@None Credentials). cbv beta iota.
    unfold bind at 1. rewrite E. reflexivity. }
  split; [exact Hget|].
  split; [unfold get_user_info, bind; rewrite Hget; reflexivity|].
  split; [exact Hc|]. split; [now rewrite Hsvc|].
  split; [exact Hs|exact Hcalls].
Qed.

(** X15 — [is_authenticated] never raises, and it answers [True] only
    when the session holds credentials and the authenticator holds
    credentials that are valid. *)
Theorem is_authenticated_sound (lib : Services) (s : Auth) :
  exists ok s',
    is_authenticated lib s = (Ret ok, s')
    /\ service s' = service s
    /\ (ok = true ->
        exists c stored,
          credentials s' = Some c /\ valid c = true
          /\ gmail_credentials s' = Some stored).
Proof. apply GmailAuthFacts.is_authenticated_cases. Qed.

(** X16 — [authenticate] returns [True] for stored credentials that are
    not valid and cannot be refreshed (not expired, or without a
    refresh token): it keeps them, writes them back to the session and
    shows no authorization link. *)
Theorem authenticate_keeps_unusable_credentials
  (lib : Services) (s : Auth) (stored : Stored) (c : Credentials) (json : string) :
  gmail_credentials s = Some stored ->
  load_credentials lib (ticks s) stored = Ret c ->
  valid c = false ->
  expired c && refresh_token c = false ->
  to_json lib c = Ret json ->
  authenticate lib s
  = (Ret true,
     {| ticks := S (ticks s); calls := EvLoad :: calls s; credentials := Some c;
        service := service s; gmail_credentials := Some (StoredText json) |}).
Proof.
  destruct s as [n log cr sv st].
  cbn [ticks calls credentials service gmail_credentials].
  intros -> Hload Hvalid Hexp Hjson.
  GmailAuthFacts.run. rewrite Hload. cbn [ticks calls credentials service gmail_credentials].
  rewrite Hvalid. cbn [negb]. rewrite Hexp.
  cbn [ticks calls credentials service gmail_credentials].
  rewrite Hjson. reflexivity.
Qed.

Lemma authenticate_keeps_unusable_credentials_witness :
  authenticate (sample_services tokenless_credentials) (new (Some (StoredText "{}")))
  = (Ret true,
     {| ticks := 1; calls := [EvLoad]; credentials := Some tokenless_credentials;
        service := None; gmail_credentials := Some (StoredText "{token: }") |}).
Proof.
  apply (authenticate_keeps_unusable_credentials (sample_services tokenless_credentials)
           (new (Some (StoredText "{}"))) (StoredText "{}") tokenless_credentials);
    reflexivity.
Defined.

Lemma is_set_inv v : is_set v = true -> exists a rest, v = Some (String a rest).
Proof. destruct v as [[|a rest]|]; try discriminate. eauto. Qed.

(** X17 — when the start-up check of the application passes,
    [get_credentials_from_env] does not raise: it returns the client
    id and secret of the environment, with the single redirect address
    chosen by [STREAMLIT_SERVER_PORT]. *)
Theorem checked_environment_gives_client_config (lib : Services) :
  fst (check_environment (getenv lib)) = true ->
  exists config,
    get_credentials_from_env lib = Ret config
    /\ getenv lib "GOOGLE_CLIENT_ID" = Some (client_id config)
    /\ getenv lib "GOOGLE_CLIENT_SECRET" = Some (client_secret config)
    /\ redirect_uris config
       = [if is_set (getenv lib "STREAMLIT_SERVER_PORT") then CLOUD_URI else LOCAL_URI].
Proof.
  unfold check_environment. cbn [fst filter].
  destruct (is_set (getenv lib "GOOGLE_CLIENT_ID")) eqn:Hid; cbn [negb];
    [|destruct (negb _); destruct (negb _); discriminate].
  destruct (is_set (getenv lib "GOOGLE_CLIENT_SECRET")) eqn:Hsec; cbn [negb];
    [|destruct (negb _); discriminate].
  intros _.
  apply is_set_inv in Hid as (a & id & Hid). apply is_set_inv in Hsec as (b & sec & Hsec).
  unfold get_credentials_from_env. rewrite Hid, Hsec.
  eexists. split; [reflexivity|]. cbn [client_id client_secret redirect_uris].
  repeat split.
Qed.

Lemma checked_environment_witness :
  exists config,
    get_credentials_from_env (sample_services fresh_credentials) = Ret config
    /\ getenv (sample_services fresh_credentials) "GOOGLE_CLIENT_ID" = Some (client_id config)
    /\ getenv (sample_services fresh_credentials) "GOOGLE_CLIENT_SECRET"
       = Some (client_secret config)
    /\ redirect_uris config
       = [if is_set (getenv (sample_services fresh_credentials) "STREAMLIT_SERVER_PORT")
          then CLOUD_URI else LOCAL_URI].
Proof.
  apply (checked_environment_gives_client_config (sample_services fresh_credentials)).
  reflexivity.
Defined.

End GmailAuthProperties.
